(** * The MongoDB wire-protocol parser of protos/mongodb/mongodb_parser.go

    A shallow embedding of the message framer, the opcode dispatcher, the
    eight per-opcode extractors and the primitive field reader, followed by
    the properties stated about them.

    Conventions of the embedding.
    - Go's [int] is the 64-bit integer of the amd64 targets; conversions and
      additions are written with their wrap-around ([int_of], [int_add]).
    - A Go slice is a window [len] on a backing array [arr]; the capacity is
      the length of the backing array.  Re-slicing is checked against the
      capacity, indexing against the length, as the language defines it.
    - A run-time panic is an outcome of its own ([Panicked]); the decoder
      and the message live on the heap, so the state reached at the moment
      of the panic is part of the outcome.
    - [bson.Unmarshal], [json.Marshal] and the table [UserCommands] are not
      part of the file; they are the fields of the class [Env]. *)

From Stdlib Require Import ZArith Lia List Bool.
From Stdlib Require Import Strings.String Strings.Ascii Strings.Byte.
From stdpp Require Import base option list gmap strings pretty.

Import ListNotations.
Local Open Scope string_scope.
Local Open Scope list_scope.
Local Open Scope Z_scope.

(** ** Machine integers *)

Definition Zbyte (b : byte) : Z := Z.of_N (Byte.to_N b).

(** [uint32(x)] and [uint64(x)]: reduction modulo the width. *)
Definition uint32 (z : Z) : Z := z mod 2 ^ 32.
Definition uint64 (z : Z) : Z := z mod 2 ^ 64.

(** Conversion to a signed integer of [bits] bits (two's complement). *)
Definition signed (bits : Z) (z : Z) : Z :=
  (z + 2 ^ (bits - 1)) mod 2 ^ bits - 2 ^ (bits - 1).

(** Width of Go's [int]. *)
Definition intSize : Z := 64.

(** [int(x)]. *)
Definition int_of (z : Z) : Z := signed intSize z.

(** [a + b] on [int]. *)
Definition int_add (a b : Z) : Z := int_of (a + b).

(** [x << k] on [uint32] and on [uint64]. *)
Definition shl32 (x k : Z) : Z := uint32 (Z.shiftl x k).
Definition shl64 (x k : Z) : Z := uint64 (Z.shiftl x k).

(** ** Outcomes and the state monad *)

Inductive res (A : Type) : Type :=
| Val (a : A)
| Panicked.
Arguments Val {A} a.
Arguments Panicked {A}.

Definition M (S A : Type) : Type := S -> res A * S.

Definition ret {S A} (a : A) : M S A := fun s => (Val a, s).

Definition bind {S A B} (m : M S A) (k : A -> M S B) : M S B :=
  fun s => match m s with
           | (Val a, s') => k a s'
           | (Panicked, s') => (Panicked, s')
           end.

Definition gets {S A} (f : S -> A) : M S A := fun s => (Val (f s), s).
Definition modify {S} (f : S -> S) : M S unit := fun s => (Val tt, f s).
Definition liftRes {S A} (r : res A) : M S A := fun s => (r, s).

Notation "x <- c1 ;; c2" := (bind c1 (fun x => c2))
  (at level 20, c1 at level 99, c2 at level 200, only parsing).
Notation "' pat <- c1 ;; c2" :=
  (bind c1 (fun x => match x with pat => c2 end))
  (at level 20, pat pattern, c1 at level 99, c2 at level 200, only parsing).

(** ** Slices of bytes *)

Record slice : Type := mkSlice {
  arr : list byte;  (* the backing array, from the first element of the slice *)
  len : Z           (* len(s) *)
}.

Definition cap (s : slice) : Z := Z.of_nat (length (arr s)).

(** A slice showing [visible], with [spare] behind it in the same array. *)
Definition slice_of (visible spare : list byte) : slice :=
  {| arr := visible ++ spare; len := Z.of_nat (length visible) |}.

(** [s[i]]: the index is checked against the length. *)
Definition index (s : slice) (i : Z) : res byte :=
  if (0 <=? i) && (i <? len s) then
    match arr s !! Z.to_nat i with
    | Some b => Val b
    | None => Panicked
    end
  else Panicked.

(** [s[:hi]]: the bound is checked against the capacity. *)
Definition reslice_to (s : slice) (hi : Z) : res slice :=
  if (0 <=? hi) && (hi <=? cap s) then Val {| arr := arr s; len := hi |}
  else Panicked.

(** The elements of [s[lo:hi]]: the bounds are checked against the capacity. *)
Definition subslice (s : slice) (lo hi : Z) : res (list byte) :=
  if (0 <=? lo) && (lo <=? hi) && (hi <=? cap s) then
    Val (take (Z.to_nat (hi - lo)) (drop (Z.to_nat lo) (arr s)))
  else Panicked.

(** [b[k]] on the elements of a slice value. *)
Definition elem (b : list byte) (k : nat) : res byte :=
  match b !! k with
  | Some x => Val x
  | None => Panicked
  end.

(** ** Errors *)

Inductive goError : Type :=
| ErrNoByte        (* errors.New("No byte to read") *)
| ErrCStr          (* errors.New("cstring not finished") *)
| ErrUnmarshal     (* the error of bson.Unmarshal *)
| ErrMarshal.      (* the error of json.Marshal *)

(** A value of type [error]; [None] is [nil]. *)
Definition error_value : Type := option goError.

(** ** The decoder *)

Record decoder : Type := mkDecoder {
  d_in : slice;
  d_i : Z
}.

Definition newDecoder (inp : slice) : decoder := {| d_in := inp; d_i := 0 |}.

Definition set_i (i : Z) (d : decoder) : decoder := {| d_in := d_in d; d_i := i |}.
Definition set_in (s : slice) (d : decoder) : decoder := {| d_in := s; d_i := d_i d |}.

Definition truncate (length : Z) : M decoder unit :=
  inp <- gets d_in ;;
  s <- liftRes (reslice_to inp length) ;;
  modify (set_in s).

Definition readBytes (length : Z) : M decoder (list byte * error_value) :=
  start <- gets d_i ;;
  _ <- modify (set_i (int_add start (int_of length))) ;;
  i <- gets d_i ;;
  inp <- gets d_in ;;
  if i >? len inp then ret ([], Some ErrNoByte)
  else
    b <- liftRes (subslice inp start (int_add start (int_of length))) ;;
    ret (b, None).

Definition readInt32 : M decoder (Z * error_value) :=
  ' (b, err) <- readBytes 4 ;;
  match err with
  | Some e => ret (0, Some e)
  | None =>
      b0 <- liftRes (elem b 0) ;;
      b1 <- liftRes (elem b 1) ;;
      b2 <- liftRes (elem b 2) ;;
      b3 <- liftRes (elem b 3) ;;
      ret (int_of (Z.lor (Z.lor (Z.lor
             (shl32 (uint32 (Zbyte b0)) 0)
             (shl32 (uint32 (Zbyte b1)) 8))
             (shl32 (uint32 (Zbyte b2)) 16))
             (shl32 (uint32 (Zbyte b3)) 24)), None)
  end.

Definition readInt64 : M decoder (Z * error_value) :=
  ' (b, err) <- readBytes 8 ;;
  match err with
  | Some e => ret (0, Some e)
  | None =>
      b0 <- liftRes (elem b 0) ;;
      b1 <- liftRes (elem b 1) ;;
      b2 <- liftRes (elem b 2) ;;
      b3 <- liftRes (elem b 3) ;;
      b4 <- liftRes (elem b 4) ;;
      b5 <- liftRes (elem b 5) ;;
      b6 <- liftRes (elem b 6) ;;
      b7 <- liftRes (elem b 7) ;;
      ret (int_of (Z.lor (Z.lor (Z.lor (Z.lor (Z.lor (Z.lor (Z.lor
             (shl64 (uint64 (Zbyte b0)) 0)
             (shl64 (uint64 (Zbyte b1)) 8))
             (shl64 (uint64 (Zbyte b2)) 16))
             (shl64 (uint64 (Zbyte b3)) 24))
             (shl64 (uint64 (Zbyte b4)) 32))
             (shl64 (uint64 (Zbyte b5)) 40))
             (shl64 (uint64 (Zbyte b6)) 48))
             (shl64 (uint64 (Zbyte b7)) 56)), None)
  end.

(** The loop of [readCStr]: [for ; end != l; end++ { if d.in[end] == 0 { break } }].
    Each turn that goes on has read one more byte below [l]; [fuel] counts the
    bytes between the starting position and [l]. *)
Fixpoint scanCStr (fuel : nat) (inp : slice) (l e : Z) : res Z :=
  if e =? l then Val e
  else
    match index inp e with
    | Panicked => Panicked
    | Val b =>
        if Byte.eqb b x00 then Val e
        else match fuel with
             | O => Panicked
             | S fuel' => scanCStr fuel' inp l (int_add e 1)
             end
    end.

Definition readCStr : M decoder (string * error_value) :=
  start <- gets d_i ;;
  inp <- gets d_in ;;
  let l := len inp in
  e <- liftRes (scanCStr (Z.to_nat (l - start)) inp l start) ;;
  _ <- modify (set_i (int_add e 1)) ;;
  i <- gets d_i ;;
  if i >? l then ret ("", Some ErrCStr)
  else
    b <- liftRes (subslice inp start e) ;;
    ret (string_of_list_byte b, None).

(** ** Documents and the libraries around the parser *)

(** A [bson.M]: the keys with their values, in the order in which the decoder
    stored them; [None] is the nil map.  A key stored twice keeps its last
    value, as an assignment to a map entry does ([mapIndex]). *)
Definition bson_M (V : Type) : Type := option (list (string * V)).

(** What [doc2str] is given as its [interface{}] argument: a [bson.M], or one
    value taken out of a [bson.M]. *)
Inductive goValue (V : Type) : Type :=
| OfMap (m : bson_M V)
| OfElem (v : V).
Arguments OfMap {V} m.
Arguments OfElem {V} v.

(** The parts of the program that are outside the file:
    [bsonUnmarshal b] is [bson.Unmarshal(b, documentMap)] ([None]: an error),
    [jsonMarshal v] is [json.Marshal(v)] ([None]: an error), and
    [UserCommands] is the table of command names of the package. *)
Class Env : Type := {
  bsonValue : Type;
  bsonUnmarshal : list byte -> option (list (string * bsonValue));
  jsonMarshal : goValue bsonValue -> option string;
  UserCommands : list string
}.

Fixpoint assoc_last {V} (k : string) (l : list (string * V)) : option V :=
  match l with
  | [] => None
  | (k', v) :: l' =>
      match assoc_last k l' with
      | Some w => Some w
      | None => if String.eqb k' k then Some v else None
      end
  end.

(** [v, present := m[k]]. *)
Definition mapIndex {V} (m : bson_M V) (k : string) : option V :=
  match m with
  | None => None
  | Some l => assoc_last k l
  end.

(** [strings.HasSuffix]:
    [len(s) >= len(suffix) && s[len(s)-len(suffix):] == suffix]. *)
Definition HasSuffix (s suffix : string) : bool :=
  (String.length suffix <=? String.length s)%nat
  && String.eqb
       (substring (String.length s - String.length suffix)
                  (String.length suffix) s)
       suffix.

(** Modelled from the spec: the table [OpCodes] of the package, which is not
    in the file; the Opcode Table of the data model gives its eight entries. *)
Definition OpCodes (code : Z) : option string :=
  if code =? 1 then Some "OP_REPLY"
  else if code =? 1000 then Some "OP_MSG"
  else if code =? 2001 then Some "OP_UPDATE"
  else if code =? 2002 then Some "OP_INSERT"
  else if code =? 2004 then Some "OP_QUERY"
  else if code =? 2005 then Some "OP_GET_MORE"
  else if code =? 2006 then Some "OP_DELETE"
  else if code =? 2007 then Some "OP_KILL_CURSORS"
  else None.

(** ** Messages *)

(** The values stored in [event]. *)
Inductive eventValue : Type :=
| EInt (z : Z)
| EString (s : string)
| EStrings (l : list string).

Record MongodbMessage : Type := mkMessage {
  messageLength : Z;
  requestId : Z;
  responseTo : Z;
  opCode : string;
  IsResponse : bool;
  ExpectsResponse : bool;
  event : gmap string eventValue;
  method : string;
  error : string
}.

Definition set_messageLength (v : Z) (m : MongodbMessage) : MongodbMessage :=
  mkMessage v (requestId m) (responseTo m) (opCode m) (IsResponse m)
            (ExpectsResponse m) (event m) (method m) (error m).
Definition set_requestId (v : Z) (m : MongodbMessage) : MongodbMessage :=
  mkMessage (messageLength m) v (responseTo m) (opCode m) (IsResponse m)
            (ExpectsResponse m) (event m) (method m) (error m).
Definition set_responseTo (v : Z) (m : MongodbMessage) : MongodbMessage :=
  mkMessage (messageLength m) (requestId m) v (opCode m) (IsResponse m)
            (ExpectsResponse m) (event m) (method m) (error m).
Definition set_opCode (v : string) (m : MongodbMessage) : MongodbMessage :=
  mkMessage (messageLength m) (requestId m) (responseTo m) v (IsResponse m)
            (ExpectsResponse m) (event m) (method m) (error m).
Definition set_IsResponse (v : bool) (m : MongodbMessage) : MongodbMessage :=
  mkMessage (messageLength m) (requestId m) (responseTo m) (opCode m) v
            (ExpectsResponse m) (event m) (method m) (error m).
Definition set_ExpectsResponse (v : bool) (m : MongodbMessage) : MongodbMessage :=
  mkMessage (messageLength m) (requestId m) (responseTo m) (opCode m)
            (IsResponse m) v (event m) (method m) (error m).
Definition set_event (v : gmap string eventValue) (m : MongodbMessage) : MongodbMessage :=
  mkMessage (messageLength m) (requestId m) (responseTo m) (opCode m)
            (IsResponse m) (ExpectsResponse m) v (method m) (error m).
Definition set_method (v : string) (m : MongodbMessage) : MongodbMessage :=
  mkMessage (messageLength m) (requestId m) (responseTo m) (opCode m)
            (IsResponse m) (ExpectsResponse m) (event m) v (error m).
Definition set_error (v : string) (m : MongodbMessage) : MongodbMessage :=
  mkMessage (messageLength m) (requestId m) (responseTo m) (opCode m)
            (IsResponse m) (ExpectsResponse m) (event m) (method m) v.

(** [m.event[k] = v]. *)
Definition put_event (k : string) (v : eventValue) (m : MongodbMessage) : MongodbMessage :=
  set_event (<[k := v]> (event m)) m.

Record MongodbStream : Type := mkStream {
  data : slice;
  message : MongodbMessage
}.

(** The heap cells a run of the parser works on: the decoder [d] and the
    message [s.message]. *)
Record state : Type := mkState {
  dec : decoder;
  msg : MongodbMessage
}.

Definition onDecoder {A} (m : M decoder A) : M state A :=
  fun s => let '(r, d') := m (dec s) in (r, {| dec := d'; msg := msg s |}).

Definition setMsg (f : MongodbMessage -> MongodbMessage) : M state unit :=
  modify (fun s => {| dec := dec s; msg := f (msg s) |}).

(** [make([]string, n)]; memory is taken to be there for any length an
    [int32] field can give. *)
Definition make_strings (n : Z) : res (list string) :=
  if n <? 0 then Panicked else Val (replicate (Z.to_nat n) "").

(** [documents[i] = s]. *)
Definition store (documents : list string) (i : Z) (s : string) : res (list string) :=
  if (0 <=? i) && (i <? Z.of_nat (length documents)) then
    Val (<[Z.to_nat i := s]> documents)
  else Panicked.

(** The end of every extractor: [if err != nil { return false, false }];
    [return true, true]. *)
Definition finish {S} (err : error_value) : M S (bool * bool) :=
  match err with
  | Some _ => ret (false, false)
  | None => ret (true, true)
  end.

Section Parser.
Context {E : Env}.

Definition readDocument : M decoder (bson_M bsonValue * error_value) :=
  start <- gets d_i ;;
  ' (documentLength, _) <- readInt32 ;;
  _ <- modify (set_i (int_add start documentLength)) ;;
  inp <- gets d_in ;;
  i <- gets d_i ;;
  b <- liftRes (subslice inp start i) ;;
  match bsonUnmarshal b with
  | None => ret (None, Some ErrUnmarshal)
  | Some documentMap => ret (Some documentMap, None)
  end.

Definition doc2str (documentMap : goValue bsonValue) : string * error_value :=
  match jsonMarshal documentMap with
  | Some document => (document, None)
  | None => ("", Some ErrMarshal)
  end.

Definition readDocumentStr : M decoder (string * error_value) :=
  ' (documentMap, _) <- readDocument ;;
  ret (doc2str (OfMap documentMap)).

(** The loop of [opReplyParse], for [i], [i+1], ...; [turns] is the number of
    turns left, [numberReturned - i]. *)
Fixpoint replyLoop (turns : nat) (i : Z) (documents : list string)
    (err : error_value) : M state (list string * error_value) :=
  match turns with
  | O => ret (documents, err)
  | S turns' =>
      ' (document, err) <- onDecoder readDocument ;;
      err <- (if i =? 0 then
                match mapIndex document "$err" with
                | Some mongoError =>
                    let '(s, e) := doc2str (OfElem mongoError) in
                    _ <- setMsg (set_error s) ;;
                    ret e
                | None => ret err
                end
              else ret err) ;;
      let '(s, err) := doc2str (OfMap document) in
      documents <- liftRes (store documents i s) ;;
      replyLoop turns' (int_add i 1) documents err
  end.

Definition opReplyParse : M state (bool * bool) :=
  ' (_, err) <- onDecoder readInt32 ;;
  ' (v, err) <- onDecoder readInt64 ;;
  _ <- setMsg (put_event "cursorId" (EInt v)) ;;
  ' (v, err) <- onDecoder readInt32 ;;
  _ <- setMsg (put_event "startingFrom" (EInt v)) ;;
  ' (numberReturned, err) <- onDecoder readInt32 ;;
  _ <- setMsg (put_event "numberReturned" (EInt numberReturned)) ;;
  documents <- liftRes (make_strings numberReturned) ;;
  ' (documents, err) <- replyLoop (Z.to_nat numberReturned) 0 documents err ;;
  _ <- setMsg (put_event "documents" (EStrings documents)) ;;
  finish err.

Definition opMsgParse : M state (bool * bool) :=
  ' (v, err) <- onDecoder readCStr ;;
  _ <- setMsg (put_event "message" (EString v)) ;;
  finish err.

Definition opUpdateParse : M state (bool * bool) :=
  ' (_, err) <- onDecoder readInt32 ;;
  ' (v, err) <- onDecoder readCStr ;;
  _ <- setMsg (put_event "fullCollectionName" (EString v)) ;;
  ' (_, err) <- onDecoder readInt32 ;;
  ' (v, err) <- onDecoder readDocumentStr ;;
  _ <- setMsg (put_event "selector" (EString v)) ;;
  ' (v, err) <- onDecoder readDocumentStr ;;
  _ <- setMsg (put_event "update" (EString v)) ;;
  finish err.

Definition opInsertParse : M state (bool * bool) :=
  ' (_, err) <- onDecoder readInt32 ;;
  ' (v, err) <- onDecoder readCStr ;;
  _ <- setMsg (put_event "fullCollectionName" (EString v)) ;;
  finish err.

(** [for _, command := range UserCommands { if _, present := query[command];
    present { m.method = command } }]. *)
Fixpoint rangeCommands (commands : list string) (query : bson_M bsonValue)
    : M state unit :=
  match commands with
  | [] => ret tt
  | command :: rest =>
      _ <- (match mapIndex query command with
            | Some _ => setMsg (set_method command)
            | None => ret tt
            end) ;;
      rangeCommands rest query
  end.

Definition opQueryParse : M state (bool * bool) :=
  ' (_, err) <- onDecoder readInt32 ;;
  ' (fullCollectionName, err) <- onDecoder readCStr ;;
  _ <- setMsg (put_event "fullCollectionName" (EString fullCollectionName)) ;;
  ' (v, err) <- onDecoder readInt32 ;;
  _ <- setMsg (put_event "numberToSkip" (EInt v)) ;;
  ' (v, err) <- onDecoder readInt32 ;;
  _ <- setMsg (put_event "numberToReturn" (EInt v)) ;;
  ' (query, err) <- onDecoder readDocument ;;
  d <- gets dec ;;
  err <- (if d_i d <? len (d_in d) then
            ' (v, err) <- onDecoder readDocumentStr ;;
            _ <- setMsg (put_event "returnFieldsSelector" (EString v)) ;;
            ret err
          else ret err) ;;
  _ <- (if HasSuffix fullCollectionName ".$cmd" then
          _ <- setMsg (set_method "otherCommand") ;;
          rangeCommands UserCommands query
        else setMsg (set_method "find")) ;;
  let '(v, err) := doc2str (OfMap query) in
  _ <- setMsg (put_event "query" (EString v)) ;;
  finish err.

Definition opGetMoreParse : M state (bool * bool) :=
  ' (_, err) <- onDecoder readInt32 ;;
  ' (v, err) <- onDecoder readCStr ;;
  _ <- setMsg (put_event "fullCollectionName" (EString v)) ;;
  ' (v, err) <- onDecoder readInt32 ;;
  _ <- setMsg (put_event "numberToReturn" (EInt v)) ;;
  ' (v, err) <- onDecoder readInt64 ;;
  _ <- setMsg (put_event "cursorId" (EInt v)) ;;
  finish err.

Definition opDeleteParse : M state (bool * bool) :=
  ' (_, err) <- onDecoder readInt32 ;;
  ' (v, err) <- onDecoder readCStr ;;
  _ <- setMsg (put_event "fullCollectionName" (EString v)) ;;
  ' (_, err) <- onDecoder readInt32 ;;
  ' (v, err) <- onDecoder readDocumentStr ;;
  _ <- setMsg (put_event "selector" (EString v)) ;;
  finish err.

Definition opKillCursorsParse : M state (bool * bool) :=
  ret (true, true).

(** The [switch s.message.opCode] of [mongodbMessageParser], with the
    [return false, false] that follows it. *)
Definition dispatch : M state (bool * bool) :=
  op <- gets (fun s => opCode (msg s)) ;;
  if String.eqb op "OP_REPLY" then
    _ <- setMsg (set_IsResponse true) ;;
    opReplyParse
  else if String.eqb op "OP_MSG" then
    _ <- setMsg (set_method "msg") ;;
    opMsgParse
  else if String.eqb op "OP_UPDATE" then
    _ <- setMsg (set_method "update") ;;
    opUpdateParse
  else if String.eqb op "OP_INSERT" then
    _ <- setMsg (set_method "insert") ;;
    opInsertParse
  else if String.eqb op "OP_QUERY" then
    _ <- setMsg (set_ExpectsResponse true) ;;
    opQueryParse
  else if String.eqb op "OP_GET_MORE" then
    _ <- setMsg (set_method "getMore") ;;
    _ <- setMsg (set_ExpectsResponse true) ;;
    opGetMoreParse
  else if String.eqb op "OP_DELETE" then
    _ <- setMsg (set_method "delete") ;;
    opDeleteParse
  else if String.eqb op "OP_KILL_CURSORS" then
    _ <- setMsg (set_method "killCursors") ;;
    opKillCursorsParse
  else ret (false, false).

(** The body of [mongodbMessageParser] on the heap cells [d] and [s.message];
    [sdata] is [s.data]. *)
Definition parse (sdata : slice) : M state (bool * bool) :=
  ' (length, err) <- onDecoder readInt32 ;;
  match err with
  | Some _ => ret (true, false)
  | None =>
      if length >? len sdata then ret (true, false)
      else
        _ <- onDecoder (truncate length) ;;
        _ <- setMsg (set_messageLength length) ;;
        ' (v, err) <- onDecoder readInt32 ;;
        _ <- setMsg (set_requestId v) ;;
        ' (v, err) <- onDecoder readInt32 ;;
        _ <- setMsg (set_responseTo v) ;;
        ' (code, err) <- onDecoder readInt32 ;;
        match OpCodes code with
        | None => ret (false, false)
        | Some name =>
            _ <- setMsg (set_opCode name) ;;
            _ <- setMsg (set_IsResponse false) ;;
            _ <- setMsg (set_ExpectsResponse false) ;;
            _ <- setMsg (set_event ∅) ;;
            dispatch
        end
  end.

(** [mongodbMessageParser(s)]: the two results, or a panic, and the stream
    as the call leaves it. *)
Definition mongodbMessageParser (s : MongodbStream)
    : res (bool * bool) * MongodbStream :=
  let '(r, st) := parse (data s) {| dec := newDecoder (data s); msg := message s |} in
  (r, {| data := data s; message := msg st |}).

End Parser.

(** ** Little-endian values, as the wire format defines them *)

(** The unsigned value of the bytes [bs], least significant first. *)
Fixpoint le_value (bs : list byte) : Z :=
  match bs with
  | [] => 0
  | b :: rest => Zbyte b + 256 * le_value rest
  end.

(** The [n] bytes at offset [off] of [l]. *)
Definition bytes_at (l : list byte) (off n : nat) : list byte :=
  take n (drop off l).

(** The byte of value [n mod 256]. *)
Definition byte_of_Z (n : Z) : byte :=
  match Byte.of_N (Z.to_N (n mod 256)) with
  | Some b => b
  | None => x00
  end.

(** The [n] bytes, least significant first, of [z] (two's complement). *)
Fixpoint le_bytes (n : nat) (z : Z) : list byte :=
  match n with
  | O => []
  | S n' => byte_of_Z z :: le_bytes n' (z / 256)
  end.

(** ** A small environment to run the parser on concrete messages

    The BSON documents of this fragment have string, embedded-document,
    boolean, null, 32-bit and 64-bit integer elements; the decoder follows
    the layout checks of the library (declared length, final NUL, element
    names, no element running over the end of its document) and reports any
    other element kind as an error.  The JSON text is the one of
    [encoding/json] for these values when the strings need no escape other
    than for the double quote and the backslash: object keys sorted, a key
    stored twice printed once with its last value. *)
Module Bson.

#[local] Set Warnings "-register-all".

Inductive value : Type :=
| String_ (s : string)
| Doc (l : list (string * value))
| Bool_ (b : bool)
| Null
| Int32 (z : Z)
| Int64 (z : Z).

(** The position of the first NUL at or after [pos], if any. *)
Fixpoint find_nul (b : list byte) (pos : nat) : option nat :=
  match b with
  | [] => None
  | x :: rest =>
      match pos with
      | O => if Byte.eqb x x00 then Some O
             else option_map S (find_nul rest O)
      | S p => option_map S (find_nul rest p)
      end
  end.

Definition read_cstr (b : list byte) (pos : nat) : option (string * nat) :=
  match find_nul b pos with
  | Some e => Some (string_of_list_byte (bytes_at b pos (e - pos)), S e)
  | None => None
  end.

Definition read_le (b : list byte) (pos n : nat) : option (Z * nat) :=
  if (pos + n <=? length b)%nat then Some (le_value (bytes_at b pos n), (pos + n)%nat)
  else None.

(** The document that starts at [pos], and the position behind it; every
    call reads at least one byte, so a fuel of the length of [b] is enough. *)
Fixpoint read_doc (fuel : nat) (b : list byte) (pos : nat)
    : option (list (string * value) * nat) :=
  match fuel with
  | O => None
  | S fuel' =>
      match read_le b pos 4 with
      | None => None
      | Some (l, body) =>
          let e := (pos + Z.to_nat (signed 32 l))%nat in
          if (signed 32 l <=? 4) || (length b <? e)%nat
             || negb (match b !! (e - 1)%nat with
                      | Some x => Byte.eqb x x00
                      | None => false
                      end)
          then None
          else read_elems fuel' b body e []
      end
  end
with read_elems (fuel : nat) (b : list byte) (pos e : nat)
    (acc : list (string * value)) : option (list (string * value) * nat) :=
  match fuel with
  | O => None
  | S fuel' =>
      match b !! pos with
      | None => None
      | Some kind =>
          if Byte.eqb kind x00 then
            if (S pos =? e)%nat then Some (acc, S pos) else None
          else
            match read_cstr b (S pos) with
            | None => None
            | Some (name, p) =>
                if (e <=? p)%nat then None
                else
                  match
                    (if Byte.eqb kind x02 then
                       match read_le b p 4 with
                       | Some (l, q) =>
                           if signed 32 l <? 1 then None
                           else
                             let n := Z.to_nat (signed 32 l - 1) in
                             match b !! (q + n)%nat with
                             | Some x =>
                                 if Byte.eqb x x00 then
                                   Some (String_ (string_of_list_byte (bytes_at b q n)),
                                         S (q + n))
                                 else None
                             | None => None
                             end
                       | None => None
                       end
                     else if Byte.eqb kind x03 then
                       match read_doc fuel' b p with
                       | Some (m, q) => Some (Doc m, q)
                       | None => None
                       end
                     else if Byte.eqb kind x08 then
                       match b !! p with
                       | Some x =>
                           if Byte.eqb x x00 then Some (Bool_ false, S p)
                           else if Byte.eqb x x01 then Some (Bool_ true, S p)
                           else None
                       | None => None
                       end
                     else if Byte.eqb kind x0a then Some (Null, p)
                     else if Byte.eqb kind x10 then
                       match read_le b p 4 with
                       | Some (l, q) => Some (Int32 (signed 32 l), q)
                       | None => None
                       end
                     else if Byte.eqb kind x12 then
                       match read_le b p 8 with
                       | Some (l, q) => Some (Int64 (signed 64 l), q)
                       | None => None
                       end
                     else None)
                  with
                  | None => None
                  | Some (v, q) =>
                      if (e <=? q)%nat then None
                      else read_elems fuel' b q e (acc ++ [(name, v)])
                  end
            end
      end
  end.

Definition unmarshal (b : list byte) : option (list (string * value)) :=
  match read_doc (S (length b)) b 0 with
  | Some (m, _) => Some m
  | None => None
  end.

(** Encoders, to write documents down. *)
Definition cstring (s : string) : list byte := list_byte_of_string s ++ [x00].

Definition document (elements : list byte) : list byte :=
  le_bytes 4 (Z.of_nat (length elements) + 5) ++ elements ++ [x00].

Definition int32_element (name : string) (v : Z) : list byte :=
  x10 :: cstring name ++ le_bytes 4 v.


Definition document_element (name : string) (doc : list byte) : list byte :=
  x03 :: cstring name ++ doc.

End Bson.

Module Json.

Definition dquote : ascii := ascii_of_nat 34.
Definition backslash : ascii := ascii_of_nat 92.

Fixpoint escape (s : string) : string :=
  match s with
  | EmptyString => EmptyString
  | String c rest =>
      if Ascii.eqb c dquote then String backslash (String dquote (escape rest))
      else if Ascii.eqb c backslash then String backslash (String backslash (escape rest))
      else String c (escape rest)
  end.

Definition quoted (s : string) : string :=
  String dquote (escape s ++ String dquote EmptyString).

(** The entries by increasing key; an entry put later replaces one of the
    same key. *)
Fixpoint put (k v : string) (l : list (string * string)) : list (string * string) :=
  match l with
  | [] => [(k, v)]
  | (k', v') :: rest =>
      if String.eqb k k' then (k, v) :: rest
      else if String.ltb k k' then (k, v) :: (k', v') :: rest
      else (k', v') :: put k v rest
  end.

Definition sort_entries (l : list (string * string)) : list (string * string) :=
  fold_left (fun acc kv => put (fst kv) (snd kv) acc) l [].

Fixpoint members (l : list (string * string)) : string :=
  match l with
  | [] => ""
  | [(k, v)] => quoted k ++ ":" ++ v
  | (k, v) :: rest => quoted k ++ ":" ++ v ++ "," ++ members rest
  end.

Definition object (l : list (string * string)) : string :=
  "{" ++ members (sort_entries l) ++ "}".

Fixpoint of_value (v : Bson.value) : string :=
  match v with
  | Bson.String_ s => quoted s
  | Bson.Doc l =>
      object ((fix entries (l : list (string * Bson.value)) :=
                 match l with
                 | [] => []
                 | (k, x) :: rest => (k, of_value x) :: entries rest
                 end) l)
  | Bson.Bool_ b => if b then "true" else "false"
  | Bson.Null => "null"
  | Bson.Int32 z => pretty z
  | Bson.Int64 z => pretty z
  end.

Definition marshal (v : goValue Bson.value) : option string :=
  match v with
  | OfMap None => Some "null"
  | OfMap (Some l) => Some (of_value (Bson.Doc l))
  | OfElem x => Some (of_value x)
  end.

End Json.

(** Modelled from the spec: the table [UserCommands] of the package, which is
    not in the file; the data model names three of its entries. *)
Definition sampleCommands : list string := ["ismaster"; "count"; "findAndModify"].

(** The environment of the examples. *)
Definition sampleEnv : Env :=
  {| bsonValue := Bson.value;
     bsonUnmarshal := Bson.unmarshal;
     jsonMarshal := Json.marshal;
     UserCommands := sampleCommands |}.

(** ** Messages on the wire, to write examples down *)
Module Wire.

Definition header (length requestId responseTo opCode : Z) : list byte :=
  le_bytes 4 length ++ le_bytes 4 requestId ++ le_bytes 4 responseTo
  ++ le_bytes 4 opCode.

(** A message: the header, with the length of the whole, and the body. *)
Definition frame (requestId responseTo opCode : Z) (body : list byte) : list byte :=
  header (16 + Z.of_nat (length body)) requestId responseTo opCode ++ body.

Definition emptyMessage : MongodbMessage :=
  mkMessage 0 0 0 "" false false ∅ "" "".

(** A stream whose buffer holds [buf] and has no room behind it. *)
Definition stream (buf : list byte) : MongodbStream :=
  {| data := slice_of buf []; message := emptyMessage |}.

End Wire.

(** ** The vocabulary of the properties *)

(** Cursors up to [maxCursor] are far enough from the largest [int] for the
    additions of the reader not to wrap around. *)
Definition maxCursor : Z := 4611686018427387904.

(** The cursor [i] has not passed the end [l] of the window. *)
Definition i_in_range (i l : Z) : bool := negb (i >? l).

(** The error of a fixed-width read of [n] bytes at cursor [i] of [s]. *)
Definition fixed_err (s : slice) (i n : Z) : error_value :=
  if i + n >? len s then Some ErrNoByte else None.

(** The value [readInt32] gives at cursor [i] of [s]. *)
Definition int32_at (s : slice) (i : Z) : Z :=
  if i + 4 >? len s then 0
  else le_value (bytes_at (arr s) (Z.to_nat i) 4).

(** The value [readInt64] gives at cursor [i] of [s]. *)
Definition int64_at (s : slice) (i : Z) : Z :=
  if i + 8 >? len s then 0
  else signed 64 (le_value (bytes_at (arr s) (Z.to_nat i) 8)).

(** The message length a buffer declares: the value of its first four bytes. *)
Definition declaredLength (buf : list byte) : Z := le_value (bytes_at buf 0 4).

(** The window of [messageLength] bytes the framer leaves to the decoder. *)
Definition view (buf spare : list byte) (messageLength : Z) : slice :=
  {| arr := buf ++ spare; len := messageLength |}.

(** The message once the framer has stored the header fields. *)
Definition with_header (buf spare : list byte) (m : MongodbMessage) : MongodbMessage :=
  let v := view buf spare (declaredLength buf) in
  set_responseTo (int32_at v 8)
    (set_requestId (int32_at v 4)
       (set_messageLength (declaredLength buf) m)).

(** The message as the dispatcher receives it. *)
Definition with_opCode (name : string) (m : MongodbMessage) : MongodbMessage :=
  set_event ∅ (set_ExpectsResponse false (set_IsResponse false (set_opCode name m))).

(** The decoder on the four bytes [b0 b1 b2 b3]. *)
Definition four_bytes (b0 b1 b2 b3 : byte) : decoder :=
  newDecoder (slice_of [b0; b1; b2; b3] []).

(** [keeps P c]: a property [P] of the message that holds before [c] holds
    after it, whether [c] returns or panics. *)
Definition keeps {A} (P : MongodbMessage -> Prop) (c : M state A) : Prop :=
  forall s, P (msg s) -> P (msg (snd (c s))).

(** The flags, and the flags with the method. *)
Definition flags_are (r e : bool) (m : MongodbMessage) : Prop :=
  IsResponse m = r /\ ExpectsResponse m = e.

Definition method_is (x : string) (m : MongodbMessage) : Prop :=
  method m = x.

(** The bytes [readDocument] hands to the document decoder: the declared
    number of bytes from the cursor. *)
Definition designated (d : decoder) : list byte :=
  bytes_at (arr (d_in d)) (Z.to_nat (d_i d))
           (Z.to_nat (int32_at (d_in d) (d_i d))).

(** The decoder on the window [v] with its cursor behind the bytes [pre]. *)
Definition at_ (v : slice) (pre : list byte) (m : MongodbMessage) : state :=
  {| dec := {| d_in := v; d_i := Z.of_nat (length pre) |}; msg := m |}.

(** A document laid out with the length it declares. *)
Definition framed_document (doc : list byte) : Prop :=
  (4 <= length doc)%nat /\ le_value (bytes_at doc 0 4) = Z.of_nat (length doc).

Section Vocabulary.
Context {E : Env}.

(** The two results of [readDocument] for the verdict of the document
    decoder. *)
Definition decoded (b : list byte) : bson_M bsonValue * error_value :=
  match bsonUnmarshal b with
  | Some documentMap => (Some documentMap, None)
  | None => (None, Some ErrUnmarshal)
  end.

(** The text of the document laid out in [doc], and the error of its
    conversion. *)
Definition text_of (doc : list byte) : string :=
  fst (doc2str (OfMap (fst (decoded doc)))).

Definition text_err (doc : list byte) : error_value :=
  snd (doc2str (OfMap (fst (decoded doc)))).



(** [_, present := query[command]]. *)
Definition present (query : bson_M bsonValue) (command : string) : bool :=
  match mapIndex query command with
  | Some _ => true
  | None => false
  end.

(** The method [opQueryParse] gives: for a command namespace the last entry
    of [UserCommands], in the order of the table, that is a key of the query
    document, "otherCommand" when there is none; "find" otherwise. *)
Definition classify (fullCollectionName : string) (query : bson_M bsonValue) : string :=
  if HasSuffix fullCollectionName ".$cmd" then
    List.last (List.filter (present query) UserCommands) "otherCommand"
  else "find".

(** The method as the specification words it: for a command namespace the first key of
    the query document, in the order of the document, that is an entry of
    [UserCommands], "otherCommand" when there is none; "find" otherwise. *)
Definition first_key_method (fullCollectionName : string)
    (query : bson_M bsonValue) : string :=
  if HasSuffix fullCollectionName ".$cmd" then
    match query with
    | Some entries =>
        match List.find (fun key => existsb (String.eqb key) UserCommands)
                        (map fst entries) with
        | Some key => key
        | None => "otherCommand"
        end
    | None => "otherCommand"
    end
  else "find".

(** The selector that may follow the query document. *)
Definition with_selector (sel : list byte) (m : MongodbMessage) : MongodbMessage :=
  match sel with
  | [] => m
  | _ :: _ => put_event "returnFieldsSelector" (EString (text_of sel)) m
  end.

End Vocabulary.

(** ** Concrete messages *)

Module Examples.

#[local] Existing Instance sampleEnv.

(** OP_QUERY on "db.$cmd" with the query {ismaster: 1}. *)
Definition query_ismaster : list byte :=
  Wire.frame 7 0 2004
    (le_bytes 4 0 ++ Bson.cstring "db.$cmd" ++ le_bytes 4 0 ++ le_bytes 4 1
     ++ Bson.document (Bson.int32_element "ismaster" 1)).

(** OP_QUERY on "db.users" with the query {age: {$gt: 5}}. *)
Definition query_find : list byte :=
  Wire.frame 8 0 2004
    (le_bytes 4 0 ++ Bson.cstring "db.users" ++ le_bytes 4 0 ++ le_bytes 4 10
     ++ Bson.document
          (Bson.document_element "age"
             (Bson.document (Bson.int32_element "$gt" 5)))).

(** OP_QUERY on "db.$cmd" with the query {ismaster: 1, count: 1}. *)
Definition query_two_commands : list byte :=
  Wire.frame 9 0 2004
    (le_bytes 4 0 ++ Bson.cstring "db.$cmd" ++ le_bytes 4 0 ++ le_bytes 4 1
     ++ Bson.document (Bson.int32_element "ismaster" 1
                       ++ Bson.int32_element "count" 1)).


(** Five bytes that are not a document: the declared length is 5 and the
    last byte is not NUL. *)
Definition not_a_document : list byte := [x05; x00; x00; x00; x01].

(** OP_UPDATE on "db.users" whose selector is [not_a_document] and whose
    update is the document {a: 1}. *)
Definition update_bad_selector : list byte :=
  Wire.frame 11 0 2001
    (le_bytes 4 0 ++ Bson.cstring "db.users" ++ le_bytes 4 0
     ++ not_a_document
     ++ Bson.document (Bson.int32_element "a" 1)).

(** OP_DELETE on "db.c" whose message ends after the four bytes in which its
    selector declares a length of 12. *)
Definition delete_overrun : list byte :=
  Wire.frame 12 0 2006
    (le_bytes 4 0 ++ Bson.cstring "db.c" ++ le_bytes 4 0 ++ le_bytes 4 12).

(** Bytes that follow [delete_overrun] in the buffer: they belong to the
    next message. *)
Definition next_bytes (n : Z) : list byte :=
  Bson.int32_element "a" n ++ [x00].

(** A message of 20 bytes with the opcode 9999. *)
Definition unknown_9999 : list byte := Wire.frame 1 0 9999 (le_bytes 4 0).

(** Eight bytes that declare a message of eight bytes. *)
Definition header_of_8 : list byte := le_bytes 4 8 ++ le_bytes 4 42.

(** OP_GET_MORE on "db.c" with the cursor 77. *)
Definition get_more : list byte :=
  Wire.frame 3 0 2005
    (le_bytes 4 0 ++ Bson.cstring "db.c" ++ le_bytes 4 10 ++ le_bytes 8 77).

Definition run (buf : list byte) : res (bool * bool) * MongodbStream :=
  mongodbMessageParser (Wire.stream buf).

End Examples.

(** ** Framed messages *)

(** [hdr] is the header of a message whose body is [body] and whose opcode
    is [opcode]: sixteen bytes, the first four of which give the length of
    the whole message and the last four the opcode. *)
Definition is_header (hdr body : list byte) (opcode : Z) : Prop :=
  length hdr = 16%nat
  /\ declaredLength hdr = Z.of_nat (length (hdr ++ body))
  /\ le_value (bytes_at hdr 12 4) = opcode.

(** The stream that holds the message [hdr ++ body], the bytes [more] behind
    it, and the spare capacity [spare]. *)
Definition stream_of (hdr body more spare : list byte) (m : MongodbMessage)
    : MongodbStream :=
  {| data := slice_of (hdr ++ body ++ more) spare; message := m |}.

(** Two slices show the same window: the same length and the same bytes
    below it. *)
Definition same_window (s s' : slice) : Prop :=
  len s = len s'
  /\ take (Z.to_nat (len s)) (arr s) = take (Z.to_nat (len s')) (arr s').

(** Two decoders at the same cursor of the same window, each within the
    capacity of its buffer. *)
Definition same_view (d d' : decoder) : Prop :=
  d_i d = d_i d'
  /\ same_window (d_in d) (d_in d')
  /\ len (d_in d) <= cap (d_in d) /\ len (d_in d') <= cap (d_in d').

Definition same_state (s s' : state) : Prop :=
  same_view (dec s) (dec s') /\ msg s = msg s'.

(** [c] gives the same outcome on decoders that show the same window, and
    leaves them showing the same window. *)
Definition window_only {A} (c : M decoder A) : Prop :=
  forall d d', same_view d d' ->
    fst (c d) = fst (c d') /\ same_view (snd (c d)) (snd (c d')).

Definition window_only_state {A} (c : M state A) : Prop :=
  forall s s', same_state s s' ->
    fst (c s) = fst (c s') /\ same_state (snd (c s)) (snd (c s')).

(** [returns Q c]: every result that [c] returns satisfies [Q]. *)
Definition returns {S A} (Q : A -> Prop) (c : M S A) : Prop :=
  forall s r, fst (c s) = Val r -> Q r.

(** The verdicts of the parser: ok and complete, ok and not complete, or
    neither. *)
Definition verdict (r : bool * bool) : Prop :=
  r = (true, true) \/ r = (true, false) \/ r = (false, false).

(** The two results of an extractor that returns: both true or both
    false. *)
Definition equal_results (r : bool * bool) : Prop :=
  r = (true, true) \/ r = (false, false).

(** The opcodes whose extractor reads embedded documents. *)
Definition reads_documents (name : string) : bool :=
  String.eqb name "OP_REPLY" || String.eqb name "OP_UPDATE"
  || String.eqb name "OP_QUERY" || String.eqb name "OP_DELETE".

(** More concrete messages. *)
Module Samples.

(** OP_MSG with the text "hello" and its terminator. *)
Definition msg_hello : list byte :=
  Wire.frame 20 0 1000 (Bson.cstring "hello").

(** OP_MSG whose text runs to the end of the message. *)
Definition msg_open : list byte :=
  Wire.frame 21 0 1000 (list_byte_of_string "hello").

(** OP_INSERT on "db.c" followed by one document. *)
Definition insert_one : list byte :=
  Wire.frame 22 0 2002
    (le_bytes 4 0 ++ Bson.cstring "db.c"
     ++ Bson.document (Bson.int32_element "a" 1)).

(** OP_DELETE on "db.c" with the selector {a: 1}. *)
Definition delete_one : list byte :=
  Wire.frame 23 0 2006
    (le_bytes 4 0 ++ Bson.cstring "db.c" ++ le_bytes 4 0
     ++ Bson.document (Bson.int32_element "a" 1)).

(** OP_KILL_CURSORS with one cursor id. *)
Definition kill_cursors : list byte :=
  Wire.frame 24 0 2007 (le_bytes 4 0 ++ le_bytes 4 1 ++ le_bytes 8 77).

(** OP_QUERY on "db.users" with the query {a: 1} and the selector {b: 1}. *)
Definition query_with_selector : list byte :=
  Wire.frame 25 0 2004
    (le_bytes 4 0 ++ Bson.cstring "db.users" ++ le_bytes 4 0 ++ le_bytes 4 10
     ++ Bson.document (Bson.int32_element "a" 1)
     ++ Bson.document (Bson.int32_element "b" 1)).

(** OP_QUERY on "db.$cmd" with the query {ismaster: 1}, which ends after the
    four bytes in which its selector declares a length of 12. *)
Definition query_cut_selector : list byte :=
  Wire.frame 28 0 2004
    (le_bytes 4 0 ++ Bson.cstring "db.$cmd" ++ le_bytes 4 0 ++ le_bytes 4 1
     ++ Bson.document (Bson.int32_element "ismaster" 1)
     ++ le_bytes 4 12).

(** OP_REPLY cut after its cursor id. *)
Definition reply_cut : list byte :=
  Wire.frame 26 25 1 (le_bytes 4 0 ++ le_bytes 8 5).

(** OP_INSERT of 18 bytes. *)
Definition insert_cut : list byte := Wire.frame 27 0 2002 [x00; x00].

End Samples.

(** ** Tactics *)

(** Running the plain steps of a computation: the binds, the reads and
    writes of the state, the projections. *)
Ltac exec :=
  cbn beta iota zeta delta
    [bind ret gets modify liftRes setMsg finish fst snd
     dec msg d_in d_i set_i set_in arr len].

(** Closed facts, by evaluation. *)
Ltac computed := vm_compute; repeat split; (reflexivity || discriminate).

(** A concrete document carries the length it declares. *)
Ltac framed := split; [vm_compute; lia | vm_compute; reflexivity].

(** A step of a computation whose first action is described by the
    equation [L]. *)
Ltac step L := unfold bind at 1; rewrite L; cbv beta iota.

(** The layout of the window, from the equation [H] of its bytes. *)
Ltac layout H := rewrite H, <- ?app_assoc; reflexivity.

(** * Properties *)

(** ** Integers *)

Lemma Zbyte_range (b : byte) : 0 <= Zbyte b < 256.
Proof.
  unfold Zbyte. pose proof (Byte.to_N_bounded b) as H.
  split; [apply N2Z.is_nonneg | lia].
Qed.

Lemma signed_small (bits z : Z) :
  0 < bits -> - 2 ^ (bits - 1) <= z < 2 ^ (bits - 1) -> signed bits z = z.
Proof.
  intros Hb Hz. unfold signed.
  assert (Hp : 2 ^ bits = 2 * 2 ^ (bits - 1)).
  { replace bits with (Z.succ (bits - 1)) at 1 by lia.
    rewrite Z.pow_succ_r by lia. reflexivity. }
  rewrite Z.mod_small by lia. lia.
Qed.

Lemma int_of_small (z : Z) : - 2 ^ 63 <= z < 2 ^ 63 -> int_of z = z.
Proof. intros H. unfold int_of, intSize. apply signed_small; [lia | exact H]. Qed.

Lemma int_add_small (a b : Z) :
  - 2 ^ 63 <= a + b < 2 ^ 63 -> int_add a b = a + b.
Proof. apply int_of_small. Qed.

(** Bits that do not overlap: the bitwise or is the sum. *)
Lemma lor_shiftl_add (a b k : Z) :
  0 <= k -> 0 <= a < 2 ^ k -> 0 <= b -> Z.lor a (Z.shiftl b k) = a + b * 2 ^ k.
Proof.
  intros Hk Ha Hb.
  assert (Hland : Z.land a (Z.shiftl b k) = 0).
  { apply Z.bits_inj'. intros n Hn.
    rewrite Z.land_spec, Z.bits_0.
    destruct (Z.lt_ge_cases n k) as [Hlt | Hge].
    - rewrite Z.shiftl_spec_low by assumption. apply andb_false_r.
    - destruct (Z.eq_dec a 0) as [-> | Hne].
      + rewrite Z.bits_0. reflexivity.
      + rewrite (Z.bits_above_log2 a n); [reflexivity | lia |].
        apply Z.log2_lt_pow2; [lia |].
        apply Z.lt_le_trans with (2 ^ k); [lia |].
        apply Z.pow_le_mono_r; lia. }
  rewrite <- Z.lxor_lor by assumption.
  rewrite <- Z.add_nocarry_lxor by assumption.
  rewrite Z.shiftl_mul_pow2 by assumption. reflexivity.
Qed.

Lemma le_value_range (bs : list byte) :
  0 <= le_value bs < 256 ^ Z.of_nat (length bs).
Proof.
  induction bs as [| b bs IH]; [simpl; lia |].
  cbn [le_value length]. rewrite Nat2Z.inj_succ, Z.pow_succ_r by lia.
  pose proof (Zbyte_range b). lia.
Qed.

(** The bitwise or [readInt32] computes from four bytes is their unsigned
    little-endian value. *)
Lemma lor32_of_bytes (b0 b1 b2 b3 : byte) :
  Z.lor (Z.lor (Z.lor
     (shl32 (uint32 (Zbyte b0)) 0)
     (shl32 (uint32 (Zbyte b1)) 8))
     (shl32 (uint32 (Zbyte b2)) 16))
     (shl32 (uint32 (Zbyte b3)) 24)
  = le_value [b0; b1; b2; b3].
Proof.
  pose proof (Zbyte_range b0). pose proof (Zbyte_range b1).
  pose proof (Zbyte_range b2). pose proof (Zbyte_range b3).
  assert (Hu : forall x k, 0 <= x < 256 -> 0 <= k <= 24 ->
                 shl32 (uint32 x) k = Z.shiftl x k).
  { intros x k Hx Hk. unfold shl32, uint32.
    rewrite (Z.mod_small x) by lia.
    rewrite Z.shiftl_mul_pow2 by lia.
    apply Z.mod_small.
    assert (2 ^ k <= 2 ^ 24) by (apply Z.pow_le_mono_r; lia).
    assert (0 < 2 ^ k) by (apply Z.pow_pos_nonneg; lia).
    change (2 ^ 32) with (256 * 2 ^ 24). nia. }
  rewrite !Hu by lia.
  rewrite (Z.shiftl_0_r (Zbyte b0)).
  rewrite (lor_shiftl_add _ (Zbyte b1) 8);
    [| lia | change (2 ^ 8) with 256; lia | lia].
  change (2 ^ 8) with 256.
  rewrite (lor_shiftl_add _ (Zbyte b2) 16);
    [| lia | change (2 ^ 16) with 65536; lia | lia].
  change (2 ^ 16) with 65536.
  rewrite (lor_shiftl_add _ (Zbyte b3) 24);
    [| lia | change (2 ^ 24) with 16777216; lia | lia].
  change (2 ^ 24) with 16777216.
  cbn [le_value]. lia.
Qed.

(** On an [int] of 64 bits the conversion keeps that value. *)
Lemma int32_of_bytes (b0 b1 b2 b3 : byte) :
  int_of (Z.lor (Z.lor (Z.lor
     (shl32 (uint32 (Zbyte b0)) 0)
     (shl32 (uint32 (Zbyte b1)) 8))
     (shl32 (uint32 (Zbyte b2)) 16))
     (shl32 (uint32 (Zbyte b3)) 24))
  = le_value [b0; b1; b2; b3].
Proof.
  rewrite lor32_of_bytes.
  pose proof (le_value_range [b0; b1; b2; b3]) as H.
  change (256 ^ Z.of_nat (length [b0; b1; b2; b3])) with 4294967296 in H.
  apply int_of_small. change (2 ^ 63) with 9223372036854775808. lia.
Qed.

Lemma int64_of_bytes (b0 b1 b2 b3 b4 b5 b6 b7 : byte) :
  int_of (Z.lor (Z.lor (Z.lor (Z.lor (Z.lor (Z.lor (Z.lor
     (shl64 (uint64 (Zbyte b0)) 0)
     (shl64 (uint64 (Zbyte b1)) 8))
     (shl64 (uint64 (Zbyte b2)) 16))
     (shl64 (uint64 (Zbyte b3)) 24))
     (shl64 (uint64 (Zbyte b4)) 32))
     (shl64 (uint64 (Zbyte b5)) 40))
     (shl64 (uint64 (Zbyte b6)) 48))
     (shl64 (uint64 (Zbyte b7)) 56))
  = signed 64 (le_value [b0; b1; b2; b3; b4; b5; b6; b7]).
Proof.
  pose proof (Zbyte_range b0). pose proof (Zbyte_range b1).
  pose proof (Zbyte_range b2). pose proof (Zbyte_range b3).
  pose proof (Zbyte_range b4). pose proof (Zbyte_range b5).
  pose proof (Zbyte_range b6). pose proof (Zbyte_range b7).
  assert (Hu : forall x k, 0 <= x < 256 -> 0 <= k <= 56 ->
                 shl64 (uint64 x) k = Z.shiftl x k).
  { intros x k Hx Hk. unfold shl64, uint64.
    rewrite (Z.mod_small x) by lia.
    rewrite Z.shiftl_mul_pow2 by lia.
    apply Z.mod_small.
    assert (2 ^ k <= 2 ^ 56) by (apply Z.pow_le_mono_r; lia).
    assert (0 < 2 ^ k) by (apply Z.pow_pos_nonneg; lia).
    change (2 ^ 64) with (256 * 2 ^ 56). nia. }
  rewrite !Hu by lia.
  rewrite (Z.shiftl_0_r (Zbyte b0)).
  rewrite (lor_shiftl_add _ (Zbyte b1) 8);
    [| lia | change (2 ^ 8) with 256; lia | lia].
  change (2 ^ 8) with 256.
  rewrite (lor_shiftl_add _ (Zbyte b2) 16);
    [| lia | change (2 ^ 16) with 65536; lia | lia].
  change (2 ^ 16) with 65536.
  rewrite (lor_shiftl_add _ (Zbyte b3) 24);
    [| lia | change (2 ^ 24) with 16777216; lia | lia].
  change (2 ^ 24) with 16777216.
  rewrite (lor_shiftl_add _ (Zbyte b4) 32);
    [| lia | change (2 ^ 32) with 4294967296; lia | lia].
  change (2 ^ 32) with 4294967296.
  rewrite (lor_shiftl_add _ (Zbyte b5) 40);
    [| lia | change (2 ^ 40) with 1099511627776; lia | lia].
  change (2 ^ 40) with 1099511627776.
  rewrite (lor_shiftl_add _ (Zbyte b6) 48);
    [| lia | change (2 ^ 48) with 281474976710656; lia | lia].
  change (2 ^ 48) with 281474976710656.
  rewrite (lor_shiftl_add _ (Zbyte b7) 56);
    [| lia | change (2 ^ 56) with 72057594037927936; lia | lia].
  change (2 ^ 56) with 72057594037927936.
  unfold int_of, intSize. f_equal. cbn [le_value]. lia.
Qed.

(** ** The primitive field reader *)

Lemma int_add_cursor (a b : Z) :
  0 <= a <= maxCursor -> 0 <= b < maxCursor -> int_add a b = a + b.
Proof.
  intros Ha Hb. apply int_add_small. unfold maxCursor in *.
  change (2 ^ 63) with 9223372036854775808. lia.
Qed.

Lemma bytes_at_length (l : list byte) (off n : nat) :
  (off + n <= length l)%nat -> length (bytes_at l off n) = n.
Proof.
  intros H. unfold bytes_at. rewrite length_take, length_drop. lia.
Qed.

Lemma readBytes_spec (n : Z) (d : decoder) :
  0 <= n <= 8 -> 0 <= d_i d <= maxCursor -> len (d_in d) <= cap (d_in d) ->
  readBytes n d
  = (Val (if i_in_range (d_i d + n) (len (d_in d))
          then bytes_at (arr (d_in d)) (Z.to_nat (d_i d)) (Z.to_nat n) else [],
          fixed_err (d_in d) (d_i d) n),
     set_i (d_i d + n) d).
Proof.
  intros Hn Hi Hcap.
  unfold readBytes, bind, gets, modify, liftRes, ret, fixed_err, i_in_range.
  cbn [d_i d_in set_i].
  rewrite (int_of_small n)
    by (change (2 ^ 63) with 9223372036854775808; lia).
  rewrite int_add_cursor by (unfold maxCursor in *; lia).
  destruct (d_i d + n >? len (d_in d)) eqn:Hgt; [reflexivity |].
  unfold subslice.
  assert (Hb : (0 <=? d_i d) && (d_i d <=? d_i d + n)
               && (d_i d + n <=? cap (d_in d)) = true).
  { rewrite Z.gtb_ltb, Z.ltb_ge in Hgt. rewrite !andb_true_iff, !Z.leb_le. lia. }
  rewrite Hb. unfold bytes_at.
  replace (d_i d + n - d_i d) with n by lia. reflexivity.
Qed.

Lemma readInt32_spec (d : decoder) :
  0 <= d_i d <= maxCursor -> len (d_in d) <= cap (d_in d) ->
  readInt32 d
  = (Val (int32_at (d_in d) (d_i d), fixed_err (d_in d) (d_i d) 4),
     set_i (d_i d + 4) d).
Proof.
  intros Hi Hcap. unfold readInt32, bind.
  rewrite readBytes_spec by (assumption || lia).
  unfold fixed_err, int32_at, i_in_range.
  destruct (d_i d + 4 >? len (d_in d)) eqn:Hgt; [reflexivity |].
  rewrite Z.gtb_ltb, Z.ltb_ge in Hgt. cbn [negb].
  assert (Hlen : length (bytes_at (arr (d_in d)) (Z.to_nat (d_i d)) 4) = 4%nat).
  { apply bytes_at_length. unfold cap in Hcap. lia. }
  change (Z.to_nat 4) with 4%nat.
  destruct (bytes_at (arr (d_in d)) (Z.to_nat (d_i d)) 4)
    as [| b0 [| b1 [| b2 [| b3 [| ? ?]]]]]; try discriminate Hlen.
  cbn [liftRes elem lookup list_lookup ret].
  rewrite int32_of_bytes. reflexivity.
Qed.

Lemma readInt64_spec (d : decoder) :
  0 <= d_i d <= maxCursor -> len (d_in d) <= cap (d_in d) ->
  readInt64 d
  = (Val (int64_at (d_in d) (d_i d), fixed_err (d_in d) (d_i d) 8),
     set_i (d_i d + 8) d).
Proof.
  intros Hi Hcap. unfold readInt64, bind.
  rewrite readBytes_spec by (assumption || lia).
  unfold fixed_err, int64_at, i_in_range.
  destruct (d_i d + 8 >? len (d_in d)) eqn:Hgt; [reflexivity |].
  rewrite Z.gtb_ltb, Z.ltb_ge in Hgt. cbn [negb].
  assert (Hlen : length (bytes_at (arr (d_in d)) (Z.to_nat (d_i d)) 8) = 8%nat).
  { apply bytes_at_length. unfold cap in Hcap. lia. }
  change (Z.to_nat 8) with 8%nat.
  destruct (bytes_at (arr (d_in d)) (Z.to_nat (d_i d)) 8)
    as [| b0 [| b1 [| b2 [| b3 [| b4 [| b5 [| b6 [| b7 [| ? ?]]]]]]]]];
    try discriminate Hlen.
  cbn [liftRes elem lookup list_lookup ret].
  rewrite int64_of_bytes. reflexivity.
Qed.

Lemma int32_at_ok (s : slice) (i : Z) :
  i + 4 <= len s ->
  int32_at s i = le_value (bytes_at (arr s) (Z.to_nat i) 4)
  /\ fixed_err s i 4 = None.
Proof.
  intros H. unfold int32_at, fixed_err.
  destruct (i + 4 >? len s) eqn:Hgt; [| split; reflexivity].
  apply Z.gtb_lt in Hgt. lia.
Qed.

Lemma int32_at_short (s : slice) (i : Z) :
  len s < i + 4 -> int32_at s i = 0 /\ fixed_err s i 4 = Some ErrNoByte.
Proof.
  intros H. unfold int32_at, fixed_err.
  destruct (i + 4 >? len s) eqn:Hgt; [split; reflexivity |].
  rewrite Z.gtb_ltb, Z.ltb_ge in Hgt. lia.
Qed.

Lemma le_value_4_range (l : list byte) (off : nat) :
  0 <= le_value (bytes_at l off 4) < 4294967296.
Proof.
  pose proof (le_value_range (bytes_at l off 4)) as H.
  assert (Hl : (length (bytes_at l off 4) <= 4)%nat).
  { unfold bytes_at. rewrite length_take. lia. }
  assert (256 ^ Z.of_nat (length (bytes_at l off 4)) <= 256 ^ 4)
    by (apply Z.pow_le_mono_r; lia).
  change 4294967296 with (256 ^ 4). lia.
Qed.

Lemma int32_at_range (s : slice) (i : Z) : 0 <= int32_at s i < 4294967296.
Proof.
  unfold int32_at. destruct (i + 4 >? len s); [lia |].
  apply le_value_4_range.
Qed.

Lemma bytes_at_app_l (l r : list byte) (off n : nat) :
  (off + n <= length l)%nat -> bytes_at (l ++ r) off n = bytes_at l off n.
Proof.
  intros H. unfold bytes_at.
  rewrite drop_app_le by lia.
  rewrite take_app_le by (rewrite length_drop; lia). reflexivity.
Qed.

Lemma bytes_at_take (l : list byte) (k off n : nat) :
  (off + n <= k)%nat -> bytes_at (take k l) off n = bytes_at l off n.
Proof.
  intros H. unfold bytes_at. rewrite !take_drop_commute, take_take.
  replace (Nat.min (off + n) k) with (off + n)%nat by lia. reflexivity.
Qed.

(** The fixed-width reads look at the bytes of the window only: two slices
    of the same length that agree below it give the same values. *)
Lemma fixed_reads_within_window (s s' : slice) (i : Z) :
  0 <= i -> len s = len s' ->
  take (Z.to_nat (len s)) (arr s) = take (Z.to_nat (len s')) (arr s') ->
  int32_at s i = int32_at s' i /\ int64_at s i = int64_at s' i.
Proof.
  intros Hi Hlen Htake. unfold int32_at, int64_at. rewrite <- Hlen in *.
  split.
  - destruct (i + 4 >? len s) eqn:Hgt; [reflexivity |].
    rewrite Z.gtb_ltb, Z.ltb_ge in Hgt.
    rewrite <- (bytes_at_take (arr s) (Z.to_nat (len s))) by lia.
    rewrite <- (bytes_at_take (arr s') (Z.to_nat (len s))) by lia.
    rewrite Htake. reflexivity.
  - destruct (i + 8 >? len s) eqn:Hgt; [reflexivity |].
    rewrite Z.gtb_ltb, Z.ltb_ge in Hgt.
    rewrite <- (bytes_at_take (arr s) (Z.to_nat (len s))) by lia.
    rewrite <- (bytes_at_take (arr s') (Z.to_nat (len s))) by lia.
    rewrite Htake. reflexivity.
Qed.

Lemma onDecoder_readInt32 (s : state) :
  0 <= d_i (dec s) <= maxCursor -> len (d_in (dec s)) <= cap (d_in (dec s)) ->
  onDecoder readInt32 s
  = (Val (int32_at (d_in (dec s)) (d_i (dec s)),
          fixed_err (d_in (dec s)) (d_i (dec s)) 4),
     {| dec := set_i (d_i (dec s) + 4) (dec s); msg := msg s |}).
Proof.
  intros Hi Hcap. unfold onDecoder. rewrite readInt32_spec by assumption.
  reflexivity.
Qed.

Lemma onDecoder_readInt64 (s : state) :
  0 <= d_i (dec s) <= maxCursor -> len (d_in (dec s)) <= cap (d_in (dec s)) ->
  onDecoder readInt64 s
  = (Val (int64_at (d_in (dec s)) (d_i (dec s)),
          fixed_err (d_in (dec s)) (d_i (dec s)) 8),
     {| dec := set_i (d_i (dec s) + 8) (dec s); msg := msg s |}).
Proof.
  intros Hi Hcap. unfold onDecoder. rewrite readInt64_spec by assumption.
  reflexivity.
Qed.

Lemma cap_slice_of (visible spare : list byte) :
  len (slice_of visible spare) <= cap (slice_of visible spare).
Proof.
  unfold cap, slice_of. cbn [arr len]. rewrite length_app. lia.
Qed.

(** ** The framer *)

Section Framer.
Context {E : Env}.

Lemma declaredLength_range (buf : list byte) : 0 <= declaredLength buf < 4294967296.
Proof. apply le_value_4_range. Qed.

(** The first read of the framer. *)
Lemma parse_length (buf spare : list byte) (m : MongodbMessage) :
  onDecoder readInt32 {| dec := newDecoder (slice_of buf spare); msg := m |}
  = (Val (if 4 >? Z.of_nat (length buf) then 0 else declaredLength buf,
          if 4 >? Z.of_nat (length buf) then Some ErrNoByte else None),
     {| dec := {| d_in := slice_of buf spare; d_i := 4 |}; msg := m |}).
Proof.
  rewrite onDecoder_readInt32;
    [| cbn; unfold maxCursor; lia | apply cap_slice_of].
  unfold int32_at, fixed_err, set_i, newDecoder.
  cbn [dec msg d_in d_i len slice_of arr].
  change (0 + 4) with 4.
  destruct (4 >? Z.of_nat (length buf)) eqn:Hgt; [reflexivity |].
  rewrite Z.gtb_ltb, Z.ltb_ge in Hgt.
  unfold declaredLength. change (Z.to_nat 0) with 0%nat.
  rewrite bytes_at_app_l by lia. reflexivity.
Qed.

(** C1. A buffer of fewer than four bytes, or one that declares a message
    longer than the bytes it holds, makes [mongodbMessageParser] return
    [(true, false)] (ok, not complete): it does not panic, does not report a
    failure, and leaves the stream, buffer and message, as it found it. *)
Theorem need_more_data (buf spare : list byte) (m : MongodbMessage) :
  Z.of_nat (length buf) < 4 \/ declaredLength buf > Z.of_nat (length buf) ->
  mongodbMessageParser {| data := slice_of buf spare; message := m |}
  = (Val (true, false), {| data := slice_of buf spare; message := m |}).
Proof.
  intros Hshort. unfold mongodbMessageParser, parse. cbn [data message].
  unfold bind at 1. rewrite parse_length.
  destruct (4 >? Z.of_nat (length buf)) eqn:Hgt; [reflexivity |].
  rewrite Z.gtb_ltb, Z.ltb_ge in Hgt.
  destruct Hshort as [Hlt | Hdecl]; [lia |].
  cbn [len slice_of].
  destruct (declaredLength buf >? Z.of_nat (length buf)) eqn:Hd; [reflexivity |].
  rewrite Z.gtb_ltb, Z.ltb_ge in Hd. lia.
Qed.

(** A buffer that holds the message it declares: the framer stores the three
    header fields it reads in the window and hands over to the dispatcher, or
    stops at an opcode that is not in the table. *)
Lemma parse_framed (buf spare : list byte) (m : MongodbMessage) :
  4 <= Z.of_nat (length buf) -> declaredLength buf <= Z.of_nat (length buf) ->
  let v := view buf spare (declaredLength buf) in
  let d := {| d_in := v; d_i := 16 |} in
  parse (slice_of buf spare) {| dec := newDecoder (slice_of buf spare); msg := m |}
  = match OpCodes (int32_at v 12) with
    | None => (Val (false, false), {| dec := d; msg := with_header buf spare m |})
    | Some name =>
        dispatch {| dec := d; msg := with_opCode name (with_header buf spare m) |}
    end.
Proof.
  intros H4 HL v d. pose proof (declaredLength_range buf) as Hr.
  unfold parse. unfold bind at 1. rewrite parse_length.
  destruct (4 >? Z.of_nat (length buf)) eqn:Hgt;
    [apply Z.gtb_lt in Hgt; lia |].
  cbn [len slice_of].
  destruct (declaredLength buf >? Z.of_nat (length buf)) eqn:Hd;
    [apply Z.gtb_lt in Hd; lia |].
  assert (Hcap : (0 <=? declaredLength buf)
                 && (declaredLength buf <=? cap (slice_of buf spare)) = true).
  { rewrite andb_true_iff, !Z.leb_le. unfold cap, slice_of. cbn [arr].
    rewrite length_app. lia. }
  assert (Hv : len v <= cap v).
  { unfold v, view, cap. cbn [arr len]. rewrite length_app. lia. }
  unfold bind at 1, onDecoder at 1, truncate, reslice_to. exec.
  rewrite Hcap. exec.
  change {| arr := arr (slice_of buf spare); len := declaredLength buf |} with v.
  unfold bind at 1.
  rewrite onDecoder_readInt32 by (cbn; unfold maxCursor; first [lia | exact Hv]).
  exec. unfold bind at 1.
  rewrite onDecoder_readInt32 by (cbn; unfold maxCursor; first [lia | exact Hv]).
  exec. unfold bind at 1.
  rewrite onDecoder_readInt32 by (cbn; unfold maxCursor; first [lia | exact Hv]).
  exec. change (4 + 4) with 8. change (8 + 4) with 12. change (12 + 4) with 16.
  unfold with_header. fold v.
  destruct (OpCodes (int32_at v 12)) as [name |]; [| reflexivity].
  exec. reflexivity.
Qed.

End Framer.

Section HeaderClaims.
Context {E : Env}.

(** A header field that lies inside the window is read from the buffer. *)
Lemma int32_at_view (buf spare : list byte) (L k : Z) :
  0 <= k -> k + 4 <= L -> L <= Z.of_nat (length buf) ->
  int32_at (view buf spare L) k = le_value (bytes_at buf (Z.to_nat k) 4).
Proof.
  intros Hk HkL HL.
  destruct (int32_at_ok (view buf spare L) k) as [-> _]; [cbn; lia |].
  cbn [view arr]. apply f_equal, bytes_at_app_l. lia.
Qed.

Lemma mongodbMessageParser_parse (s : MongodbStream) :
  mongodbMessageParser s
  = (fst (parse (data s) {| dec := newDecoder (data s); msg := message s |}),
     {| data := data s;
        message := msg (snd (parse (data s)
                           {| dec := newDecoder (data s); msg := message s |})) |}).
Proof.
  unfold mongodbMessageParser.
  destruct (parse (data s) _) as [r st]. reflexivity.
Qed.

(** C7. A buffer that holds a complete message whose opcode is not in the
    table: [mongodbMessageParser] returns [(false, false)], having stored the
    three header fields it read and nothing else; the event, the method, the
    error and the flags of the message are the ones it was given. *)
Theorem unknown_opcode (buf spare : list byte) (m : MongodbMessage) :
  16 <= declaredLength buf <= Z.of_nat (length buf) ->
  OpCodes (le_value (bytes_at buf 12 4)) = None ->
  mongodbMessageParser {| data := slice_of buf spare; message := m |}
  = (Val (false, false),
     {| data := slice_of buf spare;
        message := set_responseTo (le_value (bytes_at buf 8 4))
                     (set_requestId (le_value (bytes_at buf 4 4))
                        (set_messageLength (declaredLength buf) m)) |})
  /\ forall m', snd (mongodbMessageParser {| data := slice_of buf spare; message := m |})
                = {| data := slice_of buf spare; message := m' |} ->
       event m' = event m /\ method m' = method m /\ error m' = error m
       /\ opCode m' = opCode m /\ IsResponse m' = IsResponse m
       /\ ExpectsResponse m' = ExpectsResponse m.
Proof.
  intros HL Hop.
  assert (Heq : mongodbMessageParser {| data := slice_of buf spare; message := m |}
    = (Val (false, false),
     {| data := slice_of buf spare;
        message := set_responseTo (le_value (bytes_at buf 8 4))
                     (set_requestId (le_value (bytes_at buf 4 4))
                        (set_messageLength (declaredLength buf) m)) |})).
  { rewrite mongodbMessageParser_parse. cbn [data message].
    rewrite parse_framed by lia. cbv zeta.
    rewrite (int32_at_view buf spare _ 12) by lia.
    change (Z.to_nat 12) with 12%nat. rewrite Hop. cbn [fst snd msg].
    unfold with_header.
    rewrite (int32_at_view buf spare _ 8), (int32_at_view buf spare _ 4) by lia.
    reflexivity. }
  split; [exact Heq |].
  intros m' Hm'. rewrite Heq in Hm'. cbn [snd] in Hm'.
  injection Hm' as <-. repeat split.
Qed.

(** C10. A buffer whose declared message length is at least 4, at most the
    bytes it holds, and less than 16: the framer checks none of the errors of
    its header reads.  The reads that run past the window give 0 (the opcode
    always does), 0 is not in the table, and the parser returns
    [(false, false)]; [requestId] and [responseTo] are stored, with the value
    0 where the window was too short; the decoder is left with its cursor at
    16, past the end of the window. *)
Theorem short_header (buf spare : list byte) (m : MongodbMessage) :
  4 <= declaredLength buf <= Z.of_nat (length buf) ->
  declaredLength buf < 16 ->
  let L := declaredLength buf in
  let v := view buf spare L in
  let m' := set_responseTo (if 12 <=? L then le_value (bytes_at buf 8 4) else 0)
              (set_requestId (if 8 <=? L then le_value (bytes_at buf 4 4) else 0)
                 (set_messageLength L m)) in
  parse (slice_of buf spare) {| dec := newDecoder (slice_of buf spare); msg := m |}
  = (Val (false, false), {| dec := {| d_in := v; d_i := 16 |}; msg := m' |})
  /\ mongodbMessageParser {| data := slice_of buf spare; message := m |}
     = (Val (false, false), {| data := slice_of buf spare; message := m' |})
  /\ readInt32 {| d_in := v; d_i := 12 |}
     = (Val (0, Some ErrNoByte), {| d_in := v; d_i := 16 |})
  /\ OpCodes 0 = None
  /\ len v < 16.
Proof.
  intros HL H16 L v m'.
  assert (Hv : len v <= cap v).
  { unfold v, view, cap. cbn [arr len]. rewrite length_app. lia. }
  assert (Hparse : parse (slice_of buf spare)
                     {| dec := newDecoder (slice_of buf spare); msg := m |}
                   = (Val (false, false), {| dec := {| d_in := v; d_i := 16 |}; msg := m' |})).
  { rewrite parse_framed by lia. cbv zeta. fold L. fold v.
    destruct (int32_at_short v 12) as [-> _]; [cbn; lia |].
    change (OpCodes 0) with (@None string). cbv iota.
    unfold with_header, m'. fold L. fold v.
    do 3 f_equal.
    - destruct (12 <=? L) eqn:H12.
      + apply Z.leb_le in H12. apply int32_at_view; lia.
      + apply Z.leb_gt in H12. apply (int32_at_short v 8). cbn. lia.
    - f_equal. destruct (8 <=? L) eqn:H8.
      + apply Z.leb_le in H8. apply int32_at_view; lia.
      + apply Z.leb_gt in H8. apply (int32_at_short v 4). cbn. lia. }
  split; [exact Hparse |].
  split.
  { rewrite mongodbMessageParser_parse. cbn [data message].
    rewrite Hparse. reflexivity. }
  split.
  { rewrite readInt32_spec by (cbn; unfold maxCursor; first [lia | exact Hv]).
    cbn [d_in d_i]. destruct (int32_at_short v 12) as [-> ->]; [cbn; lia |].
    reflexivity. }
  split; [reflexivity | cbn; lia].
Qed.

End HeaderClaims.

(** ** The integers of the header *)

(** [readInt32] gives the unsigned value of four bytes: never a negative
    number. *)
Lemma readInt32_unsigned (b0 b1 b2 b3 : byte) :
  readInt32 (four_bytes b0 b1 b2 b3)
  = (Val (le_value [b0; b1; b2; b3], None),
     {| d_in := slice_of [b0; b1; b2; b3] []; d_i := 4 |})
  /\ 0 <= le_value [b0; b1; b2; b3] < 2 ^ 32.
Proof.
  split.
  - rewrite readInt32_spec;
      [| cbn; unfold maxCursor; lia | apply cap_slice_of].
    reflexivity.
  - pose proof (le_value_4_range [b0; b1; b2; b3] 0) as H.
    change (2 ^ 32) with 4294967296. exact H.
Qed.

(** With an [int] of 32 bits the same conversion would give the signed
    value. *)
Lemma int32_conversion_on_32_bits (b0 b1 b2 b3 : byte) :
  signed 32 (Z.lor (Z.lor (Z.lor
     (shl32 (uint32 (Zbyte b0)) 0)
     (shl32 (uint32 (Zbyte b1)) 8))
     (shl32 (uint32 (Zbyte b2)) 16))
     (shl32 (uint32 (Zbyte b3)) 24))
  = signed 32 (le_value [b0; b1; b2; b3]).
Proof. rewrite lor32_of_bytes. reflexivity. Qed.

(** C9. The four bytes ff ff ff ff, which are -1 as a little-endian signed
    32-bit integer, are decoded by [readInt32] as 4294967295. *)
Theorem readInt32_of_minus_one :
  readInt32 (four_bytes xff xff xff xff)
  = (Val (4294967295, None), {| d_in := slice_of [xff; xff; xff; xff] []; d_i := 4 |})
  /\ signed 32 (le_value [xff; xff; xff; xff]) = -1.
Proof. split; vm_compute; reflexivity. Qed.

(** ** What the extractors leave alone *)

Section Keeps.
Context {E : Env}.
Variable P : MongodbMessage -> Prop.

Lemma keeps_ret {A} (a : A) : keeps P (ret a).
Proof. intros s H. exact H. Qed.

Lemma keeps_bind {A B} (c : M state A) (k : A -> M state B) :
  keeps P c -> (forall a, keeps P (k a)) -> keeps P (bind c k).
Proof.
  intros Hc Hk s H. unfold bind. specialize (Hc s H).
  destruct (c s) as [[a |] s']; cbn [snd] in *.
  - apply Hk, Hc.
  - exact Hc.
Qed.

Lemma keeps_onDecoder {A} (c : M decoder A) : keeps P (onDecoder c).
Proof.
  intros s H. unfold onDecoder. destruct (c (dec s)) as [r d']. exact H.
Qed.

Lemma keeps_setMsg (f : MongodbMessage -> MongodbMessage) :
  (forall m, P m -> P (f m)) -> keeps P (setMsg f).
Proof. intros Hf s H. cbn. apply Hf, H. Qed.

Lemma keeps_liftRes {A} (r : res A) : keeps P (liftRes r).
Proof. intros s H. exact H. Qed.

Lemma keeps_gets {A} (f : state -> A) : keeps P (gets f).
Proof. intros s H. exact H. Qed.

Lemma keeps_finish (err : error_value) : keeps P (finish err).
Proof. intros s H. destruct err; exact H. Qed.

End Keeps.

(** One step through a computation, for a property that the writes of the
    step plainly keep. *)
Ltac keeps_step :=
  lazymatch goal with
  | |- keeps _ (bind _ _) => apply keeps_bind; [| intros ?]
  | |- keeps _ (onDecoder _) => apply keeps_onDecoder
  | |- keeps _ (setMsg _) => apply keeps_setMsg; intros ? ?; assumption
  | |- keeps _ (ret _) => apply keeps_ret
  | |- keeps _ (liftRes _) => apply keeps_liftRes
  | |- keeps _ (gets _) => apply keeps_gets
  | |- keeps _ (finish _) => apply keeps_finish
  | |- keeps _ (match ?x with _ => _ end) => destruct x
  end.

Section Dispatcher.
Context {E : Env}.

Lemma replyLoop_keeps (P : MongodbMessage -> Prop) :
  (forall x m, P m -> P (set_error x m)) ->
  forall turns i documents err, keeps P (replyLoop turns i documents err).
Proof.
  intros HP turns. induction turns as [| turns IH]; intros i documents err.
  - apply keeps_ret.
  - cbn [replyLoop]. repeat keeps_step; try apply IH.
    apply keeps_setMsg. intros m Hm. apply HP, Hm.
Qed.

Lemma opReplyParse_keeps (P : MongodbMessage -> Prop) :
  (forall x m, P m -> P (set_error x m)) ->
  (forall k v m, P m -> P (put_event k v m)) ->
  keeps P opReplyParse.
Proof.
  intros HP HQ. unfold opReplyParse.
  repeat first [apply replyLoop_keeps; assumption
               | apply keeps_setMsg; intros ? ?; apply HQ; assumption
               | keeps_step].
Qed.

Lemma rangeCommands_keeps (P : MongodbMessage -> Prop) :
  (forall x m, P m -> P (set_method x m)) ->
  forall commands query, keeps P (rangeCommands commands query).
Proof.
  intros HP commands query. induction commands as [| c rest IH].
  - apply keeps_ret.
  - cbn [rangeCommands]. apply keeps_bind; [| intros _; exact IH].
    destruct (mapIndex query c); [| apply keeps_ret].
    apply keeps_setMsg. intros m Hm. apply HP, Hm.
Qed.

(** The extractors other than [opQueryParse] write the event, and
    [opReplyParse] the error, and nothing else. *)
Lemma extractors_keep (P : MongodbMessage -> Prop) :
  (forall x m, P m -> P (set_error x m)) ->
  (forall k v m, P m -> P (put_event k v m)) ->
  keeps P opReplyParse /\ keeps P opMsgParse /\ keeps P opUpdateParse
  /\ keeps P opInsertParse /\ keeps P opGetMoreParse /\ keeps P opDeleteParse
  /\ keeps P opKillCursorsParse.
Proof.
  intros HP HQ.
  split; [apply opReplyParse_keeps; assumption |].
  repeat split;
    unfold opMsgParse, opUpdateParse, opInsertParse, opGetMoreParse,
           opDeleteParse, opKillCursorsParse;
    repeat first [apply keeps_setMsg; intros ? ?; apply HQ; assumption
                 | keeps_step].
Qed.

Lemma opQueryParse_keeps (P : MongodbMessage -> Prop) :
  (forall x m, P m -> P (set_method x m)) ->
  (forall k v m, P m -> P (put_event k v m)) ->
  keeps P opQueryParse.
Proof.
  intros HP HQ. unfold opQueryParse.
  repeat first [apply rangeCommands_keeps; assumption
               | apply keeps_setMsg; intros ? ?;
                 first [apply HQ | apply HP]; assumption
               | keeps_step].
Qed.

Lemma flags_kept (r e : bool) :
  (forall x m, flags_are r e m -> flags_are r e (set_error x m))
  /\ (forall x m, flags_are r e m -> flags_are r e (set_method x m))
  /\ (forall k v m, flags_are r e m -> flags_are r e (put_event k v m)).
Proof. split; [| split]; intros; assumption. Qed.

Lemma method_kept (x : string) :
  (forall y m, method_is x m -> method_is x (set_error y m))
  /\ (forall k v m, method_is x m -> method_is x (put_event k v m)).
Proof. split; intros; assumption. Qed.

Lemma opCode_kept (x : string) :
  (forall y m, opCode m = x -> opCode (set_error y m) = x)
  /\ (forall y m, opCode m = x -> opCode (set_method y m) = x)
  /\ (forall k v m, opCode m = x -> opCode (put_event k v m) = x).
Proof. split; [| split]; intros; assumption. Qed.

(** The names of the table. *)
Lemma OpCodes_names (code : Z) (name : string) :
  OpCodes code = Some name ->
  name = "OP_REPLY" \/ name = "OP_MSG" \/ name = "OP_UPDATE"
  \/ name = "OP_INSERT" \/ name = "OP_QUERY" \/ name = "OP_GET_MORE"
  \/ name = "OP_DELETE" \/ name = "OP_KILL_CURSORS".
Proof.
  unfold OpCodes. intros H.
  repeat match type of H with
         | (if ?c then _ else _) = _ => destruct c
         end;
    try discriminate H; injection H as <-; tauto.
Qed.

(** The message the dispatcher leaves, for each name of the table. *)
Lemma dispatch_flags (name : string) (d : decoder) (m : MongodbMessage) :
  name = "OP_REPLY" \/ name = "OP_MSG" \/ name = "OP_UPDATE"
  \/ name = "OP_INSERT" \/ name = "OP_QUERY" \/ name = "OP_GET_MORE"
  \/ name = "OP_DELETE" \/ name = "OP_KILL_CURSORS" ->
  let m' := msg (snd (dispatch {| dec := d; msg := with_opCode name m |})) in
  opCode m' = name
  /\ IsResponse m' = String.eqb name "OP_REPLY"
  /\ ExpectsResponse m' = (String.eqb name "OP_QUERY" || String.eqb name "OP_GET_MORE")
  /\ (name = "OP_REPLY" -> method m' = method m)
  /\ (name = "OP_MSG" -> method m' = "msg")
  /\ (name = "OP_UPDATE" -> method m' = "update")
  /\ (name = "OP_INSERT" -> method m' = "insert")
  /\ (name = "OP_GET_MORE" -> method m' = "getMore")
  /\ (name = "OP_DELETE" -> method m' = "delete")
  /\ (name = "OP_KILL_CURSORS" -> method m' = "killCursors").
Proof.
  intros Hname.
  destruct (flags_kept true false) as (Ft1 & Ft2 & Ft3).
  destruct (flags_kept false false) as (Ff1 & Ff2 & Ff3).
  destruct (flags_kept false true) as (Fe1 & Fe2 & Fe3).
  pose proof (fun r e => extractors_keep (flags_are r e)
                (proj1 (flags_kept r e)) (proj2 (proj2 (flags_kept r e)))) as KF.
  pose proof (fun x => extractors_keep (method_is x)
                (proj1 (method_kept x)) (proj2 (method_kept x))) as KM.
  pose proof (fun x => extractors_keep (fun m => opCode m = x)
                (proj1 (opCode_kept x)) (proj2 (proj2 (opCode_kept x)))) as KO.
  pose proof (fun x => opQueryParse_keeps (fun m => opCode m = x)
                (proj1 (proj2 (opCode_kept x))) (proj2 (proj2 (opCode_kept x)))) as KOQ.
  pose proof (fun r e => opQueryParse_keeps (flags_are r e)
                (proj1 (proj2 (flags_kept r e))) (proj2 (proj2 (flags_kept r e)))) as KFQ.
  unfold keeps in KF, KM, KO, KOQ, KFQ.
  destruct Hname as [-> | [-> | [-> | [-> | [-> | [-> | [-> | ->]]]]]]];
    intros m'; subst m'; unfold dispatch; exec;
    cbn [with_opCode opCode set_event set_ExpectsResponse set_IsResponse set_opCode
         String.eqb Ascii.eqb Bool.eqb andb orb];
    exec.
  - (* OP_REPLY *)
    set (s := {| dec := d; msg := _ |}).
    destruct (KF true false) as (K & _). specialize (K s).
    destruct (KM (method m)) as (K' & _). specialize (K' s).
    destruct (KO "OP_REPLY") as (K'' & _). specialize (K'' s).
    destruct K as [-> ->]; [split; reflexivity |].
    rewrite K' by reflexivity. rewrite K'' by reflexivity.
    repeat split; intros; try discriminate; reflexivity.
  - (* OP_MSG *)
    set (s := {| dec := d; msg := _ |}).
    destruct (KF false false) as (_ & K & _). specialize (K s).
    destruct (KM "msg") as (_ & K' & _). specialize (K' s).
    destruct (KO "OP_MSG") as (_ & K'' & _). specialize (K'' s).
    destruct K as [-> ->]; [split; reflexivity |].
    rewrite K' by reflexivity. rewrite K'' by reflexivity.
    repeat split; intros; try discriminate; reflexivity.
  - (* OP_UPDATE *)
    set (s := {| dec := d; msg := _ |}).
    destruct (KF false false) as (_ & _ & K & _). specialize (K s).
    destruct (KM "update") as (_ & _ & K' & _). specialize (K' s).
    destruct (KO "OP_UPDATE") as (_ & _ & K'' & _). specialize (K'' s).
    destruct K as [-> ->]; [split; reflexivity |].
    rewrite K' by reflexivity. rewrite K'' by reflexivity.
    repeat split; intros; try discriminate; reflexivity.
  - (* OP_INSERT *)
    set (s := {| dec := d; msg := _ |}).
    destruct (KF false false) as (_ & _ & _ & K & _). specialize (K s).
    destruct (KM "insert") as (_ & _ & _ & K' & _). specialize (K' s).
    destruct (KO "OP_INSERT") as (_ & _ & _ & K'' & _). specialize (K'' s).
    destruct K as [-> ->]; [split; reflexivity |].
    rewrite K' by reflexivity. rewrite K'' by reflexivity.
    repeat split; intros; try discriminate; reflexivity.
  - (* OP_QUERY *)
    set (s := {| dec := d; msg := _ |}).
    specialize (KFQ false true s). specialize (KOQ "OP_QUERY" s).
    destruct KFQ as [-> ->]; [split; reflexivity |].
    rewrite KOQ by reflexivity.
    repeat split; intros; try discriminate; reflexivity.
  - (* OP_GET_MORE *)
    set (s := {| dec := d; msg := _ |}).
    destruct (KF false true) as (_ & _ & _ & _ & K & _). specialize (K s).
    destruct (KM "getMore") as (_ & _ & _ & _ & K' & _). specialize (K' s).
    destruct (KO "OP_GET_MORE") as (_ & _ & _ & _ & K'' & _). specialize (K'' s).
    destruct K as [-> ->]; [split; reflexivity |].
    rewrite K' by reflexivity. rewrite K'' by reflexivity.
    repeat split; intros; try discriminate; reflexivity.
  - (* OP_DELETE *)
    set (s := {| dec := d; msg := _ |}).
    destruct (KF false false) as (_ & _ & _ & _ & _ & K & _). specialize (K s).
    destruct (KM "delete") as (_ & _ & _ & _ & _ & K' & _). specialize (K' s).
    destruct (KO "OP_DELETE") as (_ & _ & _ & _ & _ & K'' & _). specialize (K'' s).
    destruct K as [-> ->]; [split; reflexivity |].
    rewrite K' by reflexivity. rewrite K'' by reflexivity.
    repeat split; intros; try discriminate; reflexivity.
  - (* OP_KILL_CURSORS *)
    unfold opKillCursorsParse. exec.
    repeat split; intros; try discriminate; reflexivity.
Qed.

End Dispatcher.

Section DispatcherClaim.
Context {E : Env}.

(** C8. A buffer that holds a complete message whose opcode is in the table,
    under the name [name]: whether the extractor returns or panics, the
    message is left with [IsResponse] true exactly for OP_REPLY,
    [ExpectsResponse] true exactly for OP_QUERY and OP_GET_MORE, and the
    method the dispatcher wrote: msg, update, insert, getMore, delete
    (killCursors for OP_KILL_CURSORS; for OP_REPLY the method it had). *)
Theorem dispatcher_flags_and_method (buf spare : list byte) (m : MongodbMessage)
    (name : string) :
  16 <= declaredLength buf <= Z.of_nat (length buf) ->
  OpCodes (le_value (bytes_at buf 12 4)) = Some name ->
  let m' := message (snd (mongodbMessageParser
                            {| data := slice_of buf spare; message := m |})) in
  opCode m' = name
  /\ IsResponse m' = String.eqb name "OP_REPLY"
  /\ ExpectsResponse m' = (String.eqb name "OP_QUERY" || String.eqb name "OP_GET_MORE")
  /\ (name = "OP_REPLY" -> method m' = method m)
  /\ (name = "OP_MSG" -> method m' = "msg")
  /\ (name = "OP_UPDATE" -> method m' = "update")
  /\ (name = "OP_INSERT" -> method m' = "insert")
  /\ (name = "OP_GET_MORE" -> method m' = "getMore")
  /\ (name = "OP_DELETE" -> method m' = "delete")
  /\ (name = "OP_KILL_CURSORS" -> method m' = "killCursors").
Proof.
  intros HL Hop m'. subst m'.
  rewrite mongodbMessageParser_parse. cbn [data message snd].
  rewrite parse_framed by lia. cbv zeta.
  rewrite (int32_at_view buf spare _ 12) by lia.
  change (Z.to_nat 12) with 12%nat. rewrite Hop.
  apply (dispatch_flags name _ (with_header buf spare m)).
  exact (OpCodes_names _ _ Hop).
Qed.

End DispatcherClaim.

(** ** Embedded documents *)

Section Documents.
Context {E : Env}.

Lemma readDocument_spec (d : decoder) :
  0 <= d_i d <= maxCursor -> len (d_in d) <= cap (d_in d) ->
  readDocument d
  = (if d_i d + int32_at (d_in d) (d_i d) <=? cap (d_in d)
     then Val (decoded (designated d)) else Panicked,
     set_i (d_i d + int32_at (d_in d) (d_i d)) d).
Proof.
  intros Hi Hcap. pose proof (int32_at_range (d_in d) (d_i d)) as Hr.
  unfold readDocument. unfold bind at 1. exec. unfold bind at 1.
  rewrite readInt32_spec by assumption. exec.
  rewrite int_add_cursor by (unfold maxCursor in *; lia).
  unfold subslice.
  replace (0 <=? d_i d) with true by (symmetry; apply Z.leb_le; lia).
  replace (d_i d <=? d_i d + int32_at (d_in d) (d_i d)) with true
    by (symmetry; apply Z.leb_le; lia).
  cbn [andb].
  destruct (d_i d + int32_at (d_in d) (d_i d) <=? cap (d_in d)); [| reflexivity].
  unfold decoded, designated, bytes_at.
  replace (d_i d + int32_at (d_in d) (d_i d) - d_i d)
    with (int32_at (d_in d) (d_i d)) by lia.
  destruct (bsonUnmarshal _); reflexivity.
Qed.

(** X26. [readDocument] leaves the cursor at its starting position plus the
    declared length (the value of the four bytes at the cursor; 0 when fewer
    than four are left), whatever the document decoder does with the bytes
    and whether the call returns or not.  It returns whenever the declared
    bytes lie within the capacity of the buffer, and then with an error
    exactly when the document decoder rejects them; when they run beyond
    the capacity the slice expression panics. *)
Theorem readDocument_cursor_and_error (d : decoder) :
  0 <= d_i d <= maxCursor -> len (d_in d) <= cap (d_in d) ->
  let declared := int32_at (d_in d) (d_i d) in
  d_i (snd (readDocument d)) = d_i d + declared
  /\ d_in (snd (readDocument d)) = d_in d
  /\ (d_i d + 4 <= len (d_in d) ->
      declared = le_value (bytes_at (arr (d_in d)) (Z.to_nat (d_i d)) 4))
  /\ (d_i d + declared <= cap (d_in d) ->
      exists documentMap err,
        fst (readDocument d) = Val (documentMap, err)
        /\ documentMap = bsonUnmarshal (designated d)
        /\ (err <> None <-> bsonUnmarshal (designated d) = None))
  /\ (cap (d_in d) < d_i d + declared -> fst (readDocument d) = Panicked).
Proof.
  intros Hi Hcap declared. rewrite readDocument_spec by assumption.
  cbn [fst snd d_i d_in set_i]. fold declared.
  split; [reflexivity |]. split; [reflexivity |].
  split; [intros H4; apply int32_at_ok, H4 |].
  split.
  - intros Hin. apply Z.leb_le in Hin. rewrite Hin.
    unfold decoded. destruct (bsonUnmarshal (designated d)) as [dm |].
    + exists (Some dm), None. repeat split; congruence.
    + exists None, (Some ErrUnmarshal). repeat split; congruence.
  - intros Hout. apply Z.leb_gt in Hout. rewrite Hout. reflexivity.
Qed.

End Documents.

(** ** Fields at their place in the window *)

Lemma bytes_at_middle (pre f rest : list byte) :
  bytes_at (pre ++ f ++ rest) (length pre) (length f) = f.
Proof.
  unfold bytes_at. rewrite drop_app_length. apply take_app_length.
Qed.

Section Fields.
Context {E : Env}.
Variable v : slice.
Hypothesis v_cap : len v <= cap v.
Hypothesis v_max : len v <= maxCursor.

Lemma readInt32_at (pre f rest : list byte) (m : MongodbMessage) :
  arr v = pre ++ f ++ rest -> length f = 4%nat ->
  Z.of_nat (length (pre ++ f)) <= len v ->
  onDecoder readInt32 (at_ v pre m) = (Val (le_value f, None), at_ v (pre ++ f) m).
Proof.
  intros Harr Hf Hlen. rewrite length_app in Hlen. unfold at_.
  rewrite onDecoder_readInt32 by (cbn [dec d_in d_i]; first [lia | assumption]).
  cbn [dec d_in d_i msg set_i].
  destruct (int32_at_ok v (Z.of_nat (length pre))) as [-> ->]; [lia |].
  rewrite Nat2Z.id, Harr. rewrite <- Hf at 1. rewrite bytes_at_middle.
  rewrite length_app, Nat2Z.inj_add, Hf. reflexivity.
Qed.

Lemma readInt64_at (pre f rest : list byte) (m : MongodbMessage) :
  arr v = pre ++ f ++ rest -> length f = 8%nat ->
  Z.of_nat (length (pre ++ f)) <= len v ->
  onDecoder readInt64 (at_ v pre m)
  = (Val (signed 64 (le_value f), None), at_ v (pre ++ f) m).
Proof.
  intros Harr Hf Hlen. rewrite length_app in Hlen. unfold at_.
  rewrite onDecoder_readInt64 by (cbn [dec d_in d_i]; first [lia | assumption]).
  cbn [dec d_in d_i msg set_i]. unfold int64_at, fixed_err.
  destruct (Z.of_nat (length pre) + 8 >? len v) eqn:Hgt;
    [apply Z.gtb_lt in Hgt; lia |].
  rewrite Nat2Z.id, Harr. rewrite <- Hf at 1. rewrite bytes_at_middle.
  rewrite length_app, Nat2Z.inj_add, Hf. reflexivity.
Qed.

Lemma scanCStr_at (name : list byte) :
  forall (fuel : nat) (pre rest : list byte),
    arr v = pre ++ name ++ x00 :: rest -> ~ In x00 name ->
    Z.of_nat (length (pre ++ name)) < len v -> (length name <= fuel)%nat ->
    scanCStr fuel v (len v) (Z.of_nat (length pre))
    = Val (Z.of_nat (length (pre ++ name))).
Proof.
  induction name as [| c name IH]; intros fuel pre rest Harr Hnul Hlen Hfuel.
  - rewrite app_nil_r in *. cbn [app] in Harr.
    destruct fuel; cbn [scanCStr];
      (destruct (Z.of_nat (length pre) =? len v) eqn:He;
       [apply Z.eqb_eq in He; lia |]);
      unfold index;
      (replace ((0 <=? Z.of_nat (length pre)) && (Z.of_nat (length pre) <? len v))
         with true by (symmetry; rewrite andb_true_iff, Z.leb_le, Z.ltb_lt; lia));
      rewrite Nat2Z.id, Harr, list_lookup_middle by reflexivity;
      reflexivity.
  - rewrite length_app in Hlen. cbn [length] in Hlen, Hfuel.
    destruct fuel as [| fuel]; [lia |]. cbn [scanCStr].
    destruct (Z.of_nat (length pre) =? len v) eqn:He;
      [apply Z.eqb_eq in He; lia |].
    unfold index.
    replace ((0 <=? Z.of_nat (length pre)) && (Z.of_nat (length pre) <? len v))
      with true by (symmetry; rewrite andb_true_iff, Z.leb_le, Z.ltb_lt; lia).
    cbn [app] in Harr.
    rewrite Nat2Z.id, Harr, list_lookup_middle by reflexivity.
    destruct (Byte.eqb c x00) eqn:Hc.
    { apply Byte.byte_dec_bl in Hc. subst c. exfalso. apply Hnul. left.
      reflexivity. }
    rewrite int_add_cursor by (unfold maxCursor in *; lia).
    replace (Z.of_nat (length pre) + 1) with (Z.of_nat (length (pre ++ [c])))
      by (rewrite length_app; cbn [length]; lia).
    rewrite (IH fuel (pre ++ [c]) rest).
    + rewrite <- app_assoc. reflexivity.
    + rewrite Harr, <- app_assoc. reflexivity.
    + intros Hin. apply Hnul. right. exact Hin.
    + rewrite !length_app. cbn [length]. lia.
    + lia.
Qed.

Lemma readCStr_at (pre name rest : list byte) (m : MongodbMessage) :
  arr v = pre ++ (name ++ [x00]) ++ rest -> ~ In x00 name ->
  Z.of_nat (length (pre ++ name ++ [x00])) <= len v ->
  onDecoder readCStr (at_ v pre m)
  = (Val (string_of_list_byte name, None), at_ v (pre ++ name ++ [x00]) m).
Proof.
  intros Harr Hnul Hlen.
  rewrite <- app_assoc in Harr. cbn [app] in Harr.
  rewrite !length_app in Hlen. cbn [length] in Hlen.
  unfold at_, onDecoder, readCStr. cbn [dec]. exec.
  rewrite (scanCStr_at name _ pre rest Harr Hnul)
    by (rewrite ?length_app; lia).
  exec. rewrite length_app.
  rewrite int_add_cursor by (unfold maxCursor in *; lia).
  destruct (Z.of_nat (length pre + length name) + 1 >? len v) eqn:Hgt;
    [apply Z.gtb_lt in Hgt; lia |].
  unfold subslice.
  replace ((0 <=? Z.of_nat (length pre))
           && (Z.of_nat (length pre) <=? Z.of_nat (length pre + length name))
           && (Z.of_nat (length pre + length name) <=? cap v))
    with true
    by (symmetry; rewrite !andb_true_iff, !Z.leb_le; lia).
  exec.
  replace (Z.to_nat (Z.of_nat (length pre + length name) - Z.of_nat (length pre)))
    with (length name) by lia.
  rewrite Nat2Z.id, Harr.
  fold (bytes_at (pre ++ name ++ x00 :: rest) (length pre) (length name)).
  rewrite bytes_at_middle.
  rewrite !length_app. cbn [length].
  replace (Z.of_nat (length pre + length name) + 1)
    with (Z.of_nat (length pre + (length name + 1))) by lia.
  reflexivity.
Qed.

Lemma readDocument_at (pre doc rest : list byte) (m : MongodbMessage) :
  arr v = pre ++ doc ++ rest -> framed_document doc ->
  Z.of_nat (length (pre ++ doc)) <= len v ->
  onDecoder readDocument (at_ v pre m)
  = (Val (decoded doc), at_ v (pre ++ doc) m).
Proof.
  intros Harr [H4 Hdecl] Hlen. rewrite length_app in Hlen.
  unfold at_, onDecoder. cbn [dec msg].
  rewrite readDocument_spec by (cbn [d_in d_i]; first [lia | assumption]).
  unfold designated. cbn [d_in d_i set_i].
  destruct (int32_at_ok v (Z.of_nat (length pre))) as [-> _]; [lia |].
  rewrite Nat2Z.id, Harr.
  assert (H32 : bytes_at (pre ++ doc ++ rest) (length pre) 4 = bytes_at doc 0 4).
  { unfold bytes_at. rewrite drop_app_length, drop_0.
    apply take_app_le. lia. }
  rewrite H32, Hdecl, Nat2Z.id, bytes_at_middle.
  replace (Z.of_nat (length pre) + Z.of_nat (length doc) <=? cap v) with true
    by (symmetry; apply Z.leb_le; lia).
  rewrite length_app, Nat2Z.inj_add. reflexivity.
Qed.

Lemma readDocumentStr_at (pre doc rest : list byte) (m : MongodbMessage) :
  arr v = pre ++ doc ++ rest -> framed_document doc ->
  Z.of_nat (length (pre ++ doc)) <= len v ->
  onDecoder readDocumentStr (at_ v pre m)
  = (Val (doc2str (OfMap (fst (decoded doc)))), at_ v (pre ++ doc) m).
Proof.
  intros Harr Hdoc Hlen.
  pose proof (readDocument_at pre doc rest m Harr Hdoc Hlen) as H.
  unfold onDecoder, at_ in *. cbn [dec msg] in *.
  unfold readDocumentStr, bind.
  destruct (readDocument _) as [r d']. injection H as -> ->.
  destruct (decoded doc) as [dm e]. reflexivity.
Qed.

End Fields.

(** ** OP_REPLY *)

Section Reply.
Context {E : Env}.

Lemma setMsg_at (f : MongodbMessage -> MongodbMessage) (v : slice)
    (pre : list byte) (m : MongodbMessage) :
  setMsg f (at_ v pre m) = (Val tt, at_ v pre (f m)).
Proof. reflexivity. Qed.


Variable v : slice.
Hypothesis v_cap : len v <= cap v.
Hypothesis v_max : len v <= maxCursor.


End Reply.

Section ReplyMessage.
Context {E : Env}.

Lemma finish_at {S} (err : error_value) (s : S) :
  finish err s
  = (Val (match err with Some _ => (false, false) | None => (true, true) end), s).
Proof. destruct err; reflexivity. Qed.





End ReplyMessage.

Section ReplyClaim.
Context {E : Env}.

Lemma dispatch_reply (d : decoder) (m : MongodbMessage) :
  dispatch {| dec := d; msg := with_opCode "OP_REPLY" m |}
  = opReplyParse {| dec := d; msg := set_IsResponse true (with_opCode "OP_REPLY" m) |}.
Proof. reflexivity. Qed.


End ReplyClaim.

(** ** OP_QUERY *)

Section Query.
Context {E : Env}.

Lemma last_cons_default (c x : string) (l : list string) :
  List.last (c :: l) x = List.last l c.
Proof.
  revert c x. induction l as [| b l IH]; intros c x; [reflexivity |].
  change (List.last (c :: b :: l) x) with (List.last (b :: l) x).
  rewrite (IH b x), (IH b c). reflexivity.
Qed.

Lemma rangeCommands_spec (query : bson_M bsonValue) (commands : list string) :
  forall (x : string) (d : decoder) (m : MongodbMessage),
    rangeCommands commands query {| dec := d; msg := set_method x m |}
    = (Val tt,
       {| dec := d;
          msg := set_method (List.last (List.filter (present query) commands) x) m |}).
Proof.
  induction commands as [| c rest IH]; intros x d m; [reflexivity |].
  cbn [rangeCommands List.filter]. unfold present at 1.
  destruct (mapIndex query c) as [w |].
  - unfold bind at 1. cbn [setMsg modify dec msg].
    change (set_method c (set_method x m)) with (set_method c m).
    rewrite IH, last_cons_default. reflexivity.
  - unfold bind at 1, ret at 1. cbv beta iota. apply IH.
Qed.

(** [opQueryParse] on a body laid out as the protocol has it. *)
Lemma opQueryParse_at (v : slice) (hdr flags name skip ret_ qdoc sel rest : list byte)
    (m : MongodbMessage) :
  len v <= cap v -> len v <= maxCursor ->
  arr v = hdr ++ flags ++ (name ++ [x00]) ++ skip ++ ret_ ++ qdoc ++ sel ++ rest ->
  length flags = 4%nat -> ~ In x00 name ->
  length skip = 4%nat -> length ret_ = 4%nat ->
  framed_document qdoc -> sel = [] \/ framed_document sel ->
  Z.of_nat (length (hdr ++ flags ++ (name ++ [x00]) ++ skip ++ ret_ ++ qdoc ++ sel))
  = len v ->
  opQueryParse (at_ v hdr m)
  = (Val (match text_err qdoc with
          | Some _ => (false, false)
          | None => (true, true)
          end),
     at_ v ((((((hdr ++ flags) ++ name ++ [x00]) ++ skip) ++ ret_) ++ qdoc) ++ sel)
       (put_event "query" (EString (text_of qdoc))
          (set_method (classify (string_of_list_byte name) (fst (decoded qdoc)))
             (with_selector sel
                (put_event "numberToReturn" (EInt (le_value ret_))
                   (put_event "numberToSkip" (EInt (le_value skip))
                      (put_event "fullCollectionName"
                         (EString (string_of_list_byte name)) m))))))).
Proof.
  intros Hcap Hmax Harr Hf Hnul Hs Hr Hq Hsel Hlen.
  rewrite !length_app in Hlen. cbn [length] in Hlen.
  unfold opQueryParse.
  step (readInt32_at v Hcap Hmax hdr flags
          ((name ++ [x00]) ++ skip ++ ret_ ++ qdoc ++ sel ++ rest) m);
    [| layout Harr | exact Hf | rewrite ?length_app; lia].
  step (readCStr_at v Hcap Hmax (hdr ++ flags) name
          (skip ++ ret_ ++ qdoc ++ sel ++ rest) m);
    [| layout Harr | exact Hnul | rewrite ?length_app; cbn [length]; lia].
  step setMsg_at.
  step (readInt32_at v Hcap Hmax ((hdr ++ flags) ++ name ++ [x00]) skip
          (ret_ ++ qdoc ++ sel ++ rest));
    [| layout Harr | exact Hs | rewrite ?length_app; cbn [length]; lia].
  step setMsg_at.
  step (readInt32_at v Hcap Hmax (((hdr ++ flags) ++ name ++ [x00]) ++ skip) ret_
          (qdoc ++ sel ++ rest));
    [| layout Harr | exact Hr | rewrite ?length_app; cbn [length]; lia].
  step setMsg_at.
  step (readDocument_at v Hcap Hmax
          ((((hdr ++ flags) ++ name ++ [x00]) ++ skip) ++ ret_) qdoc (sel ++ rest));
    [| layout Harr | exact Hq | rewrite ?length_app; cbn [length]; lia].
  unfold text_err, text_of at 1.
  destruct (decoded qdoc) as [query qerr] eqn:Hdec. cbn [fst].
  set (P := ((((hdr ++ flags) ++ name ++ [x00]) ++ skip) ++ ret_) ++ qdoc).
  set (m4 := put_event "numberToReturn" _ _).
  unfold bind at 1, gets at 1. cbv beta iota. cbn [at_ dec d_i d_in].
  fold (at_ v P m4).
  assert (Hstep :
    forall (m5 : MongodbMessage) (sel' : list byte),
      bind (if HasSuffix (string_of_list_byte name) ".$cmd"
            then bind (setMsg (set_method "otherCommand"))
                      (fun _ => rangeCommands UserCommands query)
            else setMsg (set_method "find"))
           (fun _ =>
              let '(v0, err) := doc2str (OfMap query) in
              bind (setMsg (put_event "query" (EString v0)))
                   (fun _ => finish err)) (at_ v sel' m5)
      = (Val (match snd (doc2str (OfMap query)) with
              | Some _ => (false, false)
              | None => (true, true)
              end),
         at_ v sel'
           (put_event "query" (EString (fst (doc2str (OfMap query))))
              (set_method (classify (string_of_list_byte name) query) m5)))).
  { intros m5 sel'. unfold classify.
    destruct (HasSuffix (string_of_list_byte name) ".$cmd").
    - unfold bind at 1. unfold bind at 1. rewrite setMsg_at. cbv beta iota.
      unfold at_ at 1. rewrite rangeCommands_spec. cbv beta iota.
      destruct (doc2str (OfMap query)) as [v0 err]. cbn [fst snd].
      unfold bind at 1. cbn [setMsg modify dec msg]. rewrite finish_at.
      reflexivity.
    - unfold bind at 1. rewrite setMsg_at. cbv beta iota.
      destruct (doc2str (OfMap query)) as [v0 err]. cbn [fst snd].
      unfold bind at 1. rewrite setMsg_at. cbv beta iota. rewrite finish_at.
      reflexivity. }
  destruct Hsel as [-> | Hsel].
  - replace (Z.of_nat (length P) <? len v) with false
      by (symmetry; apply Z.ltb_ge; unfold P; rewrite !length_app;
          cbn [length] in *; lia).
    unfold bind at 1, ret at 1. cbv beta iota.
    rewrite app_nil_r. cbn [with_selector]. apply Hstep.
  - assert (Hne : (4 <= length sel)%nat) by (destruct Hsel; assumption).
    replace (Z.of_nat (length P) <? len v) with true
      by (symmetry; apply Z.ltb_lt; unfold P; rewrite !length_app;
          cbn [length]; lia).
    unfold bind at 1. unfold bind at 1.
    rewrite (readDocumentStr_at v Hcap Hmax P sel rest);
      [| unfold P; layout Harr | exact Hsel
       | unfold P; rewrite ?length_app; cbn [length]; lia].
    cbv beta iota.
    destruct (doc2str (OfMap (fst (decoded sel)))) as [sv serr] eqn:Hsv.
    unfold bind at 1. rewrite setMsg_at. cbv beta iota.
    unfold ret at 1. cbv beta iota.
    rewrite Hstep.
    unfold with_selector. destruct sel as [| b0 sel0]; [cbn in Hne; lia |].
    unfold text_of. rewrite Hsv. reflexivity.
Qed.

End Query.

Section QueryClaim.
Context {E : Env}.

Lemma dispatch_query (d : decoder) (m : MongodbMessage) :
  dispatch {| dec := d; msg := with_opCode "OP_QUERY" m |}
  = opQueryParse {| dec := d; msg := set_ExpectsResponse true (with_opCode "OP_QUERY" m) |}.
Proof. reflexivity. Qed.

(** C2 (as amended). An OP_QUERY message whose body is laid out as the
    protocol has it (flags, collection name, two integers, the query
    document, and possibly a selector document): [mongodbMessageParser]
    returns, and the method is "find" when the collection name does not end
    in ".$cmd"; when it does, the method is the last entry of [UserCommands],
    in the order of the table, that is a key of the query document, and
    "otherCommand" when no entry is. *)
Theorem query_method
    (hdr flags name skip ret_ qdoc sel more spare : list byte) (m : MongodbMessage) :
  let whole := hdr ++ flags ++ (name ++ [x00]) ++ skip ++ ret_ ++ qdoc ++ sel in
  let buf := whole ++ more in
  length hdr = 16%nat -> length flags = 4%nat -> ~ In x00 name ->
  length skip = 4%nat -> length ret_ = 4%nat ->
  framed_document qdoc -> sel = [] \/ framed_document sel ->
  declaredLength buf = Z.of_nat (length whole) ->
  le_value (bytes_at buf 12 4) = 2004 ->
  let r := mongodbMessageParser {| data := slice_of buf spare; message := m |} in
  fst r = Val (match text_err qdoc with
               | Some _ => (false, false)
               | None => (true, true)
               end)
  /\ method (message (snd r))
     = (if HasSuffix (string_of_list_byte name) ".$cmd" then
          List.last (List.filter (present (fst (decoded qdoc))) UserCommands)
                    "otherCommand"
        else "find")
  /\ method (message (snd r)) = classify (string_of_list_byte name) (fst (decoded qdoc)).
Proof.
  intros whole buf Hh Hf Hnul Hs Hr Hq Hsel Hdecl Hop r.
  assert (Hwhole : Z.of_nat (length whole)
                   = 29 + Z.of_nat (length name) + Z.of_nat (length qdoc)
                     + Z.of_nat (length sel)).
  { unfold whole. rewrite !length_app. cbn [length]. lia. }
  assert (Hbuf : Z.of_nat (length buf)
                 = Z.of_nat (length whole) + Z.of_nat (length more)).
  { unfold buf. rewrite length_app. lia. }
  pose proof (declaredLength_range buf) as Hrange.
  assert (Hrun : r = (Val (match text_err qdoc with
                           | Some _ => (false, false)
                           | None => (true, true)
                           end),
                      {| data := slice_of buf spare;
                         message :=
                           put_event "query" (EString (text_of qdoc))
                             (set_method (classify (string_of_list_byte name)
                                                   (fst (decoded qdoc)))
                                (with_selector sel
                                   (put_event "numberToReturn" (EInt (le_value ret_))
                                      (put_event "numberToSkip" (EInt (le_value skip))
                                         (put_event "fullCollectionName"
                                            (EString (string_of_list_byte name))
                                            (set_ExpectsResponse true
                                               (with_opCode "OP_QUERY"
                                                  (with_header buf spare m)))))))) |})).
  { unfold r. rewrite mongodbMessageParser_parse. cbn [data message].
    rewrite parse_framed by lia. cbv zeta.
    rewrite (int32_at_view buf spare _ 12) by lia.
    change (Z.to_nat 12) with 12%nat. rewrite Hop.
    change (OpCodes 2004) with (Some "OP_QUERY"). cbv iota.
    rewrite dispatch_query.
    set (v := view buf spare (declaredLength buf)).
    replace 16 with (Z.of_nat (length hdr)) by lia.
    fold (at_ v hdr (set_ExpectsResponse true
                       (with_opCode "OP_QUERY" (with_header buf spare m)))).
    rewrite (opQueryParse_at v hdr flags name skip ret_ qdoc sel (more ++ spare));
      [ reflexivity
      | unfold v, view, cap; cbn [arr len]; rewrite length_app; lia
      | unfold v, view, maxCursor; cbn [len]; lia
      | unfold v, view, buf, whole; cbn [arr]; rewrite <- !app_assoc; reflexivity
      | assumption | assumption | assumption | assumption | assumption
      | assumption
      | unfold v, view; cbn [len]; rewrite Hdecl; reflexivity ]. }
  rewrite Hrun. cbn [fst snd message].
  split; [reflexivity |].
  split; reflexivity.
Qed.

(** Whatever the table, as soon as it has two entries: one of the two
    documents that hold both entries as keys, in one order or the other, gets
    a method that is not its first key. *)
Lemma first_key_differs_for_any_table (a b : string) (va vb : bsonValue) :
  a <> b -> In a UserCommands -> In b UserCommands ->
  exists query,
    (query = Some [(a, va); (b, vb)] \/ query = Some [(b, vb); (a, va)])
    /\ classify "db.$cmd" query <> first_key_method "db.$cmd" query.
Proof.
  intros Hab Ha Hb.
  assert (Hfind : forall x, In x UserCommands ->
                    existsb (String.eqb x) UserCommands = true).
  { intros x Hx. apply existsb_exists. exists x. split; [exact Hx |].
    apply String.eqb_refl. }
  assert (Hsame : classify "db.$cmd" (Some [(a, va); (b, vb)])
                  = classify "db.$cmd" (Some [(b, vb); (a, va)])).
  { unfold classify. change (HasSuffix "db.$cmd" ".$cmd") with true. cbv iota.
    f_equal. apply List.filter_ext. intros c.
    unfold present, mapIndex. cbn [assoc_last].
    destruct (String.eqb a c), (String.eqb b c); reflexivity. }
  assert (H1 : first_key_method "db.$cmd" (Some [(a, va); (b, vb)]) = a).
  { unfold first_key_method. change (HasSuffix "db.$cmd" ".$cmd") with true.
    cbn [map fst List.find]. rewrite (Hfind a Ha). reflexivity. }
  assert (H2 : first_key_method "db.$cmd" (Some [(b, vb); (a, va)]) = b).
  { unfold first_key_method. change (HasSuffix "db.$cmd" ".$cmd") with true.
    cbn [map fst List.find]. rewrite (Hfind b Hb). reflexivity. }
  destruct (String.eqb (classify "db.$cmd" (Some [(a, va); (b, vb)])) a) eqn:Hc.
  - apply String.eqb_eq in Hc.
    exists (Some [(b, vb); (a, va)]). split; [right; reflexivity |].
    rewrite <- Hsame, Hc, H2. exact Hab.
  - apply String.eqb_neq in Hc.
    exists (Some [(a, va); (b, vb)]). split; [left; reflexivity |].
    rewrite H1. exact Hc.
Qed.

End QueryClaim.

(** ** The claims on concrete messages *)

Section Concrete.

#[local] Existing Instance sampleEnv.

Import Examples.

(** The two instances named with C2: the query {ismaster: 1} on "db.$cmd"
    gives the method "ismaster" when the table has that entry, and a query on
    "db.users" gives "find". *)
Lemma query_examples :
  fst (run query_ismaster) = Val (true, true)
  /\ method (message (snd (run query_ismaster))) = "ismaster"
  /\ fst (run query_find) = Val (true, true)
  /\ method (message (snd (run query_find))) = "find".
Proof. repeat split; vm_compute; reflexivity. Qed.

(** Why C2 is stated for messages laid out as the protocol has it: a
    complete OP_QUERY message whose selector is cut makes [readDocument]
    panic before the method is set. *)
Lemma query_with_cut_selector_panics :
  declaredLength Samples.query_cut_selector
  = Z.of_nat (length Samples.query_cut_selector)
  /\ fst (run Samples.query_cut_selector) = Panicked
  /\ method (message (snd (run Samples.query_cut_selector))) = "".
Proof. repeat split; vm_compute; reflexivity. Qed.

(** C2, counterexample. The query {ismaster: 1, count: 1} on "db.$cmd": the
    first key of the document that is an entry of the table is "ismaster",
    and the method is "count". *)
Lemma first_key_is_not_the_method :
  let query := Bson.document (Bson.int32_element "ismaster" 1
                              ++ Bson.int32_element "count" 1) in
  let r := run query_two_commands in
  fst r = Val (true, true)
  /\ bsonUnmarshal query = Some [("ismaster", Bson.Int32 1); ("count", Bson.Int32 1)]
  /\ first_key_method "db.$cmd" (bsonUnmarshal query) = "ismaster"
  /\ method (message (snd r)) = "count"
  /\ method (message (snd r)) <> first_key_method "db.$cmd" (bsonUnmarshal query).
Proof. repeat split; vm_compute; (reflexivity || discriminate). Qed.


(** C4. An OP_UPDATE message whose selector is not a document and whose
    update is one: the read of the selector fails, the later read succeeds,
    and the extractor returns valid. *)
Theorem update_valid_after_failed_read :
  let v := view update_bad_selector [] (declaredLength update_bad_selector) in
  readDocument {| d_in := v; d_i := 33 |}
  = (Val (None, Some ErrUnmarshal), {| d_in := v; d_i := 38 |})
  /\ fst (run update_bad_selector) = Val (true, true)
  /\ event (message (snd (run update_bad_selector))) !! "selector"
     = Some (EString "null").
Proof. repeat split; vm_compute; reflexivity. Qed.

(** C5. Two buffers that hold the same OP_DELETE message of 33 bytes and
    differ behind it: [readDocument] takes the selector from the bytes at the
    offsets 29 to 40 of the buffer, and the events differ. *)
Theorem selector_read_from_next_message :
  let b1 := delete_overrun ++ next_bytes 1 in
  let b2 := delete_overrun ++ next_bytes 2 in
  declaredLength b1 = 33 /\ declaredLength b2 = 33
  /\ take 33 b1 = take 33 b2
  /\ readDocument {| d_in := view b1 [] 33; d_i := 29 |}
     = (Val (Some [("a", Bson.Int32 1)], None), {| d_in := view b1 [] 33; d_i := 41 |})
  /\ fst (run b1) = Val (true, true)
  /\ event (message (snd (run b1))) !! "selector"
     = Some (EString (Json.object [("a", "1")]))
  /\ event (message (snd (run b2))) !! "selector"
     = Some (EString (Json.object [("a", "2")])).
Proof. repeat split; vm_compute; reflexivity. Qed.

(** C6. The OP_DELETE message of 33 bytes that ends after the four bytes in
    which its selector declares 12, alone in its buffer: [readDocument]
    moves the cursor to 29 + 12 = 41, behind the 33 bytes of the buffer, and
    the slice expression that designates the document panics; no error is
    returned, and the parser panics with it.  With fewer than four bytes
    left the declared length is read as 0 and the call returns the error of
    the document decoder. *)
Theorem readDocument_panics_on_overrun :
  let v := view delete_overrun [] (declaredLength delete_overrun) in
  declaredLength delete_overrun = 33 /\ cap v = 33
  /\ int32_at v 29 = 12
  /\ readDocument {| d_in := v; d_i := 29 |}
     = (Panicked, {| d_in := v; d_i := 41 |})
  /\ fst (run delete_overrun) = Panicked
  /\ readDocument {| d_in := v; d_i := 31 |}
     = (Val (None, Some ErrUnmarshal), {| d_in := v; d_i := 31 |}).
Proof. repeat split; vm_compute; reflexivity. Qed.

End Concrete.

(** ** The theorems at concrete inputs *)

Section Witnesses.

#[local] Existing Instance sampleEnv.

Import Examples.

Lemma need_more_data_witness :
  declaredLength (take 20 query_ismaster) > Z.of_nat (length (take 20 query_ismaster))
  /\ run (take 20 query_ismaster) = (Val (true, false), Wire.stream (take 20 query_ismaster)).
Proof.
  assert (H : declaredLength (take 20 query_ismaster)
              > Z.of_nat (length (take 20 query_ismaster))) by computed.
  split; [exact H |].
  exact (need_more_data (take 20 query_ismaster) [] Wire.emptyMessage (or_intror H)).
Defined.

Lemma unknown_opcode_witness :
  16 <= declaredLength unknown_9999 <= Z.of_nat (length unknown_9999)
  /\ OpCodes (le_value (bytes_at unknown_9999 12 4)) = None
  /\ fst (run unknown_9999) = Val (false, false)
  /\ event (message (snd (run unknown_9999))) = event Wire.emptyMessage.
Proof.
  assert (H1 : 16 <= declaredLength unknown_9999 <= Z.of_nat (length unknown_9999))
    by computed.
  assert (H2 : OpCodes (le_value (bytes_at unknown_9999 12 4)) = None) by computed.
  split; [exact H1 | split; [exact H2 |]].
  destruct (unknown_opcode unknown_9999 [] Wire.emptyMessage H1 H2) as [Heq Hkept].
  split.
  - unfold run, Wire.stream. rewrite Heq. reflexivity.
  - destruct (run unknown_9999) as [r [sdata m']] eqn:Hrun.
    unfold run, Wire.stream in Hrun.
    apply (Hkept m'). rewrite Hrun. cbn [snd].
    rewrite Heq in Hrun. injection Hrun as _ <- _. reflexivity.
Defined.

Lemma short_header_witness :
  4 <= declaredLength header_of_8 <= Z.of_nat (length header_of_8)
  /\ declaredLength header_of_8 < 16
  /\ run header_of_8
     = (Val (false, false),
        {| data := slice_of header_of_8 [];
           message := set_responseTo 0 (set_requestId 42
                        (set_messageLength 8 Wire.emptyMessage)) |}).
Proof.
  assert (H1 : 4 <= declaredLength header_of_8 <= Z.of_nat (length header_of_8))
    by computed.
  assert (H2 : declaredLength header_of_8 < 16) by computed.
  split; [exact H1 | split; [exact H2 |]].
  destruct (short_header header_of_8 [] Wire.emptyMessage H1 H2) as (_ & Heq & _).
  exact Heq.
Defined.

Lemma dispatcher_flags_and_method_witness :
  16 <= declaredLength get_more <= Z.of_nat (length get_more)
  /\ OpCodes (le_value (bytes_at get_more 12 4)) = Some "OP_GET_MORE"
  /\ IsResponse (message (snd (run get_more))) = false
  /\ ExpectsResponse (message (snd (run get_more))) = true
  /\ method (message (snd (run get_more))) = "getMore".
Proof.
  assert (H1 : 16 <= declaredLength get_more <= Z.of_nat (length get_more))
    by computed.
  assert (H2 : OpCodes (le_value (bytes_at get_more 12 4)) = Some "OP_GET_MORE")
    by computed.
  split; [exact H1 | split; [exact H2 |]].
  destruct (dispatcher_flags_and_method get_more [] Wire.emptyMessage
              "OP_GET_MORE" H1 H2)
    as (_ & Hr & He & _ & _ & _ & _ & Hm & _).
  split; [exact Hr | split; [exact He | exact (Hm eq_refl)]].
Defined.

Lemma readDocument_cursor_and_error_witness :
  let d := {| d_in := slice_of (not_a_document ++ [x07; x07]) []; d_i := 0 |} in
  d_i (snd (readDocument d)) = 5
  /\ exists documentMap err,
       fst (readDocument d) = Val (documentMap, err)
       /\ documentMap = bsonUnmarshal (designated d)
       /\ (err <> None <-> bsonUnmarshal (designated d) = None).
Proof.
  intros d.
  assert (H1 : 0 <= d_i d <= maxCursor) by computed.
  assert (H2 : len (d_in d) <= cap (d_in d)) by computed.
  destruct (readDocument_cursor_and_error d H1 H2) as (Hc & _ & _ & Hin & _).
  split; [exact Hc |].
  apply Hin. computed.
Defined.

End Witnesses.

Section LayoutWitnesses.

#[local] Existing Instance sampleEnv.

Import Examples.

Lemma query_method_witness :
  method (message (snd (run query_ismaster))) = "ismaster".
Proof.
  pose proof (query_method
                (Wire.header 55 7 0 2004) (le_bytes 4 0)
                (list_byte_of_string "db.$cmd") (le_bytes 4 0) (le_bytes 4 1)
                (Bson.document (Bson.int32_element "ismaster" 1)) [] [] []
                Wire.emptyMessage) as H.
  cbv zeta in H.
  destruct H as (_ & Hm & _).
  - reflexivity.
  - reflexivity.
  - vm_compute. intuition discriminate.
  - reflexivity.
  - reflexivity.
  - framed.
  - left. reflexivity.
  - vm_compute. reflexivity.
  - vm_compute. reflexivity.
  - exact Hm.
Defined.


End LayoutWitnesses.

(** * Further properties of the reader and of the extractors *)

(** ** Fixed-width integers *)

Lemma Zbyte_byte_of_Z (z : Z) : Zbyte (byte_of_Z z) = z mod 256.
Proof.
  unfold byte_of_Z, Zbyte.
  assert (Hr : 0 <= z mod 256 < 256) by (apply Z.mod_pos_bound; lia).
  destruct (Byte.of_N (Z.to_N (z mod 256))) as [b |] eqn:Hb.
  - apply Byte.to_of_N in Hb. rewrite Hb. lia.
  - apply Byte.of_N_None_iff in Hb. lia.
Qed.

(** Decoding the [n] bytes of [z] gives [z] modulo [256 ^ n]. *)
Lemma le_value_le_bytes (n : nat) :
  forall z, le_value (le_bytes n z) = z mod 256 ^ Z.of_nat n.
Proof.
  induction n as [| n IH]; intros z.
  - cbn [le_bytes le_value]. change (256 ^ Z.of_nat 0) with 1.
    rewrite Z.mod_1_r. reflexivity.
  - cbn [le_bytes le_value]. rewrite Zbyte_byte_of_Z, IH.
    rewrite Nat2Z.inj_succ, Z.pow_succ_r by lia.
    rewrite Z.rem_mul_r; [reflexivity | lia |].
    apply Z.pow_pos_nonneg; lia.
Qed.

Lemma le_bytes_length (n : nat) : forall z, length (le_bytes n z) = n.
Proof.
  induction n as [| n IH]; intros z; [reflexivity |].
  cbn [le_bytes length]. rewrite IH. reflexivity.
Qed.

Lemma bytes_at_front (f rest : list byte) :
  bytes_at (f ++ rest) 0 (length f) = f.
Proof. exact (bytes_at_middle [] f rest). Qed.

Lemma signed_64_cases (x : Z) :
  0 <= x < 2 ^ 64 ->
  signed 64 x = if x <? 2 ^ 63 then x else x - 2 ^ 64.
Proof.
  intros Hx. unfold signed. change (64 - 1) with 63.
  change (2 ^ 64) with 18446744073709551616 in *.
  change (2 ^ 63) with 9223372036854775808 in *.
  destruct (x <? 9223372036854775808) eqn:Hlt.
  - apply Z.ltb_lt in Hlt. rewrite Z.mod_small by lia. lia.
  - apply Z.ltb_ge in Hlt.
    replace (x + 9223372036854775808)
      with ((x - 9223372036854775808) + 1 * 18446744073709551616) by lia.
    rewrite Z.mod_add by lia. rewrite Z.mod_small by lia. lia.
Qed.

(** X1. [readInt64] gives the two's-complement value of eight bytes: the high
    bit of the last byte is the sign, unlike what [readInt32] does with four
    bytes. *)
Theorem readInt64_signed (b0 b1 b2 b3 b4 b5 b6 b7 : byte) (rest spare : list byte) :
  let bs := [b0; b1; b2; b3; b4; b5; b6; b7] in
  let d := newDecoder (slice_of (bs ++ rest) spare) in
  readInt64 d = (Val (signed 64 (le_value bs), None), set_i 8 d)
  /\ (signed 64 (le_value bs) < 0 <-> 128 <= Zbyte b7)
  /\ - 2 ^ 63 <= signed 64 (le_value bs) < 2 ^ 63.
Proof.
  intros bs d.
  pose proof (le_value_range bs) as Hr.
  change (256 ^ Z.of_nat (length bs)) with (2 ^ 64) in Hr.
  split; [| split].
  - rewrite readInt64_spec;
      [| cbn; unfold maxCursor; lia | apply cap_slice_of].
    unfold int64_at, fixed_err, d, newDecoder. cbn [d_in d_i len slice_of arr].
    change (0 + 8) with 8.
    replace (8 >? Z.of_nat (length (bs ++ rest))) with false
      by (symmetry; rewrite Z.gtb_ltb, Z.ltb_ge, length_app; unfold bs;
          cbn [length]; lia).
    change (Z.to_nat 0) with 0%nat. change (Z.to_nat 8) with (length bs).
    rewrite <- app_assoc.
    rewrite bytes_at_front. reflexivity.
  - rewrite signed_64_cases by exact Hr.
    assert (Hlow : 0 <= le_value [b0; b1; b2; b3; b4; b5; b6] < 2 ^ 56).
    { pose proof (le_value_range [b0; b1; b2; b3; b4; b5; b6]) as H.
      exact H. }
    assert (Hsplit : le_value bs
                     = le_value [b0; b1; b2; b3; b4; b5; b6] + 2 ^ 56 * Zbyte b7).
    { unfold bs. cbn [le_value]. change (2 ^ 56) with 72057594037927936. lia. }
    pose proof (Zbyte_range b7) as H7.
    change (2 ^ 64) with 18446744073709551616 in *.
    change (2 ^ 63) with 9223372036854775808 in *.
    change (2 ^ 56) with 72057594037927936 in *.
    destruct (le_value bs <? 9223372036854775808) eqn:Hlt.
    + apply Z.ltb_lt in Hlt. lia.
    + apply Z.ltb_ge in Hlt. lia.
  - rewrite signed_64_cases by exact Hr.
    change (2 ^ 64) with 18446744073709551616 in *.
    change (2 ^ 63) with 9223372036854775808 in *.
    destruct (le_value bs <? 9223372036854775808) eqn:Hlt.
    + apply Z.ltb_lt in Hlt. lia.
    + apply Z.ltb_ge in Hlt. lia.
Qed.

(** X2. Round trip: the four little-endian bytes of [z], for [z] below [2 ^ 32],
    are read back as [z] by [readInt32], whatever follows them. *)
Theorem readInt32_le_bytes (z : Z) (rest spare : list byte) :
  0 <= z < 2 ^ 32 ->
  let d := newDecoder (slice_of (le_bytes 4 z ++ rest) spare) in
  readInt32 d = (Val (z, None), set_i 4 d).
Proof.
  intros Hz d.
  rewrite readInt32_spec;
    [| cbn; unfold maxCursor; lia | apply cap_slice_of].
  destruct (int32_at_ok (d_in d) (d_i d)) as [-> ->].
  { unfold d, newDecoder. cbn [d_in d_i len slice_of].
    rewrite length_app, le_bytes_length. lia. }
  unfold d, newDecoder. cbn [d_in d_i arr slice_of].
  change (Z.to_nat 0) with 0%nat. rewrite <- app_assoc.
  rewrite <- (le_bytes_length 4 z) at 2.
  rewrite bytes_at_front.
  rewrite le_value_le_bytes. change (256 ^ Z.of_nat 4) with (2 ^ 32).
  rewrite Z.mod_small by exact Hz. reflexivity.
Qed.

(** X3. Round trip: the eight little-endian two's-complement bytes of a signed
    64-bit [z] are read back as [z] by [readInt64]. *)
Theorem readInt64_le_bytes (z : Z) (rest spare : list byte) :
  - 2 ^ 63 <= z < 2 ^ 63 ->
  let d := newDecoder (slice_of (le_bytes 8 z ++ rest) spare) in
  readInt64 d = (Val (z, None), set_i 8 d).
Proof.
  intros Hz d.
  rewrite readInt64_spec;
    [| cbn; unfold maxCursor; lia | apply cap_slice_of].
  unfold int64_at, fixed_err, d, newDecoder. cbn [d_in d_i len slice_of arr].
  change (0 + 8) with 8.
  replace (8 >? Z.of_nat (length (le_bytes 8 z ++ rest))) with false
    by (symmetry; rewrite Z.gtb_ltb, Z.ltb_ge, length_app, le_bytes_length; lia).
  change (Z.to_nat 0) with 0%nat. rewrite <- app_assoc.
  replace (Z.to_nat 8) with (length (le_bytes 8 z))
    by (rewrite le_bytes_length; reflexivity).
  rewrite bytes_at_front.
  rewrite le_value_le_bytes. change (256 ^ Z.of_nat 8) with (2 ^ 64).
  rewrite signed_64_cases by (apply Z.mod_pos_bound; lia).
  change (2 ^ 64) with 18446744073709551616 in *.
  change (2 ^ 63) with 9223372036854775808 in *.
  destruct (Z_lt_le_dec z 0) as [Hneg | Hpos].
  - replace (z mod 18446744073709551616) with (z + 18446744073709551616).
    + replace (z + 18446744073709551616 <? 9223372036854775808) with false
        by (symmetry; apply Z.ltb_ge; lia).
      do 2 f_equal. f_equal. lia.
    + symmetry.
      replace (z + 18446744073709551616) with (z + 1 * 18446744073709551616) at 1 by lia.
      rewrite <- (Z.mod_add z 1 18446744073709551616) by lia.
      rewrite (Z.mod_small (z + 1 * 18446744073709551616)) by lia. lia.
  - rewrite Z.mod_small by lia.
    replace (z <? 9223372036854775808) with true
      by (symmetry; apply Z.ltb_lt; lia).
    reflexivity.
Qed.

(** ** Reads at the end of the window and behind it *)

Lemma readCStr_past_window (d : decoder) :
  len (d_in d) < d_i d -> readCStr d = (Panicked, d).
Proof.
  intros Hpast. unfold readCStr. unfold bind at 1, gets at 1. cbv beta iota.
  unfold bind at 1, gets at 1. cbv beta iota.
  assert (Hscan : forall fuel,
            scanCStr fuel (d_in d) (len (d_in d)) (d_i d) = Panicked).
  { intros fuel.
    assert (He : (d_i d =? len (d_in d)) = false) by (apply Z.eqb_neq; lia).
    assert (Hi : index (d_in d) (d_i d) = Panicked).
    { unfold index.
      replace (d_i d <? len (d_in d)) with false
        by (symmetry; apply Z.ltb_ge; lia).
      rewrite andb_false_r. reflexivity. }
    destruct fuel; cbn [scanCStr]; rewrite He, Hi; reflexivity. }
  unfold bind at 1, liftRes. rewrite Hscan. reflexivity.
Qed.

(** X4. When fewer than four bytes are left, [readInt32] fails with the value 0
    and leaves the cursor behind the end of the window; from there every
    fixed-width read fails in the same way, and [readCStr] panics on its
    first index. *)
Theorem failed_fixed_read_is_sticky (d : decoder) :
  0 <= d_i d -> d_i d + 8 <= maxCursor ->
  0 <= len (d_in d) <= cap (d_in d) ->
  len (d_in d) < d_i d + 4 ->
  let d1 := snd (readInt32 d) in
  fst (readInt32 d) = Val (0, Some ErrNoByte)
  /\ len (d_in d1) < d_i d1
  /\ fst (readInt32 d1) = Val (0, Some ErrNoByte)
  /\ fst (readInt64 d1) = Val (0, Some ErrNoByte)
  /\ len (d_in (snd (readInt64 d1))) < d_i (snd (readInt64 d1))
  /\ readCStr d1 = (Panicked, d1).
Proof.
  intros Hi Hmax Hcap Hshort d1. subst d1.
  rewrite (readInt32_spec d) by (unfold maxCursor in *; lia).
  cbn [fst snd].
  destruct (int32_at_short (d_in d) (d_i d) Hshort) as [-> ->].
  split; [reflexivity |].
  set (d1 := set_i (d_i d + 4) d).
  assert (H1 : len (d_in d1) < d_i d1) by (cbn; lia).
  split; [exact H1 |].
  rewrite (readInt32_spec d1), (readInt64_spec d1)
    by (cbn [d1 set_i d_i d_in]; unfold maxCursor in *; lia).
  cbn [fst snd].
  destruct (int32_at_short (d_in d1) (d_i d1)) as [-> ->]; [lia |].
  unfold int64_at, fixed_err.
  replace (d_i d1 + 8 >? len (d_in d1)) with true
    by (symmetry; apply Z.gtb_lt; lia).
  split; [reflexivity |]. split; [reflexivity |].
  split; [cbn [set_i d_in d_i] in *; lia |].
  apply readCStr_past_window, H1.
Qed.

(** ** C strings *)

Section CStrings.
Variable v : slice.
Hypothesis v_cap : len v <= cap v.
Hypothesis v_max : len v < maxCursor.

Lemma scanCStr_no_nul (body : list byte) :
  forall (fuel : nat) (pre rest : list byte),
    arr v = pre ++ body ++ rest -> ~ In x00 body ->
    Z.of_nat (length (pre ++ body)) = len v -> (length body <= fuel)%nat ->
    scanCStr fuel v (len v) (Z.of_nat (length pre)) = Val (len v).
Proof.
  induction body as [| c body IH]; intros fuel pre rest Harr Hnul Hlen Hfuel.
  - rewrite app_nil_r in Hlen. rewrite Hlen.
    destruct fuel; cbn [scanCStr]; rewrite Z.eqb_refl; reflexivity.
  - rewrite length_app in Hlen. cbn [length] in Hlen, Hfuel.
    destruct fuel as [| fuel]; [lia |]. cbn [scanCStr].
    destruct (Z.of_nat (length pre) =? len v) eqn:He;
      [apply Z.eqb_eq in He; lia |].
    unfold index.
    replace ((0 <=? Z.of_nat (length pre)) && (Z.of_nat (length pre) <? len v))
      with true by (symmetry; rewrite andb_true_iff, Z.leb_le, Z.ltb_lt; lia).
    cbn [app] in Harr.
    rewrite Nat2Z.id, Harr, list_lookup_middle by reflexivity.
    destruct (Byte.eqb c x00) eqn:Hc.
    { apply Byte.byte_dec_bl in Hc. subst c. exfalso. apply Hnul. left.
      reflexivity. }
    rewrite int_add_cursor by (unfold maxCursor in *; lia).
    replace (Z.of_nat (length pre) + 1) with (Z.of_nat (length (pre ++ [c])))
      by (rewrite length_app; cbn [length]; lia).
    apply (IH fuel (pre ++ [c]) rest).
    + rewrite Harr, <- app_assoc. reflexivity.
    + intros Hin. apply Hnul. right. exact Hin.
    + rewrite !length_app. cbn [length]. lia.
    + lia.
Qed.

(** X5. A string that runs to the end of the window without a NUL: [readCStr]
    returns the empty string with its error and leaves the cursor one
    behind the end of the window. *)
Theorem readCStr_unterminated (pre body rest : list byte) :
  arr v = pre ++ body ++ rest -> ~ In x00 body ->
  Z.of_nat (length (pre ++ body)) = len v ->
  readCStr {| d_in := v; d_i := Z.of_nat (length pre) |}
  = (Val ("", Some ErrCStr), {| d_in := v; d_i := len v + 1 |}).
Proof.
  intros Harr Hnul Hlen.
  unfold readCStr. exec.
  rewrite (scanCStr_no_nul body _ pre rest Harr Hnul Hlen)
    by (rewrite length_app in Hlen; lia).
  exec. rewrite int_add_cursor by (unfold maxCursor in *; lia).
  replace (len v + 1 >? len v) with true by (symmetry; apply Z.gtb_lt; lia).
  reflexivity.
Qed.

(** X6. Round trip: a string without a NUL character, written with its
    terminator, is read back by [readCStr], which leaves the cursor behind
    the terminator; the bytes that follow play no part. *)
Theorem readCStr_round_trip (s : string) (pre rest : list byte) :
  arr v = pre ++ Bson.cstring s ++ rest ->
  ~ In x00 (list_byte_of_string s) ->
  Z.of_nat (length (pre ++ Bson.cstring s)) <= len v ->
  readCStr {| d_in := v; d_i := Z.of_nat (length pre) |}
  = (Val (s, None),
     {| d_in := v; d_i := Z.of_nat (length pre) + Z.of_nat (String.length s) + 1 |}).
Proof.
  intros Harr Hnul Hlen. unfold Bson.cstring in *.
  assert (Hmax : len v <= maxCursor) by lia.
  pose proof (readCStr_at v v_cap Hmax pre (list_byte_of_string s) rest
                Wire.emptyMessage Harr Hnul Hlen) as H.
  unfold onDecoder, at_ in H. cbn [dec msg] in H.
  destruct (readCStr _) as [r d'].
  injection H as -> ->.
  rewrite string_of_list_byte_of_string.
  do 3 f_equal. rewrite !length_app. cbn [length].
  assert (Hl : length (list_byte_of_string s) = String.length s).
  { clear. induction s as [| c s IH]; [reflexivity |].
    cbn [String.length]. rewrite <- IH. reflexivity. }
  rewrite Hl. lia.
Qed.

End CStrings.

(** ** The header of a framed message *)

Section HeaderRoundTrip.
Context {E : Env}.

Lemma dispatch_keeps (P : MongodbMessage -> Prop) :
  (forall x m, P m -> P (set_error x m)) ->
  (forall x m, P m -> P (set_method x m)) ->
  (forall k v m, P m -> P (put_event k v m)) ->
  (forall b m, P m -> P (set_IsResponse b m)) ->
  (forall b m, P m -> P (set_ExpectsResponse b m)) ->
  keeps P dispatch.
Proof.
  intros He Hm Hp Hr Hx.
  destruct (extractors_keep P He Hp) as (K1 & K2 & K3 & K4 & K5 & K6 & K7).
  pose proof (opQueryParse_keeps P Hm Hp) as KQ.
  unfold dispatch. apply keeps_bind; [apply keeps_gets | intros op].
  repeat match goal with
         | |- keeps _ (if ?c then _ else _) => destruct c
         end;
    repeat first [ assumption
                 | apply keeps_ret
                 | apply keeps_bind; [| intros ?]
                 | apply keeps_setMsg; intros ? ?; auto ].
Qed.

Lemma bytes_at_field (pre f rest : list byte) (off n : nat) :
  off = length pre -> n = length f -> bytes_at (pre ++ f ++ rest) off n = f.
Proof. intros -> ->. apply bytes_at_middle. Qed.

(** The bytes of a frame, field by field. *)
Lemma frame_layout (rid rto op : Z) (body more : list byte) :
  let buf := Wire.frame rid rto op body ++ more in
  declaredLength buf = (16 + Z.of_nat (length body)) mod 2 ^ 32
  /\ le_value (bytes_at buf 4 4) = rid mod 2 ^ 32
  /\ le_value (bytes_at buf 8 4) = rto mod 2 ^ 32
  /\ le_value (bytes_at buf 12 4) = op mod 2 ^ 32
  /\ Z.of_nat (length buf) = 16 + Z.of_nat (length body) + Z.of_nat (length more).
Proof.
  intros buf. unfold buf, Wire.frame, Wire.header, declaredLength.
  set (l := le_bytes 4 (16 + Z.of_nat (length body))).
  set (a := le_bytes 4 rid). set (b := le_bytes 4 rto). set (c := le_bytes 4 op).
  assert (Hl : length l = 4%nat) by apply le_bytes_length.
  assert (Ha : length a = 4%nat) by apply le_bytes_length.
  assert (Hb : length b = 4%nat) by apply le_bytes_length.
  assert (Hc : length c = 4%nat) by apply le_bytes_length.
  change (2 ^ 32) with (256 ^ Z.of_nat 4).
  assert (H0 : ((l ++ a ++ b ++ c) ++ body) ++ more
               = [] ++ l ++ (a ++ b ++ c ++ body ++ more))
    by (rewrite <- !app_assoc; reflexivity).
  assert (H4 : ((l ++ a ++ b ++ c) ++ body) ++ more
               = l ++ a ++ (b ++ c ++ body ++ more))
    by (rewrite <- !app_assoc; reflexivity).
  assert (H8 : ((l ++ a ++ b ++ c) ++ body) ++ more
               = (l ++ a) ++ b ++ (c ++ body ++ more))
    by (rewrite <- !app_assoc; reflexivity).
  assert (H12 : ((l ++ a ++ b ++ c) ++ body) ++ more
                = (l ++ a ++ b) ++ c ++ (body ++ more))
    by (rewrite <- !app_assoc; reflexivity).
  split; [| split; [| split; [| split]]].
  - rewrite H0, bytes_at_field by (cbn [length]; lia).
    apply le_value_le_bytes.
  - rewrite H4, bytes_at_field by lia. apply le_value_le_bytes.
  - rewrite H8, bytes_at_field by (rewrite ?length_app; lia).
    apply le_value_le_bytes.
  - rewrite H12, bytes_at_field by (rewrite ?length_app; lia).
    apply le_value_le_bytes.
  - rewrite !length_app. lia.
Qed.

(** X7. Round trip of the header: for a message framed with its length, a
    request id and a response id below [2 ^ 32] and any opcode, the parser
    leaves these three values in the message, whatever the opcode is and
    whether the extractor returns, fails or panics. *)
Theorem header_round_trip (rid rto op : Z) (body more spare : list byte)
    (m : MongodbMessage) :
  0 <= rid < 2 ^ 32 -> 0 <= rto < 2 ^ 32 -> 0 <= op < 2 ^ 32 ->
  16 + Z.of_nat (length body) < 2 ^ 32 ->
  let m' := message (snd (mongodbMessageParser
              {| data := slice_of (Wire.frame rid rto op body ++ more) spare;
                 message := m |})) in
  messageLength m' = 16 + Z.of_nat (length body)
  /\ requestId m' = rid /\ responseTo m' = rto.
Proof.
  intros Hrid Hrto Hop Hlen m'. subst m'.
  destruct (frame_layout rid rto op body more) as (Hd & H4 & H8 & H12 & Hbuf).
  set (buf := Wire.frame rid rto op body ++ more) in *.
  rewrite Z.mod_small in Hd, H4, H8, H12 by lia.
  rewrite mongodbMessageParser_parse. cbn [data message snd].
  rewrite parse_framed by lia. cbv zeta.
  set (P := fun x : MongodbMessage =>
              messageLength x = 16 + Z.of_nat (length body)
              /\ requestId x = rid /\ responseTo x = rto).
  assert (Hhdr : P (with_header buf spare m)).
  { unfold P, with_header.
    rewrite (int32_at_view buf spare _ 8), (int32_at_view buf spare _ 4) by lia.
    change (Z.to_nat 8) with 8%nat. change (Z.to_nat 4) with 4%nat.
    rewrite H4, H8, Hd. repeat split. }
  destruct (OpCodes (int32_at (view buf spare (declaredLength buf)) 12)) as [name |].
  - apply (dispatch_keeps P); intros; assumption.
  - exact Hhdr.
Qed.

(** A fixed-width read with fewer than four bytes left, and a string read
    behind the window, at the head of a computation. *)
Lemma bind_readInt32_short {A} (k : Z * error_value -> M state A) (s : state) :
  0 <= d_i (dec s) -> d_i (dec s) + 4 <= maxCursor ->
  len (d_in (dec s)) <= cap (d_in (dec s)) ->
  len (d_in (dec s)) < d_i (dec s) + 4 ->
  bind (onDecoder readInt32) k s
  = k (0, Some ErrNoByte)
      {| dec := set_i (d_i (dec s) + 4) (dec s); msg := msg s |}.
Proof.
  intros Hi Hmax Hcap Hshort. unfold bind.
  rewrite onDecoder_readInt32 by (unfold maxCursor in *; lia).
  destruct (int32_at_short _ _ Hshort) as [-> ->]. reflexivity.
Qed.

Lemma bind_readCStr_past {A} (k : string * error_value -> M state A) (s : state) :
  len (d_in (dec s)) < d_i (dec s) ->
  bind (onDecoder readCStr) k s = (Panicked, {| dec := dec s; msg := msg s |}).
Proof.
  intros Hpast. unfold bind, onDecoder.
  rewrite readCStr_past_window by exact Hpast. reflexivity.
Qed.

(** X8. A complete OP_UPDATE, OP_INSERT, OP_QUERY, OP_GET_MORE or OP_DELETE
    message of fewer than 20 bytes: the first read of the extractor fails,
    the read of the collection name indexes behind the window, and
    [mongodbMessageParser] panics instead of returning; the event is left
    empty. *)
Theorem short_body_panics (buf spare : list byte) (m : MongodbMessage)
    (name : string) :
  16 <= declaredLength buf < 20 ->
  declaredLength buf <= Z.of_nat (length buf) ->
  OpCodes (le_value (bytes_at buf 12 4)) = Some name ->
  name = "OP_UPDATE" \/ name = "OP_INSERT" \/ name = "OP_QUERY"
  \/ name = "OP_GET_MORE" \/ name = "OP_DELETE" ->
  let r := mongodbMessageParser {| data := slice_of buf spare; message := m |} in
  fst r = Panicked /\ event (message (snd r)) = ∅.
Proof.
  intros HL Hbuf Hop Hname r. subst r.
  rewrite mongodbMessageParser_parse. cbn [data message fst snd].
  rewrite parse_framed by lia. cbv zeta.
  rewrite (int32_at_view buf spare _ 12) by lia.
  change (Z.to_nat 12) with 12%nat. rewrite Hop.
  set (v := view buf spare (declaredLength buf)).
  assert (Hv : len v <= cap v).
  { unfold v, view, cap. cbn [arr len]. rewrite length_app. lia. }
  assert (H20 : len v < 20) by (cbn [v view len]; lia).
  destruct Hname as [-> | [-> | [-> | [-> | ->]]]];
    unfold dispatch; exec;
    cbn [with_opCode opCode set_event set_ExpectsResponse set_IsResponse set_opCode
         String.eqb Ascii.eqb Bool.eqb andb orb];
    exec;
    unfold opUpdateParse, opInsertParse, opQueryParse, opGetMoreParse, opDeleteParse;
    (rewrite bind_readInt32_short
       by (cbn [dec d_in d_i]; unfold maxCursor; first [lia | exact Hv]));
    cbv beta iota;
    (rewrite bind_readCStr_past by (cbn [dec d_in d_i set_i]; lia));
    split; reflexivity.
Qed.

End HeaderRoundTrip.

(** ** The extractors on framed messages *)

Section Extractors.
Context {E : Env}.

Lemma is_header_buffer (hdr body more : list byte) (opcode : Z) :
  is_header hdr body opcode ->
  declaredLength (hdr ++ body ++ more) = Z.of_nat (length (hdr ++ body))
  /\ le_value (bytes_at (hdr ++ body ++ more) 12 4) = opcode
  /\ Z.of_nat (length (hdr ++ body)) < 4294967296.
Proof.
  intros (H16 & Hd & Hop). unfold declaredLength in *.
  rewrite !bytes_at_app_l by lia.
  split; [exact Hd |]. split; [exact Hop |].
  rewrite <- Hd. apply le_value_4_range.
Qed.

(** From the parser to the dispatcher, on a framed message. *)
Lemma framed_run (hdr body more spare : list byte) (m : MongodbMessage)
    (opcode : Z) (name : string) :
  is_header hdr body opcode -> OpCodes opcode = Some name ->
  let buf := hdr ++ body ++ more in
  let v := view buf spare (Z.of_nat (length (hdr ++ body))) in
  len v <= cap v /\ len v < maxCursor
  /\ arr v = hdr ++ body ++ more ++ spare
  /\ mongodbMessageParser (stream_of hdr body more spare m)
     = (fst (dispatch (at_ v hdr (with_opCode name (with_header buf spare m)))),
        {| data := slice_of buf spare;
           message :=
             msg (snd (dispatch
                         (at_ v hdr (with_opCode name (with_header buf spare m))))) |}).
Proof.
  intros Hhdr Hname buf v.
  destruct (is_header_buffer hdr body more opcode Hhdr) as (Hd & Hop & Hr).
  destruct Hhdr as (H16 & _ & _).
  assert (Hlen : Z.of_nat (length buf)
                 = Z.of_nat (length (hdr ++ body)) + Z.of_nat (length more)).
  { unfold buf. rewrite !length_app. lia. }
  assert (Hb : 16 <= Z.of_nat (length (hdr ++ body))).
  { rewrite length_app. lia. }
  split; [unfold v, view, cap, buf; cbn [arr len]; rewrite !length_app; lia |].
  split; [unfold v, view, maxCursor; cbn [len]; lia |].
  split; [unfold v, view, buf; cbn [arr]; rewrite <- !app_assoc; reflexivity |].
  unfold stream_of. fold buf.
  rewrite mongodbMessageParser_parse. cbn [data message].
  rewrite parse_framed by (fold buf in Hd; lia). cbv zeta.
  fold buf in Hd, Hop. rewrite Hd. fold v.
  assert (H12 : int32_at v 12 = opcode).
  { unfold v. rewrite int32_at_view by lia. exact Hop. }
  rewrite H12, Hname.
  unfold at_. replace (Z.of_nat (length hdr)) with 16 by lia.
  reflexivity.
Qed.

Lemma dispatch_msg (d : decoder) (m : MongodbMessage) :
  dispatch {| dec := d; msg := with_opCode "OP_MSG" m |}
  = opMsgParse {| dec := d; msg := set_method "msg" (with_opCode "OP_MSG" m) |}.
Proof. reflexivity. Qed.

Lemma dispatch_update (d : decoder) (m : MongodbMessage) :
  dispatch {| dec := d; msg := with_opCode "OP_UPDATE" m |}
  = opUpdateParse {| dec := d; msg := set_method "update" (with_opCode "OP_UPDATE" m) |}.
Proof. reflexivity. Qed.

Lemma dispatch_insert (d : decoder) (m : MongodbMessage) :
  dispatch {| dec := d; msg := with_opCode "OP_INSERT" m |}
  = opInsertParse {| dec := d; msg := set_method "insert" (with_opCode "OP_INSERT" m) |}.
Proof. reflexivity. Qed.

Lemma dispatch_get_more (d : decoder) (m : MongodbMessage) :
  dispatch {| dec := d; msg := with_opCode "OP_GET_MORE" m |}
  = opGetMoreParse
      {| dec := d;
         msg := set_ExpectsResponse true
                  (set_method "getMore" (with_opCode "OP_GET_MORE" m)) |}.
Proof. reflexivity. Qed.

Lemma dispatch_delete (d : decoder) (m : MongodbMessage) :
  dispatch {| dec := d; msg := with_opCode "OP_DELETE" m |}
  = opDeleteParse {| dec := d; msg := set_method "delete" (with_opCode "OP_DELETE" m) |}.
Proof. reflexivity. Qed.

Lemma dispatch_kill_cursors (d : decoder) (m : MongodbMessage) :
  dispatch {| dec := d; msg := with_opCode "OP_KILL_CURSORS" m |}
  = (Val (true, true),
     {| dec := d; msg := set_method "killCursors" (with_opCode "OP_KILL_CURSORS" m) |}).
Proof. reflexivity. Qed.

(** X9. OP_KILL_CURSORS: whatever the body holds, the parser returns
    [(true, true)] with the method "killCursors" and an empty event; the
    body is not read. *)
Theorem kill_cursors_reads_nothing (hdr body more spare : list byte)
    (m : MongodbMessage) :
  is_header hdr body 2007 ->
  let r := mongodbMessageParser (stream_of hdr body more spare m) in
  fst r = Val (true, true)
  /\ event (message (snd r)) = ∅
  /\ method (message (snd r)) = "killCursors".
Proof.
  intros Hhdr r. subst r.
  destruct (framed_run hdr body more spare m 2007 "OP_KILL_CURSORS" Hhdr eq_refl)
    as (_ & _ & _ & ->).
  unfold at_. rewrite dispatch_kill_cursors. repeat split.
Qed.

(** X10. OP_MSG with a terminated text: the parser returns [(true, true)] and the
    event holds the text before the first NUL, whatever follows it. *)
Theorem msg_text (hdr text tail more spare : list byte) (m : MongodbMessage) :
  is_header hdr ((text ++ [x00]) ++ tail) 1000 -> ~ In x00 text ->
  let r := mongodbMessageParser
             (stream_of hdr ((text ++ [x00]) ++ tail) more spare m) in
  fst r = Val (true, true)
  /\ event (message (snd r)) = {[ "message" := EString (string_of_list_byte text) ]}
  /\ method (message (snd r)) = "msg".
Proof.
  intros Hhdr Hnul r. subst r.
  destruct (framed_run hdr _ more spare m 1000 "OP_MSG" Hhdr eq_refl)
    as (Hcap & Hmax & Harr & ->).
  set (v := view _ spare _) in *. set (m0 := with_header _ spare m).
  assert (Hrun : dispatch (at_ v hdr (with_opCode "OP_MSG" m0))
                 = (Val (true, true),
                    at_ v (hdr ++ text ++ [x00])
                      (put_event "message" (EString (string_of_list_byte text))
                         (set_method "msg" (with_opCode "OP_MSG" m0))))).
  { unfold at_ at 1. rewrite dispatch_msg.
    fold (at_ v hdr (set_method "msg" (with_opCode "OP_MSG" m0))).
    unfold opMsgParse.
    step (readCStr_at v Hcap (Z.lt_le_incl _ _ Hmax) hdr text (tail ++ more ++ spare));
      [| layout Harr | exact Hnul
       | cbn [v view len]; rewrite !length_app; cbn [length]; lia].
    step setMsg_at. rewrite finish_at. reflexivity. }
  rewrite Hrun. repeat split.
Qed.

Lemma onDecoder_readCStr_unterminated (v : slice) (pre body rest : list byte)
    (m : MongodbMessage) :
  len v <= cap v -> len v < maxCursor ->
  arr v = pre ++ body ++ rest -> ~ In x00 body ->
  Z.of_nat (length (pre ++ body)) = len v ->
  onDecoder readCStr (at_ v pre m)
  = (Val ("", Some ErrCStr), {| dec := {| d_in := v; d_i := len v + 1 |}; msg := m |}).
Proof.
  intros Hcap Hmax Harr Hnul Hlen. unfold onDecoder, at_. cbn [dec msg].
  unfold readCStr. exec.
  rewrite (scanCStr_no_nul v Hmax body _ pre rest Harr Hnul Hlen)
    by (rewrite length_app in Hlen; lia).
  exec. rewrite int_add_cursor by (unfold maxCursor in *; lia).
  replace (len v + 1 >? len v) with true by (symmetry; apply Z.gtb_lt; lia).
  reflexivity.
Qed.

(** X11. OP_MSG whose body has no NUL: the parser returns [(false, false)] and
    the event holds the empty string under "message". *)
Theorem msg_without_terminator (hdr body more spare : list byte)
    (m : MongodbMessage) :
  is_header hdr body 1000 -> ~ In x00 body ->
  let r := mongodbMessageParser (stream_of hdr body more spare m) in
  fst r = Val (false, false)
  /\ event (message (snd r)) = {[ "message" := EString "" ]}.
Proof.
  intros Hhdr Hnul r. subst r.
  destruct (framed_run hdr _ more spare m 1000 "OP_MSG" Hhdr eq_refl)
    as (Hcap & Hmax & Harr & ->).
  set (v := view _ spare _) in *. set (m0 := with_header _ spare m).
  assert (Hrun : dispatch (at_ v hdr (with_opCode "OP_MSG" m0))
                 = (Val (false, false),
                    {| dec := {| d_in := v; d_i := len v + 1 |};
                       msg := put_event "message" (EString "")
                                (set_method "msg" (with_opCode "OP_MSG" m0)) |})).
  { unfold at_ at 1. rewrite dispatch_msg.
    fold (at_ v hdr (set_method "msg" (with_opCode "OP_MSG" m0))).
    unfold opMsgParse.
    step (onDecoder_readCStr_unterminated v hdr body (more ++ spare));
      [| exact Hcap | exact Hmax | exact Harr | exact Hnul | reflexivity].
    unfold bind at 1. cbn [setMsg modify dec msg]. rewrite finish_at.
    reflexivity. }
  rewrite Hrun. repeat split.
Qed.

End Extractors.

Section ExtractorFields.
Context {E : Env}.

(** X12. OP_INSERT: the parser returns [(true, true)] once the flags and the
    terminated collection name are there; the event holds the collection
    name and nothing else, whatever bytes (the documents to insert) follow
    the name. *)
Theorem insert_reads_the_name_only (hdr flags name docs more spare : list byte)
    (m : MongodbMessage) :
  is_header hdr (flags ++ (name ++ [x00]) ++ docs) 2002 ->
  length flags = 4%nat -> ~ In x00 name ->
  let r := mongodbMessageParser
             (stream_of hdr (flags ++ (name ++ [x00]) ++ docs) more spare m) in
  fst r = Val (true, true)
  /\ event (message (snd r))
     = {[ "fullCollectionName" := EString (string_of_list_byte name) ]}
  /\ method (message (snd r)) = "insert".
Proof.
  intros Hhdr Hf Hnul r. subst r.
  destruct (framed_run hdr _ more spare m 2002 "OP_INSERT" Hhdr eq_refl)
    as (Hcap & Hmax & Harr & ->).
  set (v := view _ spare _) in *. set (m0 := with_header _ spare m).
  assert (Hle : len v <= maxCursor) by lia.
  assert (Hrun : dispatch (at_ v hdr (with_opCode "OP_INSERT" m0))
                 = (Val (true, true),
                    at_ v ((hdr ++ flags) ++ name ++ [x00])
                      (put_event "fullCollectionName"
                         (EString (string_of_list_byte name))
                         (set_method "insert" (with_opCode "OP_INSERT" m0))))).
  { unfold at_ at 1. rewrite dispatch_insert.
    fold (at_ v hdr (set_method "insert" (with_opCode "OP_INSERT" m0))).
    unfold opInsertParse.
    step (readInt32_at v Hcap Hle hdr flags (((name ++ [x00]) ++ docs) ++ more ++ spare));
      [| layout Harr | exact Hf
       | cbn [v view len]; rewrite !length_app; cbn [length]; lia].
    step (readCStr_at v Hcap Hle (hdr ++ flags) name (docs ++ more ++ spare));
      [| layout Harr | exact Hnul
       | cbn [v view len]; rewrite !length_app; cbn [length]; lia].
    step setMsg_at. rewrite finish_at. reflexivity. }
  rewrite Hrun. repeat split.
Qed.

(** X13. OP_GET_MORE laid out as the protocol has it: the parser returns
    [(true, true)] and the event holds the collection name, the number to
    return (unsigned) and the cursor id (signed, 64 bits). *)
Theorem get_more_fields (hdr zero name ntr cursor tail more spare : list byte)
    (m : MongodbMessage) :
  is_header hdr (zero ++ (name ++ [x00]) ++ ntr ++ cursor ++ tail) 2005 ->
  length zero = 4%nat -> ~ In x00 name ->
  length ntr = 4%nat -> length cursor = 8%nat ->
  let r := mongodbMessageParser
             (stream_of hdr (zero ++ (name ++ [x00]) ++ ntr ++ cursor ++ tail)
                        more spare m) in
  fst r = Val (true, true)
  /\ event (message (snd r))
     = <[ "cursorId" := EInt (signed 64 (le_value cursor)) ]>
         (<[ "numberToReturn" := EInt (le_value ntr) ]>
            {[ "fullCollectionName" := EString (string_of_list_byte name) ]})
  /\ method (message (snd r)) = "getMore"
  /\ ExpectsResponse (message (snd r)) = true.
Proof.
  intros Hhdr Hz Hnul Hn Hc r. subst r.
  destruct (framed_run hdr _ more spare m 2005 "OP_GET_MORE" Hhdr eq_refl)
    as (Hcap & Hmax & Harr & ->).
  set (v := view _ spare _) in *. set (m0 := with_header _ spare m).
  assert (Hle : len v <= maxCursor) by lia.
  set (m1 := set_ExpectsResponse true
               (set_method "getMore" (with_opCode "OP_GET_MORE" m0))).
  assert (Hrun : dispatch (at_ v hdr (with_opCode "OP_GET_MORE" m0))
                 = (Val (true, true),
                    at_ v ((((hdr ++ zero) ++ name ++ [x00]) ++ ntr) ++ cursor)
                      (put_event "cursorId" (EInt (signed 64 (le_value cursor)))
                         (put_event "numberToReturn" (EInt (le_value ntr))
                            (put_event "fullCollectionName"
                               (EString (string_of_list_byte name)) m1))))).
  { unfold at_ at 1. rewrite dispatch_get_more. fold m1. fold (at_ v hdr m1).
    unfold opGetMoreParse.
    step (readInt32_at v Hcap Hle hdr zero
            (((name ++ [x00]) ++ ntr ++ cursor ++ tail) ++ more ++ spare));
      [| layout Harr | exact Hz
       | cbn [v view len]; rewrite !length_app; cbn [length]; lia].
    step (readCStr_at v Hcap Hle (hdr ++ zero) name
            ((ntr ++ cursor ++ tail) ++ more ++ spare));
      [| layout Harr | exact Hnul
       | cbn [v view len]; rewrite !length_app; cbn [length]; lia].
    step setMsg_at.
    step (readInt32_at v Hcap Hle ((hdr ++ zero) ++ name ++ [x00]) ntr
            ((cursor ++ tail) ++ more ++ spare));
      [| layout Harr | exact Hn
       | cbn [v view len]; rewrite !length_app; cbn [length]; lia].
    step setMsg_at.
    step (readInt64_at v Hcap Hle (((hdr ++ zero) ++ name ++ [x00]) ++ ntr) cursor
            (tail ++ more ++ spare));
      [| layout Harr | exact Hc
       | cbn [v view len]; rewrite !length_app; cbn [length]; lia].
    step setMsg_at. rewrite finish_at. reflexivity. }
  rewrite Hrun. repeat split.
Qed.

(** X14. OP_UPDATE laid out as the protocol has it, with two documents that carry
    the length they declare: the event holds the texts of both, and the
    verdict of the parser is the one of the conversion of the update
    document alone; whether the selector is a valid document plays no
    part. *)
Theorem update_verdict_is_the_last_conversion
    (hdr zero name flags sel upd tail more spare : list byte) (m : MongodbMessage) :
  is_header hdr (zero ++ (name ++ [x00]) ++ flags ++ sel ++ upd ++ tail) 2001 ->
  length zero = 4%nat -> ~ In x00 name -> length flags = 4%nat ->
  framed_document sel -> framed_document upd ->
  let r := mongodbMessageParser
             (stream_of hdr (zero ++ (name ++ [x00]) ++ flags ++ sel ++ upd ++ tail)
                        more spare m) in
  fst r = Val (match text_err upd with
               | Some _ => (false, false)
               | None => (true, true)
               end)
  /\ event (message (snd r))
     = <[ "update" := EString (text_of upd) ]>
         (<[ "selector" := EString (text_of sel) ]>
            {[ "fullCollectionName" := EString (string_of_list_byte name) ]}).
Proof.
  intros Hhdr Hz Hnul Hf Hsel Hupd r. subst r.
  destruct (framed_run hdr _ more spare m 2001 "OP_UPDATE" Hhdr eq_refl)
    as (Hcap & Hmax & Harr & ->).
  set (v := view _ spare _) in *. set (m0 := with_header _ spare m).
  assert (Hle : len v <= maxCursor) by lia.
  set (m1 := set_method "update" (with_opCode "OP_UPDATE" m0)).
  assert (Hrun : dispatch (at_ v hdr (with_opCode "OP_UPDATE" m0))
                 = (Val (match text_err upd with
                         | Some _ => (false, false)
                         | None => (true, true)
                         end),
                    at_ v (((((hdr ++ zero) ++ name ++ [x00]) ++ flags) ++ sel) ++ upd)
                      (put_event "update" (EString (text_of upd))
                         (put_event "selector" (EString (text_of sel))
                            (put_event "fullCollectionName"
                               (EString (string_of_list_byte name)) m1))))).
  { unfold at_ at 1. rewrite dispatch_update. fold m1. fold (at_ v hdr m1).
    unfold opUpdateParse.
    step (readInt32_at v Hcap Hle hdr zero
            (((name ++ [x00]) ++ flags ++ sel ++ upd ++ tail) ++ more ++ spare));
      [| layout Harr | exact Hz
       | cbn [v view len]; rewrite !length_app; cbn [length]; lia].
    step (readCStr_at v Hcap Hle (hdr ++ zero) name
            ((flags ++ sel ++ upd ++ tail) ++ more ++ spare));
      [| layout Harr | exact Hnul
       | cbn [v view len]; rewrite !length_app; cbn [length]; lia].
    step setMsg_at.
    step (readInt32_at v Hcap Hle ((hdr ++ zero) ++ name ++ [x00]) flags
            ((sel ++ upd ++ tail) ++ more ++ spare));
      [| layout Harr | exact Hf
       | cbn [v view len]; rewrite !length_app; cbn [length]; lia].
    step (readDocumentStr_at v Hcap Hle (((hdr ++ zero) ++ name ++ [x00]) ++ flags)
            sel ((upd ++ tail) ++ more ++ spare));
      [| layout Harr | exact Hsel
       | cbn [v view len]; rewrite !length_app; cbn [length]; lia].
    destruct (doc2str (OfMap (fst (decoded sel)))) as [st se] eqn:Hst.
    step setMsg_at.
    step (readDocumentStr_at v Hcap Hle
            ((((hdr ++ zero) ++ name ++ [x00]) ++ flags) ++ sel)
            upd (tail ++ more ++ spare));
      [| layout Harr | exact Hupd
       | cbn [v view len]; rewrite !length_app; cbn [length]; lia].
    unfold text_err, text_of. rewrite Hst.
    destruct (doc2str (OfMap (fst (decoded upd)))) as [ut ue] eqn:Hut.
    step setMsg_at. rewrite finish_at. reflexivity. }
  rewrite Hrun. repeat split.
Qed.

(** X15. OP_DELETE laid out as the protocol has it: the event holds the
    collection name and the text of the selector, and the verdict is the one
    of the conversion of the selector. *)
Theorem delete_fields (hdr zero name flags sel tail more spare : list byte)
    (m : MongodbMessage) :
  is_header hdr (zero ++ (name ++ [x00]) ++ flags ++ sel ++ tail) 2006 ->
  length zero = 4%nat -> ~ In x00 name -> length flags = 4%nat ->
  framed_document sel ->
  let r := mongodbMessageParser
             (stream_of hdr (zero ++ (name ++ [x00]) ++ flags ++ sel ++ tail)
                        more spare m) in
  fst r = Val (match text_err sel with
               | Some _ => (false, false)
               | None => (true, true)
               end)
  /\ event (message (snd r))
     = <[ "selector" := EString (text_of sel) ]>
         {[ "fullCollectionName" := EString (string_of_list_byte name) ]}
  /\ method (message (snd r)) = "delete".
Proof.
  intros Hhdr Hz Hnul Hf Hsel r. subst r.
  destruct (framed_run hdr _ more spare m 2006 "OP_DELETE" Hhdr eq_refl)
    as (Hcap & Hmax & Harr & ->).
  set (v := view _ spare _) in *. set (m0 := with_header _ spare m).
  assert (Hle : len v <= maxCursor) by lia.
  set (m1 := set_method "delete" (with_opCode "OP_DELETE" m0)).
  assert (Hrun : dispatch (at_ v hdr (with_opCode "OP_DELETE" m0))
                 = (Val (match text_err sel with
                         | Some _ => (false, false)
                         | None => (true, true)
                         end),
                    at_ v ((((hdr ++ zero) ++ name ++ [x00]) ++ flags) ++ sel)
                      (put_event "selector" (EString (text_of sel))
                         (put_event "fullCollectionName"
                            (EString (string_of_list_byte name)) m1)))).
  { unfold at_ at 1. rewrite dispatch_delete. fold m1. fold (at_ v hdr m1).
    unfold opDeleteParse.
    step (readInt32_at v Hcap Hle hdr zero
            (((name ++ [x00]) ++ flags ++ sel ++ tail) ++ more ++ spare));
      [| layout Harr | exact Hz
       | cbn [v view len]; rewrite !length_app; cbn [length]; lia].
    step (readCStr_at v Hcap Hle (hdr ++ zero) name
            ((flags ++ sel ++ tail) ++ more ++ spare));
      [| layout Harr | exact Hnul
       | cbn [v view len]; rewrite !length_app; cbn [length]; lia].
    step setMsg_at.
    step (readInt32_at v Hcap Hle ((hdr ++ zero) ++ name ++ [x00]) flags
            ((sel ++ tail) ++ more ++ spare));
      [| layout Harr | exact Hf
       | cbn [v view len]; rewrite !length_app; cbn [length]; lia].
    step (readDocumentStr_at v Hcap Hle (((hdr ++ zero) ++ name ++ [x00]) ++ flags)
            sel (tail ++ more ++ spare));
      [| layout Harr | exact Hsel
       | cbn [v view len]; rewrite !length_app; cbn [length]; lia].
    unfold text_err, text_of.
    destruct (doc2str (OfMap (fst (decoded sel)))) as [st se] eqn:Hst.
    step setMsg_at. rewrite finish_at. reflexivity. }
  rewrite Hrun. repeat split.
Qed.

End ExtractorFields.

Section QueryAndReplyFields.
Context {E : Env}.

(** X16. OP_QUERY laid out as the protocol has it: the event holds the collection
    name, the two numbers and the text of the query, and it holds
    "returnFieldsSelector" exactly when bytes are left behind the query
    document. *)
Theorem query_event (hdr flags name skip ret_ qdoc sel more spare : list byte)
    (m : MongodbMessage) :
  is_header hdr (flags ++ (name ++ [x00]) ++ skip ++ ret_ ++ qdoc ++ sel) 2004 ->
  length flags = 4%nat -> ~ In x00 name ->
  length skip = 4%nat -> length ret_ = 4%nat ->
  framed_document qdoc -> sel = [] \/ framed_document sel ->
  let r := mongodbMessageParser
             (stream_of hdr (flags ++ (name ++ [x00]) ++ skip ++ ret_ ++ qdoc ++ sel)
                        more spare m) in
  let ev := event (message (snd r)) in
  ev !! "fullCollectionName" = Some (EString (string_of_list_byte name))
  /\ ev !! "numberToSkip" = Some (EInt (le_value skip))
  /\ ev !! "numberToReturn" = Some (EInt (le_value ret_))
  /\ ev !! "query" = Some (EString (text_of qdoc))
  /\ ev !! "returnFieldsSelector"
     = match sel with
       | [] => None
       | _ :: _ => Some (EString (text_of sel))
       end
  /\ ExpectsResponse (message (snd r)) = true.
Proof.
  intros Hhdr Hf Hnul Hs Hr Hq Hsel r ev. subst ev r.
  destruct (framed_run hdr _ more spare m 2004 "OP_QUERY" Hhdr eq_refl)
    as (Hcap & Hmax & Harr & ->).
  set (v := view _ spare _) in *. set (m0 := with_header _ spare m).
  assert (Hle : len v <= maxCursor) by lia.
  assert (Hrun : dispatch (at_ v hdr (with_opCode "OP_QUERY" m0))
                 = opQueryParse
                     (at_ v hdr (set_ExpectsResponse true (with_opCode "OP_QUERY" m0)))).
  { unfold at_. apply dispatch_query. }
  rewrite Hrun.
  rewrite (opQueryParse_at v hdr flags name skip ret_ qdoc sel (more ++ spare));
    [ | exact Hcap | exact Hle
      | rewrite Harr, <- !app_assoc; reflexivity
      | assumption | assumption | assumption | assumption | assumption
      | assumption
      | cbn [v view len]; rewrite !length_app; reflexivity ].
  cbn [snd message at_ msg].
  destruct sel as [| b0 sel0]; cbn [with_selector];
    unfold put_event;
    cbn [event set_method set_event set_ExpectsResponse set_IsResponse
         set_opCode with_opCode ExpectsResponse];
    repeat split;
    rewrite ?lookup_insert_ne by discriminate;
    first [apply lookup_insert_eq | apply lookup_empty].
Qed.

End QueryAndReplyFields.

Section TruncatedReply.
Context {E : Env}.

(** X17. OP_REPLY whose body is shorter than the twenty bytes of its fixed
    fields: the read of [numberReturned] fails with the value 0, no document
    is read, and the parser returns [(false, false)] with an empty list of
    documents; it does not panic. *)
Theorem truncated_reply (hdr body more spare : list byte) (m : MongodbMessage) :
  is_header hdr body 1 -> (length body < 20)%nat ->
  let r := mongodbMessageParser (stream_of hdr body more spare m) in
  fst r = Val (false, false)
  /\ event (message (snd r)) !! "documents" = Some (EStrings [])
  /\ event (message (snd r)) !! "numberReturned" = Some (EInt 0).
Proof.
  intros Hhdr Hshort r. subst r.
  destruct (framed_run hdr _ more spare m 1 "OP_REPLY" Hhdr eq_refl)
    as (Hcap & Hmax & Harr & ->).
  destruct Hhdr as (H16 & _ & _).
  set (v := view _ spare _) in *. set (m0 := with_header _ spare m).
  assert (Hlen : len v < 36).
  { cbn [v view len]. rewrite length_app. lia. }
  assert (Hrun : exists d' c s0,
            dispatch (at_ v hdr (with_opCode "OP_REPLY" m0))
            = (Val (false, false),
               {| dec := d';
                  msg := put_event "documents" (EStrings [])
                           (put_event "numberReturned" (EInt 0)
                              (put_event "startingFrom" (EInt s0)
                                 (put_event "cursorId" (EInt c)
                                    (set_IsResponse true
                                       (with_opCode "OP_REPLY" m0))))) |})).
  { unfold at_. rewrite dispatch_reply. unfold opReplyParse.
    replace (Z.of_nat (length hdr)) with 16 by lia.
    unfold bind at 1.
    rewrite onDecoder_readInt32 by (cbn [dec d_in d_i set_i]; unfold maxCursor in *; lia).
    cbv beta iota. cbn [dec msg d_in d_i set_i].
    unfold bind at 1.
    rewrite onDecoder_readInt64 by (cbn [dec d_in d_i set_i]; unfold maxCursor in *; lia).
    cbv beta iota. cbn [dec msg d_in d_i set_i].
    unfold bind at 1. cbn [setMsg modify dec msg].
    unfold bind at 1.
    rewrite onDecoder_readInt32 by (cbn [dec d_in d_i set_i]; unfold maxCursor in *; lia).
    cbv beta iota. cbn [dec msg d_in d_i set_i].
    unfold bind at 1. cbn [setMsg modify dec msg].
    unfold bind at 1.
    rewrite onDecoder_readInt32 by (cbn [dec d_in d_i set_i]; unfold maxCursor in *; lia).
    cbv beta iota. cbn [dec msg d_in d_i set_i].
    change (16 + 4 + 8 + 4) with 32.
    destruct (int32_at_short v 32) as [-> ->]; [lia |].
    unfold bind at 1. cbn [setMsg modify dec msg].
    unfold bind at 1. cbn [liftRes make_strings Z.ltb Z.compare Z.to_nat replicate].
    unfold bind at 1. cbn [replyLoop ret].
    unfold bind at 1. cbn [setMsg modify dec msg finish ret].
    eexists _, _, _. reflexivity. }
  destruct Hrun as (d' & c & s0 & ->).
  cbn [fst snd message msg]. unfold put_event. cbn [event set_event].
  split; [reflexivity |]. split.
  - apply lookup_insert_eq.
  - rewrite lookup_insert_ne by discriminate. apply lookup_insert_eq.
Qed.

(** X18. [readDocumentStr] never reports the error of the document decoder:
    whenever the declared bytes lie within the capacity it returns the text
    that [doc2str] gives for the decoded document, or for the nil map when
    the bytes are not a document, and its error is the one of [doc2str]. *)
Theorem readDocumentStr_drops_the_decode_error (d : decoder) :
  0 <= d_i d <= maxCursor -> len (d_in d) <= cap (d_in d) ->
  d_i d + int32_at (d_in d) (d_i d) <= cap (d_in d) ->
  readDocumentStr d
  = (Val (doc2str (OfMap (bsonUnmarshal (designated d)))),
     set_i (d_i d + int32_at (d_in d) (d_i d)) d)
  /\ snd (doc2str (OfMap (bsonUnmarshal (designated d)))) <> Some ErrUnmarshal
  /\ (snd (doc2str (OfMap (bsonUnmarshal (designated d)))) = None
      <-> jsonMarshal (OfMap (bsonUnmarshal (designated d))) <> None).
Proof.
  intros Hi Hcap Hin. split; [| split].
  - unfold readDocumentStr, bind. rewrite readDocument_spec by assumption.
    replace (d_i d + int32_at (d_in d) (d_i d) <=? cap (d_in d)) with true
      by (symmetry; apply Z.leb_le; exact Hin).
    unfold decoded. destruct (bsonUnmarshal (designated d)); reflexivity.
  - unfold doc2str. destruct (jsonMarshal _); cbn [snd]; discriminate.
  - unfold doc2str. destruct (jsonMarshal _); cbn [snd];
      split; intros H; congruence.
Qed.

End TruncatedReply.

(** ** The cursor only moves forward *)

Lemma scanCStr_bounds (inp : slice) :
  len inp < maxCursor ->
  forall (fuel : nat) (e e' : Z),
    scanCStr fuel inp (len inp) e = Val e' ->
    e <= e' /\ (e' = e \/ e' <= len inp).
Proof.
  intros Hmax fuel. induction fuel as [| fuel IH]; intros e e' H;
    cbn [scanCStr] in H;
    (destruct (e =? len inp) eqn:He;
     [injection H as <-; lia |]);
    unfold index in H;
    (destruct ((0 <=? e) && (e <? len inp)) eqn:Hin; [| discriminate H]);
    apply andb_true_iff in Hin; destruct Hin as [H0 H1];
    apply Z.leb_le in H0; apply Z.ltb_lt in H1;
    (destruct (arr inp !! Z.to_nat e) as [b |]; [| discriminate H]);
    (destruct (Byte.eqb b x00); [injection H as <-; lia |]).
  - discriminate H.
  - rewrite int_add_cursor in H by (unfold maxCursor in *; lia).
    apply IH in H. lia.
Qed.

(** X19. Every read of the primitive reader leaves the window as it is and the
    cursor where it was or further: no read moves the cursor back. *)
Theorem cursor_never_moves_back (E : Env) (d : decoder) :
  0 <= d_i d < maxCursor ->
  len (d_in d) <= cap (d_in d) -> len (d_in d) < maxCursor ->
  (d_in (snd (readInt32 d)) = d_in d /\ d_i (snd (readInt32 d)) = d_i d + 4)
  /\ (d_in (snd (readInt64 d)) = d_in d /\ d_i (snd (readInt64 d)) = d_i d + 8)
  /\ (d_in (snd (readCStr d)) = d_in d /\ d_i d <= d_i (snd (readCStr d)))
  /\ (d_in (snd (readDocument d)) = d_in d /\ d_i d <= d_i (snd (readDocument d))).
Proof.
  intros Hi Hcap Hmax.
  split; [| split; [| split]].
  - rewrite readInt32_spec by lia. split; reflexivity.
  - rewrite readInt64_spec by lia. split; reflexivity.
  - unfold readCStr. exec.
    destruct (scanCStr _ (d_in d) (len (d_in d)) (d_i d)) as [e |] eqn:Hscan.
    + apply scanCStr_bounds in Hscan; [| exact Hmax].
      exec. rewrite int_add_cursor by (unfold maxCursor in *; lia).
      destruct (e + 1 >? len (d_in d)).
      * cbn [ret snd set_i d_in d_i]. split; [reflexivity | lia].
      * unfold bind, liftRes.
        destruct (subslice (d_in d) (d_i d) e); cbn [ret snd set_i d_in d_i];
          (split; [reflexivity | lia]).
    + cbn [snd]. split; [reflexivity | lia].
  - rewrite readDocument_spec by lia. cbn [snd set_i d_in d_i].
    pose proof (int32_at_range (d_in d) (d_i d)). split; [reflexivity | lia].
Qed.

(** ** Messages without documents are read from their own bytes *)

Lemma same_window_index (s s' : slice) (i : Z) :
  same_window s s' -> index s i = index s' i.
Proof.
  intros [Hlen Htake]. unfold index. rewrite <- Hlen.
  destruct ((0 <=? i) && (i <? len s)) eqn:Hin; [| reflexivity].
  apply andb_true_iff in Hin. destruct Hin as [H0 H1].
  apply Z.leb_le in H0. apply Z.ltb_lt in H1.
  rewrite <- (lookup_take_lt (arr s) (Z.to_nat (len s))) by lia.
  rewrite <- (lookup_take_lt (arr s') (Z.to_nat (len s))) by lia.
  rewrite Htake, <- Hlen. reflexivity.
Qed.

Lemma same_window_subslice (s s' : slice) (lo hi : Z) :
  same_window s s' -> len s <= cap s -> len s' <= cap s' -> hi <= len s ->
  subslice s lo hi = subslice s' lo hi.
Proof.
  intros [Hlen Htake] Hc Hc' Hhi. unfold subslice.
  destruct (0 <=? lo) eqn:H0; [| reflexivity].
  destruct (lo <=? hi) eqn:H1; [| reflexivity].
  apply Z.leb_le in H0. apply Z.leb_le in H1.
  replace (hi <=? cap s) with true by (symmetry; apply Z.leb_le; lia).
  replace (hi <=? cap s') with true by (symmetry; apply Z.leb_le; lia).
  cbn [andb]. f_equal.
  fold (bytes_at (arr s) (Z.to_nat lo) (Z.to_nat (hi - lo))).
  fold (bytes_at (arr s') (Z.to_nat lo) (Z.to_nat (hi - lo))).
  rewrite <- (bytes_at_take (arr s) (Z.to_nat (len s))) by lia.
  rewrite <- (bytes_at_take (arr s') (Z.to_nat (len s))) by lia.
  rewrite Htake, <- Hlen. reflexivity.
Qed.

Lemma same_view_set_i (d d' : decoder) (i : Z) :
  same_view d d' -> same_view (set_i i d) (set_i i d').
Proof. intros (_ & Hw & Hc & Hc'). repeat split; try assumption; apply Hw. Qed.

Lemma window_only_ret {A} (a : A) : window_only (ret a).
Proof. intros d d' H. split; [reflexivity | exact H]. Qed.

Lemma window_only_liftRes {A} (r : res A) : window_only (liftRes r).
Proof. intros d d' H. split; [reflexivity | exact H]. Qed.

Lemma window_only_bind {A B} (c : M decoder A) (k : A -> M decoder B) :
  window_only c -> (forall a, window_only (k a)) -> window_only (bind c k).
Proof.
  intros Hc Hk d d' H. unfold bind. destruct (Hc d d' H) as [Hr Hs].
  destruct (c d) as [[a |] d1], (c d') as [[a' |] d1']; cbn [fst snd] in *;
    try discriminate Hr.
  - injection Hr as <-. apply Hk, Hs.
  - split; [reflexivity | exact Hs].
Qed.

Lemma window_only_readBytes (n : Z) : window_only (readBytes n).
Proof.
  intros d d' H. pose proof H as (Hi & Hw & Hc & Hc').
  unfold readBytes, bind, gets, modify, liftRes, ret. cbn [set_i d_i d_in].
  rewrite <- Hi. destruct Hw as [Hlen Htake]. rewrite <- Hlen.
  destruct (int_add (d_i d) (int_of n) >? len (d_in d)) eqn:Hgt.
  - cbn [fst snd]. split; [reflexivity |]. apply same_view_set_i, H.
  - rewrite Z.gtb_ltb, Z.ltb_ge in Hgt.
    rewrite (same_window_subslice (d_in d) (d_in d')) by (try split; assumption).
    destruct (subslice (d_in d') _ _); cbn [fst snd];
      (split; [reflexivity | apply same_view_set_i, H]).
Qed.

Lemma window_only_readInt32 : window_only readInt32.
Proof.
  unfold readInt32. apply window_only_bind; [apply window_only_readBytes |].
  intros [b [e |]]; [apply window_only_ret |].
  repeat (apply window_only_bind; [apply window_only_liftRes | intros ?]).
  apply window_only_ret.
Qed.

Lemma window_only_readInt64 : window_only readInt64.
Proof.
  unfold readInt64. apply window_only_bind; [apply window_only_readBytes |].
  intros [b [e |]]; [apply window_only_ret |].
  repeat (apply window_only_bind; [apply window_only_liftRes | intros ?]).
  apply window_only_ret.
Qed.

Lemma same_window_scanCStr (s s' : slice) :
  same_window s s' ->
  forall fuel e, scanCStr fuel s (len s) e = scanCStr fuel s' (len s') e.
Proof.
  intros Hw fuel. pose proof Hw as [Hlen _]. rewrite <- Hlen.
  induction fuel as [| fuel IH]; intros e; cbn [scanCStr];
    rewrite (same_window_index s s' e Hw);
    destruct (e =? len s); try reflexivity;
    destruct (index s' e); try reflexivity;
    destruct (Byte.eqb _ _); try reflexivity.
  apply IH.
Qed.

Lemma scanCStr_result_in_window (inp : slice) :
  forall (fuel : nat) (e e' : Z),
    scanCStr fuel inp (len inp) e = Val e' -> e' <= len inp.
Proof.
  induction fuel as [| fuel IH]; intros e e' H; cbn [scanCStr] in H;
    (destruct (e =? len inp) eqn:Heq;
     [apply Z.eqb_eq in Heq; injection H as <-; lia |]);
    unfold index in H;
    (destruct ((0 <=? e) && (e <? len inp)) eqn:Hin; [| discriminate H]);
    apply andb_true_iff in Hin; destruct Hin as [H0 H1];
    apply Z.ltb_lt in H1;
    (destruct (arr inp !! Z.to_nat e) as [b |]; [| discriminate H]);
    (destruct (Byte.eqb b x00); [injection H as <-; lia |]).
  - discriminate H.
  - apply IH in H. exact H.
Qed.

Lemma window_only_readCStr : window_only readCStr.
Proof.
  intros d d' H. pose proof H as (Hi & Hw & Hc & Hc').
  unfold readCStr, bind, gets, modify, liftRes, ret. cbn [set_i d_i d_in].
  rewrite <- (same_window_scanCStr _ _ Hw), <- Hi.
  pose proof Hw as [Hlen _]. rewrite <- Hlen.
  destruct (scanCStr _ (d_in d) (len (d_in d)) (d_i d)) as [e |] eqn:Hscan;
    [| split; [reflexivity | exact H]].
  apply scanCStr_result_in_window in Hscan.
  destruct (int_add e 1 >? len (d_in d)); cbv beta.
  - split; [reflexivity | apply same_view_set_i, H].
  - rewrite (same_window_subslice (d_in d) (d_in d')) by assumption.
    destruct (subslice (d_in d') _ _); cbn [fst snd];
      (split; [reflexivity | apply same_view_set_i, H]).
Qed.

Section OwnBytes.
Context {E : Env}.

Lemma window_only_state_ret {A} (a : A) : window_only_state (ret a).
Proof. intros s s' H. split; [reflexivity | exact H]. Qed.

Lemma window_only_state_bind {A B} (c : M state A) (k : A -> M state B) :
  window_only_state c -> (forall a, window_only_state (k a)) ->
  window_only_state (bind c k).
Proof.
  intros Hc Hk s s' H. unfold bind. destruct (Hc s s' H) as [Hr Hs].
  destruct (c s) as [[a |] s1], (c s') as [[a' |] s1']; cbn [fst snd] in *;
    try discriminate Hr.
  - injection Hr as <-. apply Hk, Hs.
  - split; [reflexivity | exact Hs].
Qed.

Lemma window_only_state_onDecoder {A} (c : M decoder A) :
  window_only c -> window_only_state (onDecoder c).
Proof.
  intros Hc s s' [Hv Hm]. unfold onDecoder. destruct (Hc _ _ Hv) as [Hr Hs].
  destruct (c (dec s)) as [r d1], (c (dec s')) as [r' d1']; cbn [fst snd] in *.
  split; [exact Hr |]. split; [exact Hs | exact Hm].
Qed.

Lemma window_only_state_setMsg (f : MongodbMessage -> MongodbMessage) :
  window_only_state (setMsg f).
Proof.
  intros s s' [Hv Hm]. unfold setMsg, modify. cbn [fst snd].
  split; [reflexivity |]. split; [exact Hv |]. cbn [msg]. rewrite Hm. reflexivity.
Qed.

Lemma window_only_state_finish (err : error_value) :
  window_only_state (finish err : M state (bool * bool)).
Proof. destruct err; apply window_only_state_ret. Qed.

Ltac own_bytes :=
  repeat first
    [ apply window_only_state_finish
    | apply window_only_state_ret
    | apply window_only_state_setMsg
    | apply window_only_state_onDecoder;
      first [ apply window_only_readInt32 | apply window_only_readInt64
            | apply window_only_readCStr ]
    | apply window_only_state_bind; [| intros [? ?] || intros ?] ].

Lemma window_only_state_opMsgParse : window_only_state opMsgParse.
Proof. unfold opMsgParse. own_bytes. Qed.

Lemma window_only_state_opInsertParse : window_only_state opInsertParse.
Proof. unfold opInsertParse. own_bytes. Qed.

Lemma window_only_state_opGetMoreParse : window_only_state opGetMoreParse.
Proof. unfold opGetMoreParse. own_bytes. Qed.

Lemma window_only_state_opKillCursorsParse : window_only_state opKillCursorsParse.
Proof. unfold opKillCursorsParse. own_bytes. Qed.

Lemma window_only_state_dispatch (s s' : state) :
  same_state s s' -> reads_documents (opCode (msg s)) = false ->
  fst (dispatch s) = fst (dispatch s')
  /\ same_state (snd (dispatch s)) (snd (dispatch s')).
Proof.
  intros H Hno. pose proof H as [_ Hm].
  unfold dispatch.
  match goal with |- context [bind (gets ?g) ?k] => set (G := g); set (K := k) end.
  unfold bind, gets. subst G. cbv beta iota. rewrite <- Hm. subst K. cbv beta.
  unfold reads_documents in Hno.
  destruct (String.eqb (opCode (msg s)) "OP_REPLY"); [discriminate Hno |].
  destruct (String.eqb (opCode (msg s)) "OP_MSG").
  { apply (window_only_state_bind (setMsg (set_method "msg"))
             (fun _ => opMsgParse));
      [own_bytes | intros _; apply window_only_state_opMsgParse | exact H]. }
  destruct (String.eqb (opCode (msg s)) "OP_UPDATE"); [discriminate Hno |].
  destruct (String.eqb (opCode (msg s)) "OP_INSERT").
  { apply (window_only_state_bind (setMsg (set_method "insert"))
             (fun _ => opInsertParse));
      [own_bytes | intros _; apply window_only_state_opInsertParse | exact H]. }
  destruct (String.eqb (opCode (msg s)) "OP_QUERY"); [discriminate Hno |].
  destruct (String.eqb (opCode (msg s)) "OP_GET_MORE").
  { apply (window_only_state_bind (setMsg (set_method "getMore"))
             (fun _ => _ <- setMsg (set_ExpectsResponse true) ;; opGetMoreParse));
      [own_bytes | intros _; own_bytes; apply window_only_state_opGetMoreParse
      | exact H]. }
  destruct (String.eqb (opCode (msg s)) "OP_DELETE"); [discriminate Hno |].
  destruct (String.eqb (opCode (msg s)) "OP_KILL_CURSORS").
  { apply (window_only_state_bind (setMsg (set_method "killCursors"))
             (fun _ => opKillCursorsParse));
      [own_bytes | intros _; apply window_only_state_opKillCursorsParse
      | exact H]. }
  split; [reflexivity | exact H].
Qed.

Lemma with_header_own (hdr body more spare more' spare' : list byte)
    (m : MongodbMessage) (opcode : Z) :
  is_header hdr body opcode ->
  with_header (hdr ++ body ++ more) spare m
  = with_header (hdr ++ body ++ more') spare' m.
Proof.
  intros Hhdr.
  destruct (is_header_buffer hdr body more opcode Hhdr) as (Hd & _ & _).
  destruct (is_header_buffer hdr body more' opcode Hhdr) as (Hd' & _ & _).
  destruct Hhdr as (H16 & _ & _).
  assert (Hb : 16 <= Z.of_nat (length (hdr ++ body))) by (rewrite length_app; lia).
  unfold with_header. cbv zeta. rewrite Hd, Hd'.
  rewrite !int32_at_view by (rewrite ?length_app in *; lia).
  rewrite !(bytes_at_app_l hdr) by (cbn; lia). reflexivity.
Qed.

(** X20. The messages whose extractor reads no document (OP_MSG, OP_INSERT,
    OP_GET_MORE, OP_KILL_CURSORS) are read from their own bytes: whatever
    follows the message in the buffer, and whatever the spare capacity holds,
    the parser gives the same results (or panics in both runs) and leaves the
    same message. *)
Theorem without_documents_own_bytes
    (hdr body more spare more' spare' : list byte) (m : MongodbMessage)
    (opcode : Z) (name : string) :
  is_header hdr body opcode -> OpCodes opcode = Some name ->
  reads_documents name = false ->
  fst (mongodbMessageParser (stream_of hdr body more spare m))
  = fst (mongodbMessageParser (stream_of hdr body more' spare' m))
  /\ message (snd (mongodbMessageParser (stream_of hdr body more spare m)))
     = message (snd (mongodbMessageParser (stream_of hdr body more' spare' m))).
Proof.
  intros Hhdr Hname Hno.
  destruct (framed_run hdr body more spare m opcode name Hhdr Hname)
    as (Hc & _ & Ha & ->).
  destruct (framed_run hdr body more' spare' m opcode name Hhdr Hname)
    as (Hc' & _ & Ha' & ->).
  cbn [fst snd message].
  rewrite (with_header_own hdr body more spare more' spare' m opcode Hhdr).
  set (m1 := with_opCode name (with_header (hdr ++ body ++ more') spare' m)).
  set (v := view (hdr ++ body ++ more) spare (Z.of_nat (length (hdr ++ body)))) in *.
  set (v' := view (hdr ++ body ++ more') spare' (Z.of_nat (length (hdr ++ body)))) in *.
  assert (Hs : same_state (at_ v hdr m1) (at_ v' hdr m1)).
  { split; [| reflexivity]. cbn [at_ dec]. split; [reflexivity |].
    split; [| split; assumption]. cbn [d_in]. split; [reflexivity |].
    rewrite Ha, Ha'. cbn [v v' view len]. rewrite Nat2Z.id.
    rewrite !(app_assoc hdr body).
    rewrite !take_app_length. reflexivity. }
  destruct (window_only_state_dispatch _ _ Hs) as [Hr [_ Hm]];
    [cbn [at_ msg m1 with_opCode opCode set_event set_ExpectsResponse
          set_IsResponse set_opCode]; exact Hno |].
  split; [exact Hr | exact Hm].
Qed.

End OwnBytes.

(** ** The documents of a reply are as many as the reply announces *)

Lemma readInt32_result_range (d d' : decoder) (v : Z) (e : error_value) :
  readInt32 d = (Val (v, e), d') -> 0 <= v < 4294967296.
Proof.
  unfold readInt32, bind.
  destruct (readBytes 4 d) as [[[b [err |]] |] d1]; cbn [ret].
  - intros H. injection H as <- _ _. lia.
  - unfold liftRes, elem.
    destruct b as [| b0 [| b1 [| b2 [| b3 rest]]]];
      cbn [lookup list_lookup]; try discriminate.
    intros H. injection H as <- _ _. rewrite int32_of_bytes.
    pose proof (le_value_range [b0; b1; b2; b3]) as Hr.
    cbn [length] in Hr. change (256 ^ Z.of_nat 4) with 4294967296 in Hr. exact Hr.
  - discriminate.
Qed.

Section ReplyCount.
Context {E : Env}.

Lemma replyLoop_length (turns : nat) :
  forall (i : Z) (documents : list string) (err : error_value) (s s' : state)
         (documents' : list string) (err' : error_value),
    replyLoop turns i documents err s = (Val (documents', err'), s') ->
    length documents' = length documents.
Proof.
  induction turns as [| turns IH]; intros i documents err s s' documents' err' H.
  - cbn in H. injection H as <- _ _. reflexivity.
  - cbn [replyLoop] in H. unfold bind at 1 in H.
    destruct (onDecoder readDocument s) as [[[document e] |] s1];
      [| discriminate H].
    unfold bind at 1 in H.
    match type of H with
    | match ?c s1 with _ => _ end = _ => destruct (c s1) as [[e1 |] s2]
    end; [| discriminate H].
    destruct (doc2str (OfMap document)) as [x e2].
    unfold bind at 1 in H. unfold liftRes at 1, store in H.
    destruct ((0 <=? i) && (i <? Z.of_nat (length documents)));
      [| discriminate H].
    apply IH in H. rewrite H. apply length_insert.
Qed.

(** X21. Whenever [opReplyParse] returns, with either verdict and from any state,
    the event holds as many documents as the [numberReturned] it holds. *)
Theorem reply_documents_count (s : state) (r : bool * bool) :
  fst (opReplyParse s) = Val r ->
  exists (n : Z) (documents : list string),
    event (msg (snd (opReplyParse s))) !! "numberReturned" = Some (EInt n)
    /\ event (msg (snd (opReplyParse s))) !! "documents" = Some (EStrings documents)
    /\ Z.of_nat (length documents) = n.
Proof.
  destruct (opReplyParse s) as [r0 s'] eqn:Hrun. cbn [fst snd]. intros ->.
  unfold opReplyParse in Hrun.
  unfold bind at 1 in Hrun.
  destruct (onDecoder readInt32 s) as [[[v1 e1] |] s1]; [| discriminate Hrun].
  unfold bind at 1 in Hrun.
  destruct (onDecoder readInt64 s1) as [[[v2 e2] |] s2]; [| discriminate Hrun].
  unfold bind at 1 in Hrun. cbn [setMsg modify] in Hrun.
  unfold bind at 1 in Hrun.
  destruct (onDecoder readInt32 _) as [[[v3 e3] |] s3]; [| discriminate Hrun].
  unfold bind at 1 in Hrun. cbn [setMsg modify] in Hrun.
  unfold bind at 1 in Hrun.
  destruct (onDecoder readInt32 _) as [[[n e4] |] s4] eqn:H4; [| discriminate Hrun].
  assert (Hn : 0 <= n < 4294967296).
  { unfold onDecoder in H4.
    destruct (readInt32 _) as [r4 d4] eqn:Hread in H4.
    injection H4 as -> _. exact (readInt32_result_range _ _ _ _ Hread). }
  unfold bind at 1 in Hrun. cbn [setMsg modify] in Hrun.
  unfold bind at 1 in Hrun. unfold liftRes at 1, make_strings in Hrun.
  replace (n <? 0) with false in Hrun by (symmetry; apply Z.ltb_ge; lia).
  unfold bind at 1 in Hrun.
  match type of Hrun with
  | (let (_, _) := replyLoop ?t ?i ?ds ?e ?st in _) = _ =>
      pose proof (replyLoop_keeps
                    (fun m => event m !! "numberReturned" = Some (EInt n))
                    (fun _ _ H => H) t i ds e st) as Hkept;
      destruct (replyLoop t i ds e st) as [[[documents e5] |] s5] eqn:Hloop;
      [| discriminate Hrun]
  end.
  apply replyLoop_length in Hloop. rewrite length_replicate in Hloop.
  cbn [snd msg] in Hkept.
  specialize (Hkept (lookup_insert_eq _ _ _)).
  unfold bind at 1 in Hrun. cbn [setMsg modify] in Hrun.
  assert (Hs : s' = {| dec := dec s5;
                       msg := put_event "documents" (EStrings documents) (msg s5) |}).
  { destruct e5; cbn in Hrun; injection Hrun as _ <-; reflexivity. }
  exists n, documents. rewrite Hs. cbn [msg put_event event set_event].
  split; [rewrite lookup_insert_ne by discriminate; exact Hkept |].
  split; [apply lookup_insert_eq | lia].
Qed.

End ReplyCount.

(** ** What the framer and the extractors never do *)

Section Never.
Context {E : Env}.

(** X22. A panic of the parser comes from an extractor: the framer itself, with
    its reslicing of the buffer, never panics, and neither does
    [opKillCursorsParse]. *)
Theorem panics_come_from_the_extractors (buf spare : list byte)
    (m : MongodbMessage) :
  fst (mongodbMessageParser {| data := slice_of buf spare; message := m |})
  = Panicked ->
  16 <= declaredLength buf <= Z.of_nat (length buf)
  /\ exists name, OpCodes (le_value (bytes_at buf 12 4)) = Some name
                  /\ name <> "OP_KILL_CURSORS".
Proof.
  rewrite mongodbMessageParser_parse. cbn [fst data message]. intros H.
  destruct (Z_lt_le_dec (Z.of_nat (length buf)) 4) as [H4 | H4].
  { exfalso. unfold parse in H. unfold bind at 1 in H. rewrite parse_length in H.
    replace (4 >? Z.of_nat (length buf)) with true in H
      by (symmetry; apply Z.gtb_lt; lia).
    discriminate H. }
  destruct (Z_lt_le_dec (Z.of_nat (length buf)) (declaredLength buf)) as [Hd | Hd].
  { exfalso. unfold parse in H. unfold bind at 1 in H. rewrite parse_length in H.
    replace (4 >? Z.of_nat (length buf)) with false in H
      by (symmetry; rewrite Z.gtb_ltb; apply Z.ltb_ge; lia).
    cbn [len slice_of] in H.
    replace (declaredLength buf >? Z.of_nat (length buf)) with true in H
      by (symmetry; apply Z.gtb_lt; lia).
    discriminate H. }
  rewrite parse_framed in H by lia. cbv zeta in H.
  destruct (Z_lt_le_dec (declaredLength buf) 16) as [H16 | H16].
  { exfalso.
    destruct (int32_at_short (view buf spare (declaredLength buf)) 12) as [H0 _];
      [cbn; lia |].
    rewrite H0 in H. discriminate H. }
  rewrite (int32_at_view buf spare _ 12) in H by lia.
  change (Z.to_nat 12) with 12%nat in H.
  split; [lia |].
  destruct (OpCodes (le_value (bytes_at buf 12 4))) as [name |];
    [| discriminate H].
  exists name. split; [reflexivity |]. intros ->.
  rewrite dispatch_kill_cursors in H. discriminate H.
Qed.

Lemma returns_ret {S A} (Q : A -> Prop) (a : A) :
  Q a -> returns Q (ret a : M S A).
Proof. intros H s r Hr. injection Hr as <-. exact H. Qed.

Lemma returns_bind {S A B} (Q : B -> Prop) (c : M S A) (k : A -> M S B) :
  (forall a, returns Q (k a)) -> returns Q (bind c k).
Proof.
  intros Hk s r. unfold bind. destruct (c s) as [[a |] s1]; [apply Hk |].
  discriminate.
Qed.

Lemma returns_weaken {S A} (Q Q' : A -> Prop) (c : M S A) :
  (forall a, Q a -> Q' a) -> returns Q c -> returns Q' c.
Proof. intros HQ Hc s r Hr. apply HQ, (Hc s r Hr). Qed.

Lemma returns_finish {S} (err : error_value) :
  returns equal_results (finish err : M S (bool * bool)).
Proof.
  destruct err; apply returns_ret; unfold equal_results; tauto.
Qed.

Lemma equal_results_verdict (r : bool * bool) : equal_results r -> verdict r.
Proof. unfold equal_results, verdict. tauto. Qed.

Ltac verdicts :=
  repeat first
    [ assumption
    | apply returns_finish
    | apply returns_ret; unfold verdict, equal_results; tauto
    | apply returns_bind; intros ?
    | match goal with
      | |- returns _ (if ?c then _ else _) => destruct c
      | |- returns _ (match ?x with _ => _ end) => destruct x
      end ].

Lemma extractors_equal_results :
  returns equal_results opReplyParse /\ returns equal_results opMsgParse
  /\ returns equal_results opUpdateParse /\ returns equal_results opInsertParse
  /\ returns equal_results opQueryParse /\ returns equal_results opGetMoreParse
  /\ returns equal_results opDeleteParse
  /\ returns equal_results opKillCursorsParse.
Proof.
  unfold opReplyParse, opMsgParse, opUpdateParse, opInsertParse,
         opQueryParse, opGetMoreParse, opDeleteParse, opKillCursorsParse.
  repeat split; verdicts.
Qed.

Lemma dispatch_equal_results : returns equal_results dispatch.
Proof.
  destruct extractors_equal_results as (K1 & K2 & K3 & K4 & K5 & K6 & K7 & K8).
  unfold dispatch. verdicts.
Qed.

(** X23. Whatever the stream holds, when the parser returns its two results
    are (true, true), (true, false) or (false, false): it never reports a
    complete message that is not ok.  Every extractor that returns, and the
    dispatcher with it, gives two equal results, from any state; so does the
    parser on every buffer that holds the message it declares: there
    (true, false) is not a result. *)
Theorem parser_verdicts :
  (forall (s : MongodbStream) (r : bool * bool),
      fst (mongodbMessageParser s) = Val r ->
      verdict r /\ (snd r = true -> fst r = true))
  /\ (forall (buf spare : list byte) (m : MongodbMessage) (r : bool * bool),
         4 <= Z.of_nat (length buf) ->
         declaredLength buf <= Z.of_nat (length buf) ->
         fst (mongodbMessageParser {| data := slice_of buf spare; message := m |})
         = Val r ->
         equal_results r)
  /\ returns equal_results opReplyParse /\ returns equal_results opMsgParse
  /\ returns equal_results opUpdateParse /\ returns equal_results opInsertParse
  /\ returns equal_results opQueryParse /\ returns equal_results opGetMoreParse
  /\ returns equal_results opDeleteParse
  /\ returns equal_results opKillCursorsParse
  /\ returns equal_results dispatch.
Proof.
  pose proof dispatch_equal_results as Hd.
  split; [| split].
  - intros s r. rewrite mongodbMessageParser_parse. cbn [fst]. intros H.
    assert (Hv : verdict r).
    { revert H. generalize {| dec := newDecoder (data s); msg := message s |}.
      intros s0. revert s0 r.
      change (returns verdict (parse (data s))).
      pose proof (returns_weaken _ _ _ equal_results_verdict Hd) as Hd'.
      unfold parse. verdicts. }
    split; [exact Hv |].
    destruct Hv as [-> | [-> | ->]]; cbn; intros; congruence.
  - intros buf spare m r H4 HL.
    rewrite mongodbMessageParser_parse. cbn [fst data message].
    rewrite parse_framed by assumption. cbv zeta.
    destruct (OpCodes _) as [name |].
    + apply Hd.
    + cbn [fst]. intros H. injection H as <-. right. reflexivity.
  - repeat split; first [apply extractors_equal_results | exact Hd].
Qed.

Lemma requests_keep_the_error (e : string) :
  let P := fun x : MongodbMessage => error x = e in
  keeps P opMsgParse /\ keeps P opUpdateParse /\ keeps P opInsertParse
  /\ keeps P opQueryParse /\ keeps P opGetMoreParse /\ keeps P opDeleteParse
  /\ keeps P opKillCursorsParse.
Proof.
  intros P.
  repeat split;
    try (apply opQueryParse_keeps; intros; assumption);
    unfold opMsgParse, opUpdateParse, opInsertParse, opGetMoreParse,
           opDeleteParse, opKillCursorsParse;
    repeat keeps_step.
Qed.

(** X24. The error of the message is written by [opReplyParse] alone: whatever
    the buffer holds, unless the four bytes at offset 12 are the opcode of
    OP_REPLY the parser leaves the error as it was, whether it returns or
    panics. *)
Theorem error_is_written_by_replies_only (buf spare : list byte)
    (m : MongodbMessage) :
  OpCodes (le_value (bytes_at buf 12 4)) <> Some "OP_REPLY" ->
  error (message (snd (mongodbMessageParser
                         {| data := slice_of buf spare; message := m |})))
  = error m.
Proof.
  intros Hop. rewrite mongodbMessageParser_parse. cbn [snd data message].
  destruct (Z_lt_le_dec (Z.of_nat (length buf)) 4) as [H4 | H4].
  { unfold parse. unfold bind at 1. rewrite parse_length.
    replace (4 >? Z.of_nat (length buf)) with true
      by (symmetry; apply Z.gtb_lt; lia).
    reflexivity. }
  destruct (Z_lt_le_dec (Z.of_nat (length buf)) (declaredLength buf)) as [Hd | Hd].
  { unfold parse. unfold bind at 1. rewrite parse_length.
    replace (4 >? Z.of_nat (length buf)) with false
      by (symmetry; rewrite Z.gtb_ltb; apply Z.ltb_ge; lia).
    cbn [len slice_of].
    replace (declaredLength buf >? Z.of_nat (length buf)) with true
      by (symmetry; apply Z.gtb_lt; lia).
    reflexivity. }
  rewrite parse_framed by lia. cbv zeta.
  destruct (Z_lt_le_dec (declaredLength buf) 16) as [H16 | H16].
  { destruct (int32_at_short (view buf spare (declaredLength buf)) 12) as [H0 _];
      [cbn; lia |].
    rewrite H0. reflexivity. }
  rewrite (int32_at_view buf spare _ 12) by lia.
  change (Z.to_nat 12) with 12%nat.
  destruct (OpCodes (le_value (bytes_at buf 12 4))) as [name |] eqn:Hname;
    [| reflexivity].
  assert (Hnot : String.eqb name "OP_REPLY" = false).
  { apply String.eqb_neq. intros ->. apply Hop. reflexivity. }
  destruct (requests_keep_the_error (error m))
    as (K1 & K2 & K3 & K4 & K5 & K6 & K7).
  unfold dispatch. unfold bind at 1. unfold gets at 1. cbv beta iota.
  cbn [msg with_opCode opCode set_event set_ExpectsResponse set_IsResponse
       set_opCode].
  rewrite Hnot.
  repeat match goal with
         | |- context [if ?c then _ else _] => destruct c
         end;
    try reflexivity;
    match goal with
    | |- error (msg (snd (?c ?s))) = _ =>
        apply (fun K : keeps (fun x => error x = error m) c => K s);
          [| reflexivity]
    end;
    repeat first [assumption | keeps_step].
Qed.

(** X25. A message with an opcode of the table starts afresh: the framer and the
    dispatcher overwrite every field of the message but the method and the
    error before the extractor runs, so the outcome does not depend on what
    the event, the flags, the opcode and the header fields held before. *)
Theorem known_opcode_starts_afresh (buf spare : list byte)
    (m m2 : MongodbMessage) (name : string) :
  16 <= declaredLength buf <= Z.of_nat (length buf) ->
  OpCodes (le_value (bytes_at buf 12 4)) = Some name ->
  method m = method m2 -> error m = error m2 ->
  mongodbMessageParser {| data := slice_of buf spare; message := m |}
  = mongodbMessageParser {| data := slice_of buf spare; message := m2 |}.
Proof.
  intros HL Hname Hm He.
  rewrite !mongodbMessageParser_parse. cbn [data message].
  rewrite !parse_framed by lia. cbv zeta.
  rewrite (int32_at_view buf spare _ 12) by lia.
  change (Z.to_nat 12) with 12%nat. rewrite Hname.
  replace (with_opCode name (with_header buf spare m2))
    with (with_opCode name (with_header buf spare m)); [reflexivity |].
  destruct m, m2. cbn in Hm, He. subst.
  reflexivity.
Qed.

End Never.

(** ** The further properties on concrete inputs *)

Section FurtherWitnesses.

#[local] Existing Instance sampleEnv.

Import Examples Samples.

Lemma readInt32_le_bytes_witness :
  let d := newDecoder (slice_of (le_bytes 4 2004 ++ [x07]) []) in
  readInt32 d = (Val (2004, None), set_i 4 d).
Proof. apply (readInt32_le_bytes 2004 [x07] []). computed. Defined.

Lemma readInt64_le_bytes_witness :
  let d := newDecoder (slice_of (le_bytes 8 (-2) ++ [x07]) []) in
  readInt64 d = (Val (-2, None), set_i 8 d).
Proof. apply (readInt64_le_bytes (-2) [x07] []). computed. Defined.

Lemma failed_fixed_read_is_sticky_witness :
  let d := newDecoder (slice_of [x01; x02] []) in
  fst (readInt32 d) = Val (0, Some ErrNoByte)
  /\ readCStr (snd (readInt32 d)) = (Panicked, snd (readInt32 d)).
Proof.
  intros d.
  destruct (failed_fixed_read_is_sticky d) as (H1 & _ & _ & _ & _ & H2);
    [computed | computed | computed | computed |].
  split; [exact H1 | exact H2].
Defined.

Lemma readCStr_unterminated_witness :
  let v := slice_of (list_byte_of_string "abc") [] in
  readCStr {| d_in := v; d_i := 0 |}
  = (Val ("", Some ErrCStr), {| d_in := v; d_i := 4 |}).
Proof.
  intros v.
  apply (readCStr_unterminated v ltac:(computed) [] (list_byte_of_string "abc") []).
  - reflexivity.
  - vm_compute. intuition discriminate.
  - reflexivity.
Defined.

Lemma readCStr_round_trip_witness :
  let v := slice_of ([x01] ++ Bson.cstring "db.c" ++ [x02]) [] in
  readCStr {| d_in := v; d_i := 1 |} = (Val ("db.c", None), {| d_in := v; d_i := 6 |}).
Proof.
  intros v.
  apply (readCStr_round_trip v ltac:(computed) ltac:(computed) "db.c" [x01] [x02]).
  - reflexivity.
  - vm_compute. intuition discriminate.
  - computed.
Defined.

Lemma header_round_trip_witness :
  let m' := message (snd (mongodbMessageParser
              {| data := slice_of (unknown_9999 ++ [x07]) [];
                 message := Wire.emptyMessage |})) in
  messageLength m' = 20 /\ requestId m' = 1 /\ responseTo m' = 0.
Proof.
  apply (header_round_trip 1 0 9999 (le_bytes 4 0) [x07] [] Wire.emptyMessage);
    computed.
Defined.

Lemma short_body_panics_witness :
  fst (run insert_cut) = Panicked
  /\ event (message (snd (run insert_cut))) = ∅.
Proof.
  apply (short_body_panics insert_cut [] Wire.emptyMessage "OP_INSERT").
  - computed.
  - computed.
  - computed.
  - right. left. reflexivity.
Defined.

Lemma kill_cursors_reads_nothing_witness :
  fst (run kill_cursors) = Val (true, true)
  /\ event (message (snd (run kill_cursors))) = ∅
  /\ method (message (snd (run kill_cursors))) = "killCursors".
Proof.
  change (run kill_cursors)
    with (mongodbMessageParser
            (stream_of (Wire.header 32 24 0 2007)
               (le_bytes 4 0 ++ le_bytes 4 1 ++ le_bytes 8 77) [] []
               Wire.emptyMessage)).
  apply kill_cursors_reads_nothing. computed.
Defined.

Lemma msg_text_witness :
  fst (run msg_hello) = Val (true, true)
  /\ event (message (snd (run msg_hello))) = {[ "message" := EString "hello" ]}
  /\ method (message (snd (run msg_hello))) = "msg".
Proof.
  change (run msg_hello)
    with (mongodbMessageParser
            (stream_of (Wire.header 22 20 0 1000)
               ((list_byte_of_string "hello" ++ [x00]) ++ []) [] []
               Wire.emptyMessage)).
  apply (msg_text (Wire.header 22 20 0 1000) (list_byte_of_string "hello") [] [] []).
  - computed.
  - vm_compute. intuition discriminate.
Defined.

Lemma msg_without_terminator_witness :
  fst (run msg_open) = Val (false, false)
  /\ event (message (snd (run msg_open))) = {[ "message" := EString "" ]}.
Proof.
  change (run msg_open)
    with (mongodbMessageParser
            (stream_of (Wire.header 21 21 0 1000) (list_byte_of_string "hello")
               [] [] Wire.emptyMessage)).
  apply msg_without_terminator.
  - computed.
  - vm_compute. intuition discriminate.
Defined.

Lemma insert_reads_the_name_only_witness :
  fst (run insert_one) = Val (true, true)
  /\ event (message (snd (run insert_one)))
     = {[ "fullCollectionName" := EString "db.c" ]}
  /\ method (message (snd (run insert_one))) = "insert".
Proof.
  change (run insert_one)
    with (mongodbMessageParser
            (stream_of (Wire.header 37 22 0 2002)
               (le_bytes 4 0 ++ (list_byte_of_string "db.c" ++ [x00])
                ++ Bson.document (Bson.int32_element "a" 1)) [] []
               Wire.emptyMessage)).
  apply (insert_reads_the_name_only (Wire.header 37 22 0 2002) (le_bytes 4 0)
           (list_byte_of_string "db.c")).
  - computed.
  - reflexivity.
  - vm_compute. intuition discriminate.
Defined.

Lemma get_more_fields_witness :
  fst (run get_more) = Val (true, true)
  /\ event (message (snd (run get_more))) !! "cursorId" = Some (EInt 77)
  /\ method (message (snd (run get_more))) = "getMore".
Proof.
  change (run get_more)
    with (mongodbMessageParser
            (stream_of (Wire.header 37 3 0 2005)
               (le_bytes 4 0 ++ (list_byte_of_string "db.c" ++ [x00])
                ++ le_bytes 4 10 ++ le_bytes 8 77 ++ []) [] []
               Wire.emptyMessage)).
  destruct (get_more_fields (Wire.header 37 3 0 2005) (le_bytes 4 0)
              (list_byte_of_string "db.c") (le_bytes 4 10) (le_bytes 8 77)
              [] [] [] Wire.emptyMessage) as (Hr & He & Hm & _).
  - computed.
  - reflexivity.
  - vm_compute. intuition discriminate.
  - reflexivity.
  - reflexivity.
  - split; [exact Hr |]. split; [rewrite He; reflexivity | exact Hm].
Defined.

Lemma update_verdict_is_the_last_conversion_witness :
  fst (run update_bad_selector) = Val (true, true)
  /\ event (message (snd (run update_bad_selector))) !! "selector"
     = Some (EString "null").
Proof.
  change (run update_bad_selector)
    with (mongodbMessageParser
            (stream_of (Wire.header 50 11 0 2001)
               (le_bytes 4 0 ++ (list_byte_of_string "db.users" ++ [x00])
                ++ le_bytes 4 0 ++ not_a_document
                ++ Bson.document (Bson.int32_element "a" 1) ++ []) [] []
               Wire.emptyMessage)).
  destruct (update_verdict_is_the_last_conversion
              (Wire.header 50 11 0 2001) (le_bytes 4 0)
              (list_byte_of_string "db.users") (le_bytes 4 0) not_a_document
              (Bson.document (Bson.int32_element "a" 1))
              [] [] [] Wire.emptyMessage) as (Hr & He).
  - computed.
  - reflexivity.
  - vm_compute. intuition discriminate.
  - reflexivity.
  - framed.
  - framed.
  - split; [exact Hr | rewrite He; reflexivity].
Defined.

Lemma delete_fields_witness :
  fst (run delete_one) = Val (true, true)
  /\ event (message (snd (run delete_one))) !! "fullCollectionName"
     = Some (EString "db.c")
  /\ method (message (snd (run delete_one))) = "delete".
Proof.
  change (run delete_one)
    with (mongodbMessageParser
            (stream_of (Wire.header 41 23 0 2006)
               (le_bytes 4 0 ++ (list_byte_of_string "db.c" ++ [x00])
                ++ le_bytes 4 0
                ++ Bson.document (Bson.int32_element "a" 1) ++ []) [] []
               Wire.emptyMessage)).
  destruct (delete_fields (Wire.header 41 23 0 2006) (le_bytes 4 0)
              (list_byte_of_string "db.c") (le_bytes 4 0)
              (Bson.document (Bson.int32_element "a" 1))
              [] [] [] Wire.emptyMessage) as (Hr & He & Hm).
  - computed.
  - reflexivity.
  - vm_compute. intuition discriminate.
  - reflexivity.
  - framed.
  - split; [exact Hr |]. split; [rewrite He; reflexivity | exact Hm].
Defined.

Lemma query_event_witness :
  event (message (snd (run query_with_selector))) !! "numberToReturn"
  = Some (EInt 10)
  /\ event (message (snd (run query_with_selector))) !! "returnFieldsSelector"
     = Some (EString (Json.object [("b", "1")])).
Proof.
  change (run query_with_selector)
    with (mongodbMessageParser
            (stream_of (Wire.header 61 25 0 2004)
               (le_bytes 4 0 ++ (list_byte_of_string "db.users" ++ [x00])
                ++ le_bytes 4 0 ++ le_bytes 4 10
                ++ Bson.document (Bson.int32_element "a" 1)
                ++ Bson.document (Bson.int32_element "b" 1)) [] []
               Wire.emptyMessage)).
  destruct (query_event (Wire.header 61 25 0 2004) (le_bytes 4 0)
              (list_byte_of_string "db.users") (le_bytes 4 0) (le_bytes 4 10)
              (Bson.document (Bson.int32_element "a" 1))
              (Bson.document (Bson.int32_element "b" 1))
              [] [] Wire.emptyMessage) as (_ & _ & Hn & _ & Hs & _).
  - computed.
  - reflexivity.
  - vm_compute. intuition discriminate.
  - reflexivity.
  - reflexivity.
  - framed.
  - right. framed.
  - split; [exact Hn | exact Hs].
Defined.

Lemma truncated_reply_witness :
  fst (run reply_cut) = Val (false, false)
  /\ event (message (snd (run reply_cut))) !! "documents" = Some (EStrings [])
  /\ event (message (snd (run reply_cut))) !! "numberReturned" = Some (EInt 0).
Proof.
  change (run reply_cut)
    with (mongodbMessageParser
            (stream_of (Wire.header 28 26 25 1) (le_bytes 4 0 ++ le_bytes 8 5)
               [] [] Wire.emptyMessage)).
  apply truncated_reply.
  - computed.
  - vm_compute. lia.
Defined.

Lemma readDocumentStr_drops_the_decode_error_witness :
  let d := {| d_in := slice_of (not_a_document ++ [x07; x07]) []; d_i := 0 |} in
  readDocumentStr d = (Val ("null", None), set_i 5 d).
Proof.
  intros d.
  destruct (readDocumentStr_drops_the_decode_error d) as (H & _);
    [computed | computed | computed |].
  exact H.
Defined.

Lemma cursor_never_moves_back_witness :
  let d := {| d_in := slice_of (not_a_document ++ [x07; x07]) []; d_i := 0 |} in
  d_i d <= d_i (snd (readCStr d)) /\ d_i d <= d_i (snd (readDocument d)).
Proof.
  intros d.
  destruct (cursor_never_moves_back sampleEnv d)
    as (_ & _ & (_ & Hs) & (_ & Hd));
    [computed | computed | computed |].
  split; [exact Hs | exact Hd].
Defined.

Lemma without_documents_own_bytes_witness :
  let hdr := Wire.header 37 22 0 2002 in
  let body := le_bytes 4 0 ++ Bson.cstring "db.c"
              ++ Bson.document (Bson.int32_element "a" 1) in
  fst (mongodbMessageParser (stream_of hdr body [] [] Wire.emptyMessage))
  = fst (mongodbMessageParser
           (stream_of hdr body [x07; x07] [x07] Wire.emptyMessage)).
Proof.
  intros hdr body.
  destruct (without_documents_own_bytes hdr body [] [] [x07; x07] [x07]
              Wire.emptyMessage 2002 "OP_INSERT") as (H & _).
  - computed.
  - reflexivity.
  - reflexivity.
  - exact H.
Defined.

Lemma reply_documents_count_witness :
  let s := {| dec := newDecoder
                       (slice_of (le_bytes 4 0 ++ le_bytes 8 0 ++ le_bytes 4 0
                                  ++ le_bytes 4 1
                                  ++ Bson.document (Bson.int32_element "code" 18))
                                 []);
              msg := Wire.emptyMessage |} in
  exists (n : Z) (documents : list string),
    event (msg (snd (opReplyParse s))) !! "numberReturned" = Some (EInt n)
    /\ event (msg (snd (opReplyParse s))) !! "documents" = Some (EStrings documents)
    /\ Z.of_nat (length documents) = n.
Proof.
  intros s. apply (reply_documents_count s (true, true)). vm_compute. reflexivity.
Defined.

Lemma panics_come_from_the_extractors_witness :
  fst (run insert_cut) = Panicked
  /\ 16 <= declaredLength insert_cut <= Z.of_nat (length insert_cut)
  /\ exists name, OpCodes (le_value (bytes_at insert_cut 12 4)) = Some name
                  /\ name <> "OP_KILL_CURSORS".
Proof.
  assert (H : fst (run insert_cut) = Panicked) by computed.
  split; [exact H |].
  exact (panics_come_from_the_extractors insert_cut [] Wire.emptyMessage H).
Defined.

Lemma parser_verdicts_witness :
  fst (run get_more) = Val (true, true)
  /\ verdict (true, true) /\ equal_results (true, true).
Proof.
  assert (H : fst (run get_more) = Val (true, true)) by computed.
  destruct parser_verdicts as (Hv & He & _).
  split; [exact H |]. split.
  - exact (proj1 (Hv (Wire.stream get_more) (true, true) H)).
  - apply (He get_more [] Wire.emptyMessage (true, true)); [computed | computed |].
    exact H.
Defined.

Lemma error_is_written_by_replies_only_witness :
  error (message (snd (run update_bad_selector))) = error Wire.emptyMessage.
Proof.
  apply (error_is_written_by_replies_only update_bad_selector [] Wire.emptyMessage).
  computed.
Defined.

Lemma known_opcode_starts_afresh_witness :
  mongodbMessageParser (Wire.stream get_more)
  = mongodbMessageParser
      {| data := slice_of get_more [];
         message := put_event "cursorId" (EInt 5)
                      (set_opCode "OP_REPLY" Wire.emptyMessage) |}.
Proof.
  apply (known_opcode_starts_afresh get_more [] Wire.emptyMessage
           (put_event "cursorId" (EInt 5) (set_opCode "OP_REPLY" Wire.emptyMessage))
           "OP_GET_MORE").
  - computed.
  - computed.
  - reflexivity.
  - reflexivity.
Defined.

End FurtherWitnesses.
